(** * Draft validation, SEO normalisation and run coordination of the
      candidate-profile autoposters

    A shallow embedding of [automation/cybersecurity_autopost.py] and
    [automation/gemini_autopost.py], followed by the properties of the
    natural-language specification that the code satisfies or violates.

    Conventions of the embedding:
    - a Python [str] is a [list ascii]; the string methods and regular
      expressions are embedded as they act on ASCII text (characters above
      127 count as caseless, printable, non-space symbols);
    - a Python [int] is a [Z]; JSON numbers with a fraction or an exponent
      (Python floats) are outside the embedding;
    - a JSON object is an association list in insertion order;
    - a function that can raise returns an [option] ([None] = the exception
      escapes); a loop that may not terminate takes fuel and returns [None]
      when the fuel runs out;
    - a run of [main] is a total function of the fuel, the options, the
      answers of the collaborators and the world: it gives how the run ends
      (an exit code, or still running when the fuel is spent), the world it
      leaves and its effects in their order. *)

From Stdlib Require Import List ZArith QArith Lia Ascii String Bool Arith.
From Stdlib Require Import Numbers.DecimalString.
Import ListNotations.

Close Scope Q_scope.
Open Scope list_scope.

(* ================================================================== *)
(** * Python strings *)
(* ================================================================== *)

Module PyStr.

Definition str := list ascii.

(** String literals of the source, as [str]. *)
Definition lit (s : string) : str := list_ascii_of_string s.
Arguments lit s%_string.

(** [len(s)] *)
Definition len (s : str) : Z := Z.of_nat (List.length s).

(** [len(l)] of a list *)
Definition len_list {A : Type} (l : list A) : Z := Z.of_nat (List.length l).

Definition code (c : ascii) : nat := nat_of_ascii c.

Definition chr_eqb (a b : ascii) : bool := Ascii.eqb a b.

Fixpoint str_eqb (a b : str) : bool :=
  match a, b with
  | [], [] => true
  | x :: a', y :: b' => chr_eqb x y && str_eqb a' b'
  | _, _ => false
  end.

(** [not s], for a string, a list or a set. *)
Definition is_empty {A : Type} (s : list A) : bool :=
  match s with [] => true | _ :: _ => false end.

(** Whitespace as [\s] and [str.strip()] see it on ASCII:
    TAB, LF, VT, FF, CR, the separators 0x1c-0x1f and the space. *)
Definition is_space (c : ascii) : bool :=
  let n := code c in
  ((9 <=? n) && (n <=? 13)) || ((28 <=? n) && (n <=? 32)).

Definition is_digit (c : ascii) : bool :=
  let n := code c in (48 <=? n) && (n <=? 57).

Definition is_lower (c : ascii) : bool :=
  let n := code c in (97 <=? n) && (n <=? 122).

Definition is_upper (c : ascii) : bool :=
  let n := code c in (65 <=? n) && (n <=? 90).

(** The character class [[a-z0-9]]. *)
Definition is_alnum (c : ascii) : bool := is_lower c || is_digit c.

Definition lower_char (c : ascii) : ascii :=
  if is_upper c then ascii_of_nat (code c + 32) else c.

Definition upper_char (c : ascii) : ascii :=
  if is_lower c then ascii_of_nat (code c - 32) else c.

(** [s.lower()] *)
Definition lower (s : str) : str := map lower_char s.

(** [s.title()]: a cased character is upper-cased when the character before
    it is not cased, lower-cased otherwise. *)
Fixpoint title_from (prev_cased : bool) (s : str) : str :=
  match s with
  | [] => []
  | c :: s' =>
      if is_lower c || is_upper c
      then (if prev_cased then lower_char c else upper_char c)
             :: title_from true s'
      else c :: title_from false s'
  end.

Definition title (s : str) : str := title_from false s.

Fixpoint drop_while (p : ascii -> bool) (s : str) : str :=
  match s with
  | [] => []
  | c :: s' => if p c then drop_while p s' else s
  end.

(** [s.lstrip(chars)], [s.rstrip(chars)], [s.strip(chars)] for the set of
    characters accepted by [p]. *)
Definition lstrip_by (p : ascii -> bool) (s : str) : str := drop_while p s.

Definition rstrip_by (p : ascii -> bool) (s : str) : str :=
  rev (drop_while p (rev s)).

Definition strip_by (p : ascii -> bool) (s : str) : str :=
  lstrip_by p (rstrip_by p s).

(** [s.rstrip()] and [s.strip()] *)
Definition rstrip (s : str) : str := rstrip_by is_space s.
Definition strip (s : str) : str := strip_by is_space s.

(** Membership of a character in a literal set such as [" ,;:-"]. *)
Definition one_of (chars : str) (c : ascii) : bool :=
  existsb (chr_eqb c) chars.

(** [s.startswith(p)] *)
Fixpoint startswith (s p : str) : bool :=
  match p, s with
  | [], _ => true
  | x :: p', y :: s' => chr_eqb x y && startswith s' p'
  | _ :: _, [] => false
  end.

(** [needle in s] *)
Fixpoint contains (s needle : str) : bool :=
  startswith s needle
  || match s with
     | [] => false
     | _ :: s' => contains s' needle
     end.

(** [s[:n]], with Python's reading of a negative bound. *)
Definition slice_to (s : str) (n : Z) : str :=
  if (0 <=? n)%Z then firstn (Z.to_nat n) s
  else firstn (Z.to_nat (len s + n)) s.

(** [s.rsplit(sep, 1)[0]] for a one-character [sep] that occurs in [s]:
    what stands before the last [sep]. *)
Definition before_last (sep : ascii) (s : str) : str :=
  rev (tl (drop_while (fun c => negb (chr_eqb c sep)) (rev s))).

(** [sep.join(parts)] *)
Fixpoint join (sep : str) (parts : list str) : str :=
  match parts with
  | [] => []
  | [x] => x
  | x :: rest => x ++ sep ++ join sep rest
  end.

Definition starts_with_class (p : ascii -> bool) (s : str) : bool :=
  match s with
  | [] => false
  | c :: _ => p c
  end.

(** [re.findall(r"[...]+", s)] for the character class [p]: the maximal runs
    of characters of the class, left to right. *)
Fixpoint findall_runs (p : ascii -> bool) (s : str) : list str :=
  match s with
  | [] => []
  | c :: s' =>
      if p c then
        if starts_with_class p s' then
          match findall_runs p s' with
          | r :: rs => (c :: r) :: rs
          | [] => [[c]]
          end
        else [c] :: findall_runs p s'
      else findall_runs p s'
  end.

(** [re.findall(r"[a-z0-9]+", s)] *)
Definition findall_alnum (s : str) : list str := findall_runs is_alnum s.

(** [re.sub(r"[...]+", " ", s)] for the character class [p]: every maximal
    run of the class becomes one space. *)
Fixpoint sub_runs_space (p : ascii -> bool) (s : str) : str :=
  match s with
  | [] => []
  | c :: s' =>
      if p c then
        if starts_with_class p s' then sub_runs_space p s'
        else " "%char :: sub_runs_space p s'
      else c :: sub_runs_space p s'
  end.

(** [re.fullmatch(r"[a-z0-9]+(?:-[a-z0-9]+)*", s)] *)
Fixpoint kebab_rest (s : str) : bool :=
  match s with
  | [] => true
  | c :: s' =>
      if is_alnum c then kebab_rest s'
      else if chr_eqb c "-"%char
           then starts_with_class is_alnum s' && kebab_rest s'
           else false
  end.

Definition fullmatch_kebab (s : str) : bool :=
  starts_with_class is_alnum s && kebab_rest s.

(** Distinct elements, for the sizes of Python sets. *)
Fixpoint mem (x : str) (l : list str) : bool :=
  match l with
  | [] => false
  | y :: l' => str_eqb x y || mem x l'
  end.

Fixpoint distinct (l : list str) : list str :=
  match l with
  | [] => []
  | x :: l' => if mem x l' then distinct l' else x :: distinct l'
  end.

End PyStr.

Import PyStr.

(* ================================================================== *)
(** * JSON values as [json.load] returns them *)
(* ================================================================== *)

Module Json.

Set Warnings "-register-all".

Inductive json : Type :=
| JNull
| JBool (b : bool)
| JInt (z : Z)
| JStr (s : str)
| JList (items : list json)
| JObj (fields : list (str * json)).

(** A Python [dict] with string keys, in insertion order. *)
Definition dict := list (str * json).

(** [d.get(key)] *)
Fixpoint dict_get (d : dict) (key : str) : option json :=
  match d with
  | [] => None
  | (k, v) :: d' => if str_eqb k key then Some v else dict_get d' key
  end.

(** [d.get(key, default)] *)
Definition get_or (d : dict) (key : str) (default : json) : json :=
  match dict_get d key with
  | Some v => v
  | None => default
  end.

(** [d[key] = v]: an existing key keeps its place, a new key goes last. *)
Fixpoint dict_set (d : dict) (key : str) (v : json) : dict :=
  match d with
  | [] => [(key, v)]
  | (k, w) :: d' =>
      if str_eqb k key then (k, v) :: d' else (k, w) :: dict_set d' key v
  end.

(** Truth value of a JSON value, as [x or ""] and [if x] test it. *)
Definition truthy (j : json) : bool :=
  match j with
  | JNull => false
  | JBool b => b
  | JInt z => negb (z =? 0)%Z
  | JStr s => negb (is_empty s)
  | JList l => negb (match l with [] => true | _ => false end)
  | JObj f => negb (match f with [] => true | _ => false end)
  end.

Definition decimal (z : Z) : str :=
  list_ascii_of_string (NilZero.string_of_int (Z.to_int z)).

Definition hex_digit (n : nat) : ascii :=
  nth n (lit "0123456789abcdef") "0"%char.

(** One character of [repr(s)] inside the quotes [quote]. *)
Definition repr_char (quote c : ascii) : str :=
  let bs := "\"%char in
  if chr_eqb c quote || chr_eqb c bs then [bs; c]
  else if code c =? 9 then [bs; "t"%char]
  else if code c =? 10 then [bs; "n"%char]
  else if code c =? 13 then [bs; "r"%char]
  else if (code c <? 32) || (code c =? 127)
       then [bs; "x"%char; hex_digit (code c / 16); hex_digit (code c mod 16)]
       else [c].

(** [repr(s)] of a string: single quotes, unless the string holds a single
    quote and no double quote. *)
Definition repr_str (s : str) : str :=
  let sq := "'"%char in
  let dq := ascii_of_nat 34 in
  let quote := if one_of s sq && negb (one_of s dq) then dq else sq in
  [quote] ++ flat_map (repr_char quote) s ++ [quote].

(** [repr(j)] *)
Fixpoint py_repr (j : json) : str :=
  match j with
  | JNull => lit "None"
  | JBool true => lit "True"
  | JBool false => lit "False"
  | JInt z => decimal z
  | JStr s => repr_str s
  | JList l => lit "[" ++ join (lit ", ") (map py_repr l) ++ lit "]"
  | JObj f =>
      lit "{"
      ++ join (lit ", ")
           (map (fun kv => repr_str (fst kv) ++ lit ": " ++ py_repr (snd kv)) f)
      ++ lit "}"
  end.

(** [str(j)] *)
Definition py_str (j : json) : str :=
  match j with
  | JStr s => s
  | _ => py_repr j
  end.

(** [str(j or "")] *)
Definition str_or_empty (j : json) : str :=
  if truthy j then py_str j else [].

Definition is_list (j : json) : bool :=
  match j with JList _ => true | _ => false end.

Definition is_dict (j : json) : bool :=
  match j with JObj _ => true | _ => false end.

(** [j == "literal"] *)
Definition eq_str (j : json) (s : str) : bool :=
  match j with JStr t => str_eqb t s | _ => false end.

(** Value of a digit string in which single underscores may separate digits. *)
Fixpoint digits_value (acc : Z) (after_digit : bool) (s : str) : option Z :=
  match s with
  | [] => if after_digit then Some acc else None
  | c :: s' =>
      if is_digit c
      then digits_value (10 * acc + Z.of_nat (code c - 48)) true s'
      else if chr_eqb c "_"%char
           then (if after_digit then digits_value acc false s' else None)
           else None
  end.

(** [int(s)] of a string; [None] is [ValueError]. *)
Definition int_of_str (s : str) : option Z :=
  match strip s with
  | c :: s' =>
      if chr_eqb c "-"%char then option_map Z.opp (digits_value 0 false s')
      else if chr_eqb c "+"%char then digits_value 0 false s'
      else digits_value 0 false (c :: s')
  | [] => None
  end.

(** [int(j)]; [None] is [TypeError] or [ValueError]. *)
Definition py_int (j : json) : option Z :=
  match j with
  | JInt z => Some z
  | JBool b => Some (if b then 1 else 0)%Z
  | JStr s => int_of_str s
  | JNull | JList _ | JObj _ => None
  end.

(** What [for x in j] visits: the items of a list, the characters of a
    string, the keys of an object; [None] is the [TypeError] of a value
    that cannot be iterated. *)
Definition elements (j : json) : option (list json) :=
  match j with
  | JList items => Some items
  | JStr s => Some (map (fun c => JStr [c]) s)
  | JObj fields => Some (map (fun kv => JStr (fst kv)) fields)
  | JNull | JBool _ | JInt _ => None
  end.

End Json.

Import Json.

(* ================================================================== *)
(** * automation/cybersecurity_autopost.py *)
(* ================================================================== *)

Module Cyber.

Definition STOPWORDS : list str :=
  map lit
    [ "about"; "after"; "again"; "against"; "also"; "and"; "are"; "been";
      "before"; "being"; "between"; "could"; "during"; "from"; "have";
      "into"; "more"; "most"; "over"; "that"; "their"; "them"; "then";
      "there"; "these"; "they"; "this"; "through"; "under"; "using";
      "what"; "when"; "where"; "which"; "with"; "your" ]%string.

(** [normalize_ws] on a string: [re.sub(r"\s+", " ", text).strip()]. *)
Definition normalize_ws (text : str) : str :=
  strip (sub_runs_space is_space text).

(** [normalize_ws] on a value read from the payload:
    [re.sub(r"\s+", " ", str(text or "")).strip()]. *)
Definition normalize_ws_json (text : json) : str :=
  normalize_ws (str_or_empty text).

(** [normalize_title]:
    [re.sub(r"\s+", " ", re.sub(r"[^a-z0-9]+", " ", text.lower())).strip()] *)
Definition normalize_title (text : str) : str :=
  strip (sub_runs_space is_space
           (sub_runs_space (fun c => negb (is_alnum c)) (lower text))).

(** [title_tokens]: the set of tokens, as a duplicate-free list. *)
Definition title_tokens (text : str) : list str :=
  distinct
    (filter (fun token => (2 <? len token)%Z && negb (mem token STOPWORDS))
       (findall_alnum (lower text))).

Definition set_inter (left right : list str) : list str :=
  filter (fun x => mem x right) left.

Definition set_union (left right : list str) : list str :=
  distinct (left ++ right).

(** [jaccard_similarity].  The quotient of the two sizes is kept exact; the
    source rounds it to a double, which orders it against the double 0.72
    as the exact quotient is ordered against 72/100 for every pair of sets
    of fewer than 2^50 elements. *)
Definition jaccard_similarity (left right : list str) : Q :=
  if is_empty left || is_empty right then 0
  else
    let union := set_union left right in
    if is_empty union then 0
    else Z.of_nat (List.length (set_inter left right))
           # Pos.of_nat (List.length union).

Definition normalize_candidate_name (name : str) : str := normalize_title name.

(** [trim_to_max_chars] *)
Definition trim_to_max_chars (text : str) (max_chars : Z) : str :=
  let text := normalize_ws text in
  if (len text <=? max_chars)%Z then text
  else
    let clipped := rstrip (slice_to text max_chars) in
    let clipped :=
      if contains clipped (lit " ") then before_last " "%char clipped
      else clipped in
    rstrip_by (one_of (lit " ,;:-")) clipped.

Definition DEFAULT_SLUG : str := lit "nepal-election-candidate-profile".

(** [trim_slug] *)
Definition trim_slug (slug : str) (max_chars : Z) : str :=
  let normalized := join (lit "-") (findall_alnum (lower (normalize_ws slug))) in
  let trimmed :=
    strip_by (one_of (lit "-")) (trim_to_max_chars normalized max_chars) in
  if negb (is_empty trimmed) then trimmed else DEFAULT_SLUG.

Definition pad : str :=
  lit " Stay updated with key risks, practical defenses, and actionable mitigation guidance.".

(** The [while len(text) < min_chars] loop of [expand_to_min_chars]; every
    iteration spends one unit of fuel. *)
Fixpoint pad_loop (fuel : nat) (text : str) (min_chars : Z) : option str :=
  if (len text <? min_chars)%Z then
    match fuel with
    | O => None
    | S fuel' =>
        let remaining := (min_chars - len text)%Z in
        let chunk := slice_to pad remaining in
        pad_loop fuel' (strip (text ++ chunk)) min_chars
    end
  else Some text.

(** [expand_to_min_chars] *)
Definition expand_to_min_chars
    (fuel : nat) (text : str) (min_chars max_chars : Z) (fallback : str)
  : option str :=
  let text := normalize_ws text in
  let fallback := normalize_ws fallback in
  if (min_chars <=? len text)%Z then Some (trim_to_max_chars text max_chars)
  else
    let text :=
      if negb (is_empty fallback) && negb (contains (lower text) (lower fallback))
      then
        let sep := if negb (is_empty text) then lit " " else [] in
        strip (text ++ sep ++ fallback)
      else text in
    match pad_loop fuel text min_chars with
    | Some text => Some (trim_to_max_chars text max_chars)
    | None => None
    end.

(** [a or b] on strings. *)
Definition or_str (a b : str) : str := if negb (is_empty a) then a else b.

(** ["-".join(re.findall(r"[a-z0-9]+", s.lower()))] *)
Definition slug_form (s : str) : str :=
  join (lit "-") (findall_alnum (lower s)).

(** [normalize_seo_fields].  The source updates [payload] and the [seo]
    object it holds in place; [payload["seo"]] is bound to that object before
    its fields are written, so the payload returned holds the final [seo]
    at the place the first assignment gave it. *)
Definition normalize_seo_fields (fuel : nat) (payload : dict) : option dict :=
  if negb (eq_str (get_or payload (lit "status") JNull) (lit "publish"))
  then Some payload
  else
    let seo :=
      match dict_get payload (lit "seo") with
      | Some (JObj seo) => seo
      | _ => []
      end in
    let title := normalize_ws_json (get_or payload (lit "title") (JStr [])) in
    let excerpt := normalize_ws_json (get_or payload (lit "excerpt") (JStr [])) in

    let focus_keyphrase :=
      normalize_ws_json (get_or seo (lit "focus_keyphrase") (JStr [])) in
    let focus_keyphrase :=
      if is_empty focus_keyphrase then
        let words :=
          filter (fun w => (2 <? len w)%Z) (findall_alnum (lower title)) in
        or_str (join (lit " ") (firstn 4 words))
               (lit "nepal election candidate profile")
      else focus_keyphrase in
    let seo1 := dict_set seo (lit "focus_keyphrase") (JStr focus_keyphrase) in

    let meta_title :=
      or_str (normalize_ws_json (get_or seo1 (lit "meta_title") (JStr []))) title in
    let meta_title :=
      if negb (contains (lower meta_title) (lower focus_keyphrase))
      then strip (PyStr.title focus_keyphrase ++ lit ": " ++ meta_title)
      else meta_title in
    match expand_to_min_chars fuel meta_title 45 65 title with
    | None => None
    | Some meta_title =>
    let seo2 := dict_set seo1 (lit "meta_title") (JStr meta_title) in

    let meta_description :=
      or_str (normalize_ws_json (get_or seo2 (lit "meta_description") (JStr [])))
             excerpt in
    let meta_description :=
      if negb (contains (lower meta_description) (lower focus_keyphrase))
      then strip_by (one_of (lit ": "))
             (focus_keyphrase ++ lit ": " ++ meta_description)
      else meta_description in
    match expand_to_min_chars fuel meta_description 130 170 (or_str excerpt title) with
    | None => None
    | Some meta_description =>
    let seo3 := dict_set seo2 (lit "meta_description") (JStr meta_description) in

    let seo_slug_hint :=
      normalize_ws_json (get_or seo3 (lit "seo_slug_hint") (JStr [])) in
    let seo_slug_hint :=
      if is_empty seo_slug_hint then slug_form focus_keyphrase
      else seo_slug_hint in
    let seo4 :=
      dict_set seo3 (lit "seo_slug_hint") (JStr (trim_slug seo_slug_hint 120)) in

    let slug := trim_slug (str_or_empty (get_or payload (lit "slug") (JStr []))) 120 in
    let focus_slug := slug_form focus_keyphrase in
    let final_slug :=
      if negb (is_empty focus_slug) && negb (contains slug focus_slug)
      then
        let combined_slug :=
          join (lit "-")
            (filter (fun part => negb (is_empty part)) [focus_slug; slug]) in
        trim_slug combined_slug 120
      else slug in
    (* Keep schema hint aligned with the final canonical slug. *)
    let seo5 := dict_set seo4 (lit "seo_slug_hint") (JStr final_slug) in
    Some (dict_set (dict_set payload (lit "seo") (JObj seo5))
            (lit "slug") (JStr final_slug))
    end
    end.

(** The messages [validate_payload] appends to [errors], in the order of
    their first occurrence in the source. *)
Inductive violation : Type :=
| StatusInvalid                 (* status must be 'publish' or 'skip'. *)
| SkipWithoutReason             (* skip payload must include a reason. *)
| MissingTitle                  (* Missing title. *)
| TitleTooShort                 (* Title is too short. *)
| TitleDuplicate                (* Generated title appears to duplicate an existing topic. *)
| SlugNotKebab                  (* Slug must be kebab-case. *)
| ExcerptTooShort               (* Excerpt is too short. *)
| TooFewTopicKeywords           (* Need at least 3 topic_keywords. *)
| ContentTooShort               (* content_html is too short for the required depth. *)
| ContentWithoutFaq             (* content_html must include an FAQ section for SEO. *)
| TooFewFaqQuestions            (* FAQ section should include at least 3 questions in H3 tags. *)
| SourcesNotList                (* sources must be a list. *)
| TooFewSources (min_sources found : Z)
                                (* Need at least {min_sources} sources; found {len(sources)}. *)
| TooFewDomains (min_sources found : Z)
                                (* Need at least {min_sources} unique source domains; found {...}. *)
| ProfileNotObject              (* candidate_profile must be an object. *)
| CandidateNameTooShort         (* candidate_profile.candidate_name is too short. *)
| ElectionNameTooShort          (* candidate_profile.election_name is too short. *)
| ElectionNameWithoutNepal      (* candidate_profile.election_name should reference Nepal. *)
| ElectionDateWrong             (* candidate_profile.election_date must be 2026-03-05. *)
| PartyTooShort                 (* candidate_profile.party is too short. *)
| ConstituencyTooShort          (* candidate_profile.constituency is too short. *)
| CurrentPositionTooShort       (* candidate_profile.current_position is too short. *)
| ShortBioTooShort              (* candidate_profile.short_bio is too short. *)
| ProfileSourceUrlInvalid       (* candidate_profile.profile_source_url must be a valid URL. *)
| ProfileSourceUrlNotInSources  (* candidate_profile.profile_source_url must be included in sources. *)
| ProfileImageUrlInvalid        (* candidate_profile.profile_image_url must be a valid URL when provided. *)
| ProfileImageSourceUrlInvalid  (* candidate_profile.profile_image_source_url must be a valid URL when provided. *)
| CandidateAlreadyProfiled      (* Candidate has already been profiled in earlier posts. *)
| TitleWithoutCandidate         (* Title should include candidate name. *)
| ExcerptWithoutCandidate       (* Excerpt should include candidate name. *)
| ContentWithoutCandidate       (* content_html should include candidate context clearly. *)
| SeoNotObject                  (* seo must be an object. *)
| FocusKeyphraseTooShort        (* seo.focus_keyphrase is too short. *)
| MetaTitleOutOfWindow          (* seo.meta_title should be between 45 and 65 characters. *)
| MetaDescriptionOutOfWindow    (* seo.meta_description should be between 130 and 170 characters. *)
| TitleWithoutKeyphrase         (* Title should include seo.focus_keyphrase. *)
| ExcerptWithoutKeyphrase       (* Excerpt should include seo.focus_keyphrase. *)
| ContentWithoutKeyphrase       (* content_html should include seo.focus_keyphrase. *)
| MetaTitleWithoutKeyphrase     (* seo.meta_title should include seo.focus_keyphrase. *)
| MetaDescriptionWithoutKeyphrase
                                (* seo.meta_description should include seo.focus_keyphrase. *)
| SlugWithoutKeyphrase          (* Slug should include the focus keyphrase in kebab-case. *)
| SlugHintMisaligned            (* seo.seo_slug_hint should align with the final slug. *)
| KeyFactsEmpty                 (* key_facts must be a non-empty list. *)
| KeyFactNotObject (index : Z)  (* key_facts[{index}] is not an object. *)
| KeyFactConfidenceNotNumeric (index : Z)
                                (* key_facts[{index}] confidence is not numeric. *)
| KeyFactTooFewUrls (index : Z) (* key_facts[{index}] must have at least 2 supporting_source_urls. *)
| KeyFactLowConfidence (index confidence min_confidence : Z).
                                (* key_facts[{index}] confidence {confidence} is below minimum {min_confidence}. *)

(** [if cond: errors.append(v)] *)
Definition when (cond : bool) (v : violation) : list violation :=
  if cond then [v] else [].

(** [near_duplicate_title] *)
Definition near_duplicate_title (new_title : str) (existing_titles : list str)
  : bool :=
  let normalized_new := normalize_title new_title in
  let new_tokens := title_tokens new_title in
  existsb
    (fun existing =>
       str_eqb normalized_new (normalize_title existing)
       || Qle_bool (72 # 100)
            (jaccard_similarity new_tokens (title_tokens existing)))
    existing_titles.

(** A match of [<h3[^>]*>.*?\?</h3>] (flags [IGNORECASE | DOTALL]) that
    starts at the head of [s]: what follows the match.  The tag runs to the
    first [>], the lazy body to the first [?</h3>] after it. *)
Fixpoint startswith_ci (s p : str) : bool :=
  match p, s with
  | [], _ => true
  | x :: p', y :: s' => chr_eqb x (lower_char y) && startswith_ci s' p'
  | _ :: _, [] => false
  end.

Fixpoint after_char (c : ascii) (s : str) : option str :=
  match s with
  | [] => None
  | x :: s' => if chr_eqb x c then Some s' else after_char c s'
  end.

Fixpoint after_ci (needle : str) (s : str) : option str :=
  if startswith_ci s needle then Some (skipn (List.length needle) s)
  else match s with
       | [] => None
       | _ :: s' => after_ci needle s'
       end.

Definition match_h3_question (s : str) : option str :=
  if startswith_ci s (lit "<h3") then
    match after_char ">"%char (skipn 3 s) with
    | Some body => after_ci (lit "?</h3>") body
    | None => None
    end
  else None.

(** [len(re.findall(...))]: matches are taken left to right and do not
    overlap; the length of the text is fuel enough. *)
Fixpoint count_h3_from (fuel : nat) (s : str) : Z :=
  match fuel with
  | O => 0
  | S fuel' =>
      match s with
      | [] => 0
      | _ :: s' =>
          match match_h3_question s with
          | Some rest => 1 + count_h3_from fuel' rest
          | None => count_h3_from fuel' s'
          end
      end
  end%Z.

Definition count_h3_questions (s : str) : Z :=
  count_h3_from (List.length s) s.

Section Validation.

(** [urlparse(url).netloc] of the standard library; [None] where it raises
    [ValueError]. *)
Variable netloc : str -> option str.

(** [domain_from_url], on the string [str(url or "")]. *)
Definition domain_from_url (url : str) : option str :=
  match netloc (strip url) with
  | None => None
  | Some host =>
      let host := strip (lower host) in
      Some (if startswith host (lit "www.") then skipn 4 host else host)
  end.

Definition field_str (d : dict) (key : string) : str :=
  py_str (get_or d (lit key) (JStr [])).

(** [normalize_ws(d.get(key, ""))] *)
Definition field_ws (d : dict) (key : string) : str :=
  normalize_ws_json (get_or d (lit key) (JStr [])).

(** The set comprehension of [source_urls], as a list. *)
Definition source_urls_of (sources : list json) : list str :=
  flat_map
    (fun source =>
       match source with
       | JObj source =>
           let url := strip (field_str source "url") in
           if startswith url (lit "http") then [url] else []
       | _ => []
       end)
    sources.

(** The set comprehension of [unique_domains], before empty domains are
    dropped; [domain_from_url] is called only for a source whose [domain]
    is empty. *)
Fixpoint source_domains (sources : list json) : option (list str) :=
  match sources with
  | [] => Some []
  | source :: rest =>
      let here :=
        match source with
        | JObj source =>
            let domain := lower (strip (field_str source "domain")) in
            if negb (is_empty domain) then Some [domain]
            else option_map (fun d => [d])
                   (domain_from_url (field_str source "url"))
        | _ => Some []
        end in
      match here, source_domains rest with
      | Some d, Some ds => Some (d ++ ds)
      | _, _ => None
      end
  end.

Definition unique_domains_of (sources : list json) : option (list str) :=
  option_map
    (fun ds => distinct (filter (fun d => negb (is_empty d)) ds))
    (source_domains sources).

(** The body of the loop over [key_facts]; [index] counts from 1. *)
Definition check_fact (min_confidence index : Z) (fact : json)
  : list violation :=
  match fact with
  | JObj fact =>
      let urls := get_or fact (lit "supporting_source_urls") (JList []) in
      match py_int (get_or fact (lit "confidence") (JInt (-1))) with
      | None => [KeyFactConfidenceNotNumeric index]
      | Some confidence =>
          when (match urls with
                | JList urls => (len_list urls <? 2)%Z
                | _ => true
                end)
               (KeyFactTooFewUrls index)
          ++ when (confidence <? min_confidence)%Z
               (KeyFactLowConfidence index confidence min_confidence)
      end
  | _ => [KeyFactNotObject index]
  end.

Fixpoint check_facts (min_confidence index : Z) (facts : list json)
  : list violation :=
  match facts with
  | [] => []
  | fact :: rest =>
      check_fact min_confidence index fact
      ++ check_facts min_confidence (index + 1) rest
  end.

(** [validate_payload].  [errors] grows by appending, rule after rule, as
    in the source; [None] is an exception that escapes ([TypeError] for an
    unhashable [status], [ValueError] from [urlparse]). *)
Definition validate_payload
    (payload : dict) (existing_titles existing_candidates : list str)
    (min_sources min_confidence : Z) : option (list violation) :=
  let errors : list violation := [] in
  let status := get_or payload (lit "status") JNull in
  match status with
  | JList _ | JObj _ => None
  | _ =>
  if negb (eq_str status (lit "publish") || eq_str status (lit "skip")) then
    Some (errors ++ [StatusInvalid])
  else if eq_str status (lit "skip") then
    let reason := strip (field_str payload "reason") in
    Some (errors ++ when (is_empty reason) SkipWithoutReason)
  else
  let title := strip (field_str payload "title") in
  let errors :=
    errors ++
    (if is_empty title then [MissingTitle]
     else if (len title <? 24)%Z then [TitleTooShort]
     else if near_duplicate_title title existing_titles then [TitleDuplicate]
     else []) in

  let slug := strip (field_str payload "slug") in
  let errors := errors ++ when (negb (fullmatch_kebab slug)) SlugNotKebab in

  let excerpt := strip (field_str payload "excerpt") in
  let errors := errors ++ when (len excerpt <? 110)%Z ExcerptTooShort in

  let topic_keywords := get_or payload (lit "topic_keywords") (JList []) in
  let errors :=
    errors ++
    when (match topic_keywords with
          | JList keywords => (len_list keywords <? 3)%Z
          | _ => true
          end) TooFewTopicKeywords in

  let content_html := strip (field_str payload "content_html") in
  let errors := errors ++ when (len content_html <? 1800)%Z ContentTooShort in
  let content_html_lower := lower content_html in
  let errors :=
    errors ++ when (negb (contains content_html_lower (lit "faq")))
                ContentWithoutFaq in
  let faq_question_count := count_h3_questions content_html in
  let errors :=
    errors ++ when (faq_question_count <? 3)%Z TooFewFaqQuestions in

  match get_or payload (lit "sources") (JList []) with
  | JList sources =>
  let errors :=
    errors ++ when (len_list sources <? min_sources)%Z
                (TooFewSources min_sources (len_list sources)) in
  let source_urls := source_urls_of sources in
  match unique_domains_of sources with
  | None => None
  | Some unique_domains =>
  let errors :=
    errors ++ when (len_list unique_domains <? min_sources)%Z
                (TooFewDomains min_sources (len_list unique_domains)) in

  let candidate_profile := get_or payload (lit "candidate_profile") (JObj []) in
  let errors :=
    errors ++ when (negb (is_dict candidate_profile)) ProfileNotObject in
  let candidate_profile :=
    match candidate_profile with JObj profile => profile | _ => [] end in

  let candidate_name := field_ws candidate_profile "candidate_name" in
  let election_name := field_ws candidate_profile "election_name" in
  let election_date := field_ws candidate_profile "election_date" in
  let party := field_ws candidate_profile "party" in
  let constituency := field_ws candidate_profile "constituency" in
  let current_position := field_ws candidate_profile "current_position" in
  let short_bio := field_ws candidate_profile "short_bio" in
  let profile_source_url := field_ws candidate_profile "profile_source_url" in
  let profile_image_url := field_ws candidate_profile "profile_image_url" in
  let profile_image_source_url := field_ws candidate_profile "profile_image_source_url" in

  let errors := errors ++ when (len candidate_name <? 4)%Z CandidateNameTooShort in
  let errors := errors ++ when (len election_name <? 8)%Z ElectionNameTooShort in
  let errors :=
    errors ++ when (negb (contains (lower election_name) (lit "nepal")))
                ElectionNameWithoutNepal in
  let errors :=
    errors ++ when (negb (str_eqb election_date (lit "2026-03-05")))
                ElectionDateWrong in
  let errors := errors ++ when (len party <? 2)%Z PartyTooShort in
  let errors := errors ++ when (len constituency <? 2)%Z ConstituencyTooShort in
  let errors :=
    errors ++ when (len current_position <? 2)%Z CurrentPositionTooShort in
  let errors := errors ++ when (len short_bio <? 60)%Z ShortBioTooShort in
  let errors :=
    errors ++ when (negb (startswith profile_source_url (lit "http")))
                ProfileSourceUrlInvalid in

  let in_sources : option bool :=
    if negb (is_empty profile_source_url) then
      let normalized_source_urls :=
        map (rstrip_by (one_of (lit "/"))) source_urls in
      if negb (mem (rstrip_by (one_of (lit "/")) profile_source_url)
                 normalized_source_urls)
      then option_map (fun domain => mem domain unique_domains)
             (domain_from_url profile_source_url)
      else Some true
    else Some true in
  match in_sources with
  | None => None
  | Some in_sources =>
  let errors := errors ++ when (negb in_sources) ProfileSourceUrlNotInSources in

  let errors :=
    errors ++
    when (negb (is_empty profile_image_url)
          && negb (startswith profile_image_url (lit "http")))
      ProfileImageUrlInvalid in
  let errors :=
    errors ++
    when (negb (is_empty profile_image_source_url)
          && negb (startswith profile_image_source_url (lit "http")))
      ProfileImageSourceUrlInvalid in

  let existing_candidate_set := map normalize_candidate_name existing_candidates in
  let errors :=
    errors ++
    when (negb (is_empty candidate_name)
          && mem (normalize_candidate_name candidate_name) existing_candidate_set)
      CandidateAlreadyProfiled in

  let candidate_tokens :=
    filter (fun token => (3 <=? len token)%Z) (title_tokens candidate_name) in
  let tokens_in (text : str) :=
    len_list (filter (fun token => contains text token) candidate_tokens) in
  let errors :=
    errors ++
    (if negb (is_empty candidate_tokens) then
       when (tokens_in (lower title) <? 1)%Z TitleWithoutCandidate
       ++ when (tokens_in (lower excerpt) <? 1)%Z ExcerptWithoutCandidate
       ++ when (tokens_in content_html_lower <? 2)%Z ContentWithoutCandidate
     else []) in

  let seo := get_or payload (lit "seo") (JObj []) in
  let errors := errors ++ when (negb (is_dict seo)) SeoNotObject in
  let seo := match seo with JObj seo => seo | _ => [] end in
  let focus_keyphrase := lower (strip (field_str seo "focus_keyphrase")) in
  let meta_title := strip (field_str seo "meta_title") in
  let meta_description := strip (field_str seo "meta_description") in
  let seo_slug_hint := lower (strip (field_str seo "seo_slug_hint")) in

  let errors :=
    errors ++ when (len focus_keyphrase <? 8)%Z FocusKeyphraseTooShort in
  let errors :=
    errors ++
    when (negb ((45 <=? len meta_title)%Z && (len meta_title <=? 65)%Z))
      MetaTitleOutOfWindow in
  let errors :=
    errors ++
    when (negb ((130 <=? len meta_description)%Z
                && (len meta_description <=? 170)%Z))
      MetaDescriptionOutOfWindow in

  let focus_slug := join (lit "-") (findall_alnum focus_keyphrase) in
  let errors :=
    errors ++
    (if negb (is_empty focus_keyphrase) then
       when (negb (contains (lower title) focus_keyphrase)) TitleWithoutKeyphrase
       ++ when (negb (contains (lower excerpt) focus_keyphrase))
            ExcerptWithoutKeyphrase
       ++ when (negb (contains content_html_lower focus_keyphrase))
            ContentWithoutKeyphrase
       ++ when (negb (contains (lower meta_title) focus_keyphrase))
            MetaTitleWithoutKeyphrase
       ++ when (negb (contains (lower meta_description) focus_keyphrase))
            MetaDescriptionWithoutKeyphrase
       ++ when (negb (is_empty focus_slug) && negb (contains slug focus_slug))
            SlugWithoutKeyphrase
     else []) in

  let normalized_hint := join (lit "-") (findall_alnum seo_slug_hint) in
  let errors :=
    errors ++
    when (negb (is_empty normalized_hint) && negb (str_eqb normalized_hint slug))
      SlugHintMisaligned in

  let errors :=
    errors ++
    match get_or payload (lit "key_facts") (JList []) with
    | JList (fact :: facts) => check_facts min_confidence 1 (fact :: facts)
    | _ => [KeyFactsEmpty]
    end in
  Some errors
  end
  end
  | _ => Some (errors ++ [SourcesNotList])
  end
  end.

(** ** The run: lock, collaborators, exit code *)

(** What a run can see of the file system and of the clock.  The lock
    marker is its modification time when the file exists; times are whole
    seconds (the source computes with [float] timestamps). *)
Record world : Type := mkWorld {
  schema_exists : bool;             (* SCHEMA_PATH.exists() *)
  php_list_titles_exists : bool;    (* PHP_LIST_TITLES.exists() *)
  php_list_candidates_exists : bool;(* PHP_LIST_CANDIDATES.exists() *)
  php_insert_post_exists : bool;    (* PHP_INSERT_POST.exists() *)
  lock_mtime : option Z;            (* LOCK_PATH, when it exists *)
  now : Z                           (* dt.datetime.now().timestamp() *)
}.

Definition set_lock (w : world) (l : option Z) : world :=
  mkWorld (schema_exists w) (php_list_titles_exists w)
    (php_list_candidates_exists w) (php_insert_post_exists w) l (now w).

(** The command-line options [main] reads. *)
Record arguments : Type := mkArgs {
  arg_min_sources : Z;
  arg_min_confidence : Z;
  arg_dry_run : bool;
  arg_stale_lock_minutes : Z
}.

(** What the collaborators answer during one run; [None] where the call
    raises (non-zero exit, time-out, unexpected data). *)
Record collaborators : Type := mkCollab {
  titles_answer : option (list str);      (* get_existing_titles() *)
  candidates_answer : option (list str);  (* get_existing_candidates() *)
  codex_answer : option dict;             (* run_codex(...) *)
  debug_file_saved : bool;                (* save_debug_payload(payload) *)
  insert_answer : bool                    (* insert_post(...) *)
}.

Inductive log_line : Type :=
| LogSchemaNotFound | LogHelpersMissing | LogJobStarted
| LogLoadedTitles (n : Z) | LogLoadedCandidates (n : Z)
| LogStartingCodex | LogCodexCompleted | LogSavedPayload
| LogValidationFailed | LogViolation (v : violation)
| LogModelSkip | LogDryRun | LogInsertResult
| LogSkippingRun | LogJobFailed | LogJobFinished.

(** The effects of a run, in the order they happen. *)
Inductive event : Type :=
| Log (line : log_line)
| LockUnlink              (* LOCK_PATH.unlink(missing_ok=True) *)
| LockCreate              (* os.open(LOCK_PATH, O_CREAT | O_EXCL | O_WRONLY) *)
| ReadTitles              (* php wp_get_post_titles.php *)
| ReadCandidates          (* php wp_get_profile_candidates.php *)
| RunCodex
| SaveDebugPayload
| InsertPost.

Inductive lock_outcome : Type :=
| Acquired
| LockHeld                (* LockHeldError *)
| CreateFailed.           (* FileExistsError from os.open *)

(** [os.open(LOCK_PATH, O_CREAT | O_EXCL | O_WRONLY)] and the write. *)
Definition create_lock (w : world) : lock_outcome * world * list event :=
  match lock_mtime w with
  | Some _ => (CreateFailed, w, [LockCreate])
  | None => (Acquired, set_lock w (Some (now w)), [LockCreate])
  end.

(** [acquire_lock] *)
Definition acquire_lock (stale_after_minutes : Z) (w : world)
  : lock_outcome * world * list event :=
  match lock_mtime w with
  | Some mtime =>
      let age_seconds := (now w - mtime)%Z in
      if (age_seconds >? stale_after_minutes * 60)%Z then
        let '(outcome, w', events) := create_lock (set_lock w None) in
        (outcome, w', LockUnlink :: events)
      else (LockHeld, w, [])
  | None => create_lock w
  end.

(** [release_lock] *)
Definition release_lock (w : world) : world := set_lock w None.

(** How the body of the [try] block ends.  [Unfinished] is a body that has
    not come to its end: the padding loop of [normalize_seo_fields] is still
    running when the fuel is spent. *)
Inductive flow : Type :=
| Return (exit_code : Z)
| Raise
| Unfinished.

Definition emit (events : list event) (rest : flow * list event)
  : flow * list event :=
  (fst rest, events ++ snd rest).

(** The [try] block of [main] after [acquire_lock]: how it ends and the
    effects it had until then. *)
Definition pipeline (fuel : nat) (args : arguments) (env : collaborators)
  : flow * list event :=
  emit [Log LogJobStarted; ReadTitles]
  match titles_answer env with
  | None => (Raise, [])
  | Some existing_titles =>
  emit [Log (LogLoadedTitles (len_list existing_titles)); ReadCandidates]
  match candidates_answer env with
  | None => (Raise, [])
  | Some existing_candidates =>
  emit [Log (LogLoadedCandidates (len_list existing_candidates));
        Log LogStartingCodex; RunCodex]
  match codex_answer env with
  | None => (Raise, [])
  | Some payload =>
  emit [Log LogCodexCompleted]
  match normalize_seo_fields fuel payload with
  | None => (Unfinished, [])
  | Some payload =>
  emit [SaveDebugPayload]
  (if negb (debug_file_saved env) then (Raise, [])
   else
   emit [Log LogSavedPayload]
   match validate_payload payload existing_titles existing_candidates
           (arg_min_sources args) (arg_min_confidence args) with
   | None => (Raise, [])
   | Some errors =>
       if negb (is_empty errors) then
         (Return 2,
          Log LogValidationFailed
            :: map (fun err => Log (LogViolation err)) errors)
       else if eq_str (get_or payload (lit "status") JNull) (lit "skip") then
         (Return 0, [Log LogModelSkip])
       else if arg_dry_run args then
         (Return 0, [Log LogDryRun])
       else
         emit [InsertPost]
           (if insert_answer env
            then (Return 0, [Log LogInsertResult])
            else (Raise, []))
   end)
  end
  end
  end
  end.

(** How a run ends: with an exit code, or not at all within the fuel. *)
Inductive ending : Type :=
| Exit (code : Z)
| StillRunning.

(** [main]: how the run ends, the world it leaves and its effects in their
    order; logging itself is taken to succeed.  A run whose body is
    unfinished has had the effects of the lock and of the body so far, and
    has not reached the [finally] clause: the lock is still held. *)
Definition main (fuel : nat) (args : arguments) (env : collaborators)
    (w : world) : ending * world * list event :=
  if negb (schema_exists w) then (Exit 1, w, [Log LogSchemaNotFound])
  else if negb (php_list_titles_exists w)
          || negb (php_list_candidates_exists w)
          || negb (php_insert_post_exists w)
  then (Exit 1, w, [Log LogHelpersMissing])
  else
    let '(outcome, w1, lock_events) :=
      acquire_lock (arg_stale_lock_minutes args) w in
    match outcome with
    | LockHeld =>
        (Exit 0, w1, lock_events ++ [Log LogSkippingRun; Log LogJobFinished])
    | CreateFailed =>
        (Exit 1, w1, lock_events ++ [Log LogJobFailed; Log LogJobFinished])
    | Acquired =>
        match pipeline fuel args env with
        | (Return exit_code, events) =>
            (Exit exit_code, release_lock w1,
             lock_events ++ events ++ [LockUnlink; Log LogJobFinished])
        | (Raise, events) =>
            (Exit 1, release_lock w1,
             lock_events ++ events
             ++ [Log LogJobFailed; LockUnlink; Log LogJobFinished])
        | (Unfinished, events) =>
            (StillRunning, w1, lock_events ++ events)
        end
    end.

(** ** Reading the corpus *)

(** [get_existing_titles], on what [json.loads(stdout)] gave; [None] where
    the command or the parser raises and where the value is not a list. *)
Definition get_existing_titles (answer : option json) : option (list str) :=
  match answer with
  | Some (JList payload) =>
      Some (filter (fun item => negb (is_empty item))
              (map (fun item => strip (py_str item)) payload))
  | _ => None
  end.

(** [get_existing_candidates]: the same reading of the other helper. *)
Definition get_existing_candidates (answer : option json) : option (list str) :=
  match answer with
  | Some (JList payload) =>
      Some (filter (fun item => negb (is_empty item))
              (map (fun item => strip (py_str item)) payload))
  | _ => None
  end.

(** ** Composing the post *)

(** The double quote and the line feed of the source's literals. *)
Definition dq : ascii := ascii_of_nat 34.
Definition nl : str := [ascii_of_nat 10].

(** [html.escape(s, quote=True)] of the standard library: [&] first, then
    the angle brackets and the two quotes; the replacements do not overlap,
    so they are made character by character. *)
Definition escape_char (c : ascii) : str :=
  if chr_eqb c "&"%char then lit "&amp;"
  else if chr_eqb c "<"%char then lit "&lt;"
  else if chr_eqb c ">"%char then lit "&gt;"
  else if chr_eqb c dq then lit "&quot;"
  else if chr_eqb c "'"%char then lit "&#x27;"
  else [c].

Definition html_escape (s : str) : str := flat_map escape_char s.

(** The attributes every link of the post carries after its [href]:
    [ rel="nofollow noopener" target="_blank">]. *)
Definition link_attributes : str :=
  lit " rel=" ++ [dq] ++ lit "nofollow noopener" ++ [dq]
  ++ lit " target=" ++ [dq] ++ lit "_blank" ++ [dq] ++ lit ">".

(** One item of the list of sources. *)
Definition source_item (url label : str) : str :=
  lit "<li><a href=" ++ [dq] ++ html_escape url ++ [dq] ++ link_attributes
  ++ html_escape label ++ lit "</a></li>".

(** The loop of [build_sources_section]: the items, in the order of the
    sources; [None] where [source.get] or [urlparse] raises. *)
Fixpoint source_items (sources : list json) : option (list str) :=
  match sources with
  | [] => Some []
  | JObj source :: rest =>
      let url := strip (field_str source "url") in
      if negb (startswith url (lit "http")) then source_items rest
      else
        let given := strip (field_str source "domain") in
        match (if negb (is_empty given) then Some given
               else domain_from_url url) with
        | None => None
        | Some domain =>
            let publisher :=
              or_str (strip (field_str source "publisher")) domain in
            let label := strip (publisher ++ lit " (" ++ domain ++ lit ")") in
            match source_items rest with
            | Some items => Some (source_item url label :: items)
            | None => None
            end
        end
  | _ :: _ => None
  end.

(** [build_sources_section], on the value [payload.get("sources", [])]. *)
Definition build_sources_section (sources : json) : option str :=
  match elements sources with
  | None => None
  | Some sources =>
      match source_items sources with
      | None => None
      | Some items =>
          if is_empty items then Some []
          else Some (lit "<h2>Sources</h2>" ++ nl ++ lit "<ol>" ++ nl
                     ++ join nl items ++ nl ++ lit "</ol>")
      end
  end.

(** [build_candidate_media_section] *)
Definition build_candidate_media_section (candidate_profile : dict) : str :=
  let image_url := field_ws candidate_profile "profile_image_url" in
  let image_source_url := field_ws candidate_profile "profile_image_source_url" in
  let image_credit := field_ws candidate_profile "profile_image_credit" in
  let candidate_name := field_ws candidate_profile "candidate_name" in
  if negb (startswith image_url (lit "http")) then []
  else
    let caption_parts :=
      filter (fun part => negb (is_empty part)) [candidate_name; image_credit] in
    let caption_text :=
      if negb (is_empty caption_parts) then join (lit " - ") caption_parts
      else lit "Candidate photo" in
    let caption_text :=
      if startswith image_source_url (lit "http")
      then caption_text ++ lit " (source: <a href=" ++ [dq]
           ++ html_escape image_source_url ++ [dq] ++ link_attributes
           ++ lit "link</a>)"
      else caption_text in
    lit "<figure>" ++ nl
    ++ lit "  <img src=" ++ [dq] ++ html_escape image_url ++ [dq]
    ++ lit " alt=" ++ [dq]
    ++ html_escape (or_str candidate_name (lit "Candidate")) ++ [dq]
    ++ lit " loading=" ++ [dq] ++ lit "lazy" ++ [dq] ++ lit ">" ++ nl
    ++ lit "  <figcaption>" ++ caption_text ++ lit "</figcaption>" ++ nl
    ++ lit "</figure>".

(** The body of [insert_post]: the media section goes before a content
    without [<figure], the list of sources after a content without its
    heading. *)
Definition compose_content (content_html media_section sources_section : str)
  : str :=
  let content_html :=
    if negb (is_empty media_section)
       && negb (contains content_html (lit "<figure"))
    then media_section ++ nl ++ nl ++ content_html
    else content_html in
  if negb (is_empty sources_section)
     && negb (contains content_html (lit "<h2>Sources</h2>"))
  then content_html ++ nl ++ nl ++ sources_section
  else content_html.

(** [insert_post], up to the call of the PHP helper: the [post_payload] it
    sends; [None] where an exception escapes before ([KeyError] for a
    missing field, the exceptions of [build_sources_section]). *)
Definition insert_post (payload : dict) (post_status : str) : option dict :=
  match dict_get payload (lit "content_html") with
  | None => None
  | Some content_html =>
      let content_html := strip (py_str content_html) in
      let candidate_profile :=
        match get_or payload (lit "candidate_profile") (JObj []) with
        | JObj profile => profile
        | _ => []
        end in
      let media_section := build_candidate_media_section candidate_profile in
      match build_sources_section (get_or payload (lit "sources") (JList [])) with
      | None => None
      | Some sources_section =>
          let content_html :=
            compose_content content_html media_section sources_section in
          match dict_get payload (lit "title"),
                dict_get payload (lit "slug"),
                dict_get payload (lit "excerpt") with
          | Some title, Some slug, Some excerpt =>
              Some [(lit "title", JStr (strip (py_str title)));
                    (lit "slug", JStr (strip (py_str slug)));
                    (lit "excerpt", JStr (strip (py_str excerpt)));
                    (lit "content_html", JStr content_html);
                    (lit "post_status", JStr post_status);
                    (lit "topic_keywords",
                     get_or payload (lit "topic_keywords") (JList []));
                    (lit "candidate_profile", JObj candidate_profile);
                    (lit "seo", get_or payload (lit "seo") (JObj []));
                    (lit "sources", get_or payload (lit "sources") (JList []));
                    (lit "category_name", JStr (lit "Nepal Election 2026"))]
          | _, _, _ => None
          end
      end
  end.

End Validation.

End Cyber.

(* ================================================================== *)
(** * automation/gemini_autopost.py *)
(* ================================================================== *)

Module Gemini.

(** ** The generation call and its retries *)

(** What one call of [client.models.generate_content] followed by
    [json.loads(response.text)] can do. *)
Inductive api_reply : Type :=
| Answer (payload : json)   (* a text that parses as JSON *)
| EmptyText                 (* [not response.text] *)
| BadJson                   (* [json.loads] raises *)
| ClientError (code : Z)    (* [errors.ClientError] with [e.code] *)
| OtherException.           (* any other exception of the call *)

Inductive api_failure : Type :=
| RateLimitExceeded         (* Gemini API rate limit exceeded after 3 attempts. *)
| ApiError                  (* Gemini API error: ... *)
| UnexpectedError.          (* Gemini unexpected error: ... *)

Inductive api_result : Type :=
| Returned (payload : json)
| Raised (failure : api_failure)
| ReturnedNone.             (* the [for] loop ran out without a [return] *)

(** Calls made so far and the waits handed to [time.sleep], oldest first. *)
Record retry_state : Type := mkRetry {
  calls : nat;
  sleeps : list Z
}.

(** The reading of a reply, for the statements below: a rate-limit signal,
    or what any other reply makes of the call. *)
Definition rate_limited (reply : api_reply) : bool :=
  match reply with
  | ClientError code => (code =? 429)%Z
  | _ => false
  end.

Definition settles (reply : api_reply) : api_result :=
  match reply with
  | Answer payload => Returned payload
  | EmptyText | BadJson | OtherException => Raised UnexpectedError
  | ClientError _ => Raised ApiError
  end.

Section Retry.

(** The service: what the call number [n] (from 0) of the run answers. *)
Variable service : nat -> api_reply.

(** The body of [for attempt in range(max_retries)], over the attempts that
    are left. *)
Fixpoint retry_loop (max_retries base_wait : Z) (attempts : list Z)
    (st : retry_state) : api_result * retry_state :=
  match attempts with
  | [] => (ReturnedNone, st)
  | attempt :: rest =>
      let reply := service (calls st) in
      let st := mkRetry (S (calls st)) (sleeps st) in
      match reply with
      | Answer payload => (Returned payload, st)
      | EmptyText | BadJson | OtherException => (Raised UnexpectedError, st)
      | ClientError code =>
          if (code =? 429)%Z then
            if (attempt <? max_retries - 1)%Z then
              let wait_time := (base_wait * (attempt + 1))%Z in
              retry_loop max_retries base_wait rest
                (mkRetry (calls st) (sleeps st ++ [wait_time]))
            else (Raised RateLimitExceeded, st)
          else (Raised ApiError, st)
      end
  end.

Definition max_retries : Z := 3.
Definition base_wait : Z := 30.

(** [range(n)] *)
Definition range (n : Z) : list Z := map Z.of_nat (seq 0 (Z.to_nat n)).

(** The retry logic of [run_gemini]. *)
Definition run_gemini : api_result * retry_state :=
  retry_loop max_retries base_wait (range max_retries) (mkRetry 0 []).

End Retry.

(** ** Slug and validation *)

(** [trim_slug]:
    ["-".join(re.findall(r"[a-z0-9]+", normalize_ws(slug).lower()))[:120].strip("-")] *)
Definition trim_slug (slug : str) : str :=
  strip_by (one_of (lit "-"))
    (slice_to
       (join (lit "-") (findall_alnum (lower (Cyber.normalize_ws slug))))
       120).

(** [normalize_seo_fields]; [None] when the [seo] value is not an object
    ([AttributeError]). *)
Definition normalize_seo_fields (payload : dict) : option dict :=
  if negb (eq_str (get_or payload (lit "status") JNull) (lit "publish"))
  then Some payload
  else
    let payload :=
      match dict_get payload (lit "seo") with
      | Some _ => payload
      | None => dict_set payload (lit "seo") (JObj [])
      end in
    match get_or payload (lit "seo") JNull with
    | JObj seo =>
        let focus_keyphrase :=
          Cyber.or_str
            (Cyber.normalize_ws_json (get_or seo (lit "focus_keyphrase") (JStr [])))
            (lit "nepal election candidate") in
        let seo := dict_set seo (lit "focus_keyphrase") (JStr focus_keyphrase) in
        let payload := dict_set payload (lit "seo") (JObj seo) in
        let slug := get_or payload (lit "slug") (JStr []) in
        let slug :=
          if truthy slug then str_or_empty slug else focus_keyphrase in
        Some (dict_set payload (lit "slug") (JStr (trim_slug slug)))
    | _ => None
    end.

Inductive violation : Type :=
| SkipReasonMissing              (* Skip reason missing *)
| CandidateExists                (* Candidate already exists *)
| NotEnoughSources (found : Z).  (* Not enough unique sources (found {len(srcs)}) *)

Section Validation.

Variable netloc : str -> option str.

(** [domain_from_url(url)] on a value read from a source. *)
Definition domain_from_url (url : json) : option str :=
  match netloc (strip (str_or_empty url)) with
  | None => None
  | Some host =>
      let host := strip (lower host) in
      Some (if startswith host (lit "www.") then skipn 4 host else host)
  end.

(** [any(cand_name in c.lower() for c in candidates)]; [None] when an entry
    met before the first hit is not a string. *)
Fixpoint any_contains (cand_name : str) (candidates : list json)
  : option bool :=
  match candidates with
  | [] => Some false
  | JStr c :: rest =>
      if contains (lower c) cand_name then Some true
      else any_contains cand_name rest
  | _ :: _ => None
  end.

(** [{domain_from_url(s.get("url")) for s in srcs}], as a list; [None] when
    an entry is not an object or [urlparse] raises. *)
Fixpoint source_domains (srcs : list json) : option (list str) :=
  match srcs with
  | [] => Some []
  | JObj s :: rest =>
      match domain_from_url (get_or s (lit "url") JNull),
            source_domains rest with
      | Some d, Some ds => Some (d :: ds)
      | _, _ => None
      end
  | _ :: _ => None
  end.

(** The entries [for s in srcs] visits: those of a list; none for an empty
    string or object, the elements of a non-empty one have no [get] and
    are given here as they are, to fail in [source_domains]; [None] where
    the value cannot be iterated or measured. *)
Definition iterate (srcs : json) : option (list json) :=
  match srcs with
  | JList items => Some items
  | JStr s => Some (map (fun c => JStr [c]) s)
  | JObj fields => Some (map (fun kv => JStr (fst kv)) fields)
  | JNull | JBool _ | JInt _ => None
  end.

(** [validate_payload]; [None] when an exception escapes. *)
Definition validate_payload (payload : dict) (titles candidates : list json)
    (min_sources : Z) : option (list violation) :=
  let errs : list violation := [] in
  if eq_str (get_or payload (lit "status") JNull) (lit "skip") then
    Some (errs ++ (if negb (truthy (get_or payload (lit "reason") JNull))
                   then [SkipReasonMissing] else []))
  else
    match get_or payload (lit "candidate_profile") (JObj []) with
    | JObj profile =>
        match get_or profile (lit "candidate_name") (JStr []) with
        | JStr name =>
            let cand_name := lower name in
            match any_contains cand_name candidates with
            | None => None
            | Some exists_already =>
                let errs :=
                  errs ++ (if exists_already then [CandidateExists] else []) in
                match iterate (get_or payload (lit "sources") (JList [])) with
                | Some srcs =>
                    match source_domains srcs with
                    | None => None
                    | Some domains =>
                        Some (errs ++
                              (if (len_list (distinct domains) <? min_sources)%Z
                               then [NotEnoughSources (len_list srcs)]
                               else []))
                    end
                | None => None
                end
            end
        | _ => None
        end
    | _ => None
    end.

(** ** The run *)

(** What the collaborators other than the generation service answer, and
    the options of the run. *)
Record run_env : Type := mkEnv {
  api_key_given : bool;                     (* args.api_key *)
  titles_answer : option (list json);       (* php wp_get_post_titles.php *)
  candidates_answer : option (list json);   (* php wp_get_profile_candidates.php *)
  min_sources : Z;                          (* args.min_sources *)
  dry_run : bool;                           (* args.dry_run *)
  debug_file_saved : bool;                  (* writing debug_payload.json *)
  insert_answer : bool                      (* insert_post(...) *)
}.

(** Steps 4 and 5 of [main], on what [run_gemini] returned: the exit
    code. *)
Definition after_generation (env : run_env) (titles cands : list json)
    (generated : json) : Z :=
  match generated with
  | JObj payload =>
      match normalize_seo_fields payload with
      | None => 1
      | Some payload =>
          match validate_payload payload titles cands (min_sources env) with
          | None => 1
          | Some errs =>
              if negb (is_empty errs) then 1
              else if eq_str (get_or payload (lit "status") JNull) (lit "skip")
              then 0
              else if dry_run env
              then (if debug_file_saved env then 0 else 1)
              else (if insert_answer env then 0 else 1)
          end
      end
  | _ => 1
  end%Z.

(** [main]: the exit code and the waits of the run.  Every exception of
    the [try] block ends the run with exit code 1. *)
Definition main (env : run_env) (service : nat -> api_reply) : Z * list Z :=
  if negb (api_key_given env) then (1%Z, [])
  else
    match titles_answer env, candidates_answer env with
    | Some titles, Some cands =>
        let '(result, st) := run_gemini service in
        match result with
        | Returned generated =>
            (after_generation env titles cands generated, sleeps st)
        | Raised _ => (1%Z, sleeps st)
        | ReturnedNone => (1%Z, sleeps st)
        end
    | _, _ => (1%Z, [])
    end.

(** ** The schema handed to the service *)

(** The keys [sanitize_schema] removes. *)
Definition unsupported_keys : list str :=
  map lit ["$schema"; "title"; "additionalProperties"; "definitions"]%string.

(** [sanitize_schema].  A Python [dict] holds a key once, so the fields are
    visited in their order: a field under one of the four keys is dropped,
    the value under [properties] has each of its own values sanitized, the
    value under [items] is sanitized, every other field is kept as it is.
    [None] is the [AttributeError] of a [properties] value that has no
    [items()]. *)
Fixpoint sanitize_schema (schema : json) : option json :=
  match schema with
  | JObj fields =>
      let fix clean (fields : list (str * json)) : option (list (str * json)) :=
        match fields with
        | [] => Some []
        | (key, value) :: rest =>
            if mem key unsupported_keys then clean rest
            else
              let value :=
                if str_eqb key (lit "properties") then
                  match value with
                  | JObj properties =>
                      let fix each (properties : list (str * json))
                        : option (list (str * json)) :=
                        match properties with
                        | [] => Some []
                        | (k, v) :: more =>
                            match sanitize_schema v, each more with
                            | Some v, Some more => Some ((k, v) :: more)
                            | _, _ => None
                            end
                        end in
                      option_map JObj (each properties)
                  | _ => None
                  end
                else if str_eqb key (lit "items") then sanitize_schema value
                else Some value in
              match value, clean rest with
              | Some value, Some rest => Some ((key, value) :: rest)
              | _, _ => None
              end
        end in
      option_map JObj (clean fields)
  | _ => Some schema
  end.

(** The two loops of [sanitize_schema] by themselves: the comprehension
    over the [properties] and the pass over the fields of a schema. *)
Fixpoint sanitize_properties (properties : list (str * json))
  : option (list (str * json)) :=
  match properties with
  | [] => Some []
  | (k, v) :: more =>
      match sanitize_schema v, sanitize_properties more with
      | Some v, Some more => Some ((k, v) :: more)
      | _, _ => None
      end
  end.

Fixpoint sanitize_fields (fields : list (str * json))
  : option (list (str * json)) :=
  match fields with
  | [] => Some []
  | (key, value) :: rest =>
      if mem key unsupported_keys then sanitize_fields rest
      else
        let value :=
          if str_eqb key (lit "properties") then
            match value with
            | JObj properties => option_map JObj (sanitize_properties properties)
            | _ => None
            end
          else if str_eqb key (lit "items") then sanitize_schema value
          else Some value in
        match value, sanitize_fields rest with
        | Some value, Some rest => Some ((key, value) :: rest)
        | _, _ => None
        end
  end.

End Validation.

End Gemini.

(* ================================================================== *)
(** * Shapes of strings, for the statements below *)
(* ================================================================== *)

Module Shape.

(** The last character of [s] is of the class [p]. *)
Fixpoint ends_with_class (p : ascii -> bool) (s : str) : bool :=
  match s with
  | [] => false
  | [c] => p c
  | _ :: s' => ends_with_class p s'
  end.

(** Every character of the class [cls] in [s] is the separator [sep] and
    is not followed by another character of the class. *)
Fixpoint single_sep (cls : ascii -> bool) (sep : ascii) (s : str) : bool :=
  match s with
  | [] => true
  | c :: s' =>
      (negb (cls c) || (chr_eqb c sep && negb (starts_with_class cls s')))
      && single_sep cls sep s'
  end.

(** Separators are single and stand only between other characters. *)
Definition tidy (cls : ascii -> bool) (sep : ascii) (s : str) : bool :=
  single_sep cls sep s
  && negb (starts_with_class cls s)
  && negb (ends_with_class cls s).

(** What [normalize_ws] produces: single spaces between words, nothing else
    of white space. *)
Definition ws_tidy (s : str) : bool := tidy is_space " "%char s.

Definition not_alnum (c : ascii) : bool := negb (is_alnum c).

(** [s] has no character of [[a-z0-9]], also after lower-casing. *)
Definition no_alnum (s : str) : bool :=
  forallb (fun c => negb (is_alnum (lower_char c))) s.

(** [expand_to_min_chars] appends the (normalised) fallback to a
    (normalised) text that is too short: the fallback is not empty and the
    text does not hold it. *)
Definition appends_fallback (text fallback : str) : bool :=
  negb (is_empty fallback) && negb (contains (lower text) (lower fallback)).

(** The place of a violation in the list of messages of
    [validate_payload], whatever the numbers it carries. *)
Definition rule_number (v : Cyber.violation) : nat :=
  match v with
  | Cyber.StatusInvalid => 1 | Cyber.SkipWithoutReason => 2
  | Cyber.MissingTitle => 3 | Cyber.TitleTooShort => 4
  | Cyber.TitleDuplicate => 5 | Cyber.SlugNotKebab => 6
  | Cyber.ExcerptTooShort => 7 | Cyber.TooFewTopicKeywords => 8
  | Cyber.ContentTooShort => 9 | Cyber.ContentWithoutFaq => 10
  | Cyber.TooFewFaqQuestions => 11 | Cyber.SourcesNotList => 12
  | Cyber.TooFewSources _ _ => 13 | Cyber.TooFewDomains _ _ => 14
  | Cyber.ProfileNotObject => 15 | Cyber.CandidateNameTooShort => 16
  | Cyber.ElectionNameTooShort => 17 | Cyber.ElectionNameWithoutNepal => 18
  | Cyber.ElectionDateWrong => 19 | Cyber.PartyTooShort => 20
  | Cyber.ConstituencyTooShort => 21 | Cyber.CurrentPositionTooShort => 22
  | Cyber.ShortBioTooShort => 23 | Cyber.ProfileSourceUrlInvalid => 24
  | Cyber.ProfileSourceUrlNotInSources => 25
  | Cyber.ProfileImageUrlInvalid => 26
  | Cyber.ProfileImageSourceUrlInvalid => 27
  | Cyber.CandidateAlreadyProfiled => 28
  | Cyber.TitleWithoutCandidate => 29 | Cyber.ExcerptWithoutCandidate => 30
  | Cyber.ContentWithoutCandidate => 31 | Cyber.SeoNotObject => 32
  | Cyber.FocusKeyphraseTooShort => 33 | Cyber.MetaTitleOutOfWindow => 34
  | Cyber.MetaDescriptionOutOfWindow => 35
  | Cyber.TitleWithoutKeyphrase => 36 | Cyber.ExcerptWithoutKeyphrase => 37
  | Cyber.ContentWithoutKeyphrase => 38
  | Cyber.MetaTitleWithoutKeyphrase => 39
  | Cyber.MetaDescriptionWithoutKeyphrase => 40
  | Cyber.SlugWithoutKeyphrase => 41 | Cyber.SlugHintMisaligned => 42
  | Cyber.KeyFactsEmpty => 43 | Cyber.KeyFactNotObject _ => 44
  | Cyber.KeyFactConfidenceNotNumeric _ => 45
  | Cyber.KeyFactTooFewUrls _ => 46
  | Cyber.KeyFactLowConfidence _ _ _ => 47
  end.

(** [v] is a message of the same rule as [rule]. *)
Definition of_rule (rule v : Cyber.violation) : bool :=
  Nat.eqb (rule_number v) (rule_number rule).

(** The three messages about the title. *)
Definition title_rule (v : Cyber.violation) : bool :=
  match v with
  | Cyber.MissingTitle | Cyber.TitleTooShort | Cyber.TitleDuplicate => true
  | _ => false
  end.

(** The messages of the rule on [key_facts]. *)
Definition key_facts_rule (v : Cyber.violation) : bool :=
  Nat.leb 43 (rule_number v).

(** The two messages about the number of sources and of their domains. *)
Definition sources_rule (v : Cyber.violation) : bool :=
  match v with
  | Cyber.TooFewSources _ _ | Cyber.TooFewDomains _ _ => true
  | _ => false
  end.

(** The object [validate_payload] reads a group of fields from: the value
    under [key] when it is an object, the empty object otherwise. *)
Definition object_at (payload : dict) (key : string) : dict :=
  match get_or payload (lit key) (JObj []) with
  | JObj fields => fields
  | _ => []
  end.

(** The messages of the last rule of [validate_payload], on [key_facts]. *)
Definition key_facts_errors (payload : dict) (min_confidence : Z)
  : list Cyber.violation :=
  match get_or payload (lit "key_facts") (JList []) with
  | JList (fact :: facts) => Cyber.check_facts min_confidence 1 (fact :: facts)
  | _ => [Cyber.KeyFactsEmpty]
  end.


(** The facts [check_facts] lets pass. *)
Definition fact_supported (min_confidence : Z) (fact : json) : Prop :=
  exists (fields : dict) (urls : list json) (confidence : Z),
    fact = JObj fields
    /\ get_or fields (lit "supporting_source_urls") (JList []) = JList urls
    /\ (2 <= len_list urls)%Z
    /\ py_int (get_or fields (lit "confidence") (JInt (-1))) = Some confidence
    /\ (min_confidence <= confidence)%Z.

(** A character that cannot open or close a tag or an attribute value. *)
Definition markup_free (c : ascii) : bool :=
  negb (chr_eqb c "<"%char || chr_eqb c ">"%char || chr_eqb c Cyber.dq
        || chr_eqb c "'"%char).

End Shape.

Import Shape.

(* ================================================================== *)
(** * Scenarios *)
(* ================================================================== *)

Module Scenarios.

(** Scenario E: the service signals a rate limit twice and answers the
    third call, here with a draft that declines. *)
Definition scenario_E_answer : json :=
  JObj [(lit "status", JStr (lit "skip"));
        (lit "reason", JStr (lit "no reliable sources"))].

Definition scenario_E_service (n : nat) : Gemini.api_reply :=
  match n with
  | 0%nat | 1%nat => Gemini.ClientError 429
  | _ => Gemini.Answer scenario_E_answer
  end.

Definition scenario_E_env : Gemini.run_env :=
  Gemini.mkEnv true (Some []) (Some []) 8 false true true.

(** Scenarios A and B: a candidate profile that meets every rule, with 15
    sources; in scenario B the sources come from 5 domains only. *)
Definition source_entry (url domain : string) : json :=
  JObj [(lit "url", JStr (lit url));
        (lit "domain", JStr (lit domain));
        (lit "publisher", JStr (lit domain))].

Definition sources_A : list json :=
  [
    source_entry "https://kathmandupost.example/ram-bahadur-thapa-01" "kathmandupost.example";
    source_entry "https://onlinekhabar.example/ram-bahadur-thapa-02" "onlinekhabar.example";
    source_entry "https://setopati.example/ram-bahadur-thapa-03" "setopati.example";
    source_entry "https://ratopati.example/ram-bahadur-thapa-04" "ratopati.example";
    source_entry "https://nepalitimes.example/ram-bahadur-thapa-05" "nepalitimes.example";
    source_entry "https://himalayantimes.example/ram-bahadur-thapa-06" "himalayantimes.example";
    source_entry "https://gorkhapatra.example/ram-bahadur-thapa-07" "gorkhapatra.example";
    source_entry "https://election.example/ram-bahadur-thapa-08" "election.example";
    source_entry "https://parliament.example/ram-bahadur-thapa-09" "parliament.example";
    source_entry "https://congress.example/ram-bahadur-thapa-10" "congress.example";
    source_entry "https://myrepublica.example/ram-bahadur-thapa-11" "myrepublica.example";
    source_entry "https://annapurnapost.example/ram-bahadur-thapa-12" "annapurnapost.example";
    source_entry "https://nagariknews.example/ram-bahadur-thapa-13" "nagariknews.example";
    source_entry "https://ekantipur.example/ram-bahadur-thapa-14" "ekantipur.example";
    source_entry "https://risingnepal.example/ram-bahadur-thapa-15" "risingnepal.example"
  ].

Definition sources_B : list json :=
  [
    source_entry "https://kathmandupost.example/ram-bahadur-thapa-01" "kathmandupost.example";
    source_entry "https://onlinekhabar.example/ram-bahadur-thapa-02" "onlinekhabar.example";
    source_entry "https://setopati.example/ram-bahadur-thapa-03" "setopati.example";
    source_entry "https://ratopati.example/ram-bahadur-thapa-04" "ratopati.example";
    source_entry "https://nepalitimes.example/ram-bahadur-thapa-05" "nepalitimes.example";
    source_entry "https://kathmandupost.example/ram-bahadur-thapa-06" "kathmandupost.example";
    source_entry "https://onlinekhabar.example/ram-bahadur-thapa-07" "onlinekhabar.example";
    source_entry "https://setopati.example/ram-bahadur-thapa-08" "setopati.example";
    source_entry "https://ratopati.example/ram-bahadur-thapa-09" "ratopati.example";
    source_entry "https://nepalitimes.example/ram-bahadur-thapa-10" "nepalitimes.example";
    source_entry "https://kathmandupost.example/ram-bahadur-thapa-11" "kathmandupost.example";
    source_entry "https://onlinekhabar.example/ram-bahadur-thapa-12" "onlinekhabar.example";
    source_entry "https://setopati.example/ram-bahadur-thapa-13" "setopati.example";
    source_entry "https://ratopati.example/ram-bahadur-thapa-14" "ratopati.example";
    source_entry "https://nepalitimes.example/ram-bahadur-thapa-15" "nepalitimes.example"
  ].

Definition scenario_paragraph : str :=
  lit "<p>Ram Bahadur Thapa profile: background, political career timeline, key policy positions and electoral outlook ahead of the Nepal election.</p>".

Definition scenario_content : str :=
  lit "<h2>Ram Bahadur Thapa profile</h2>"
  ++ List.concat (repeat scenario_paragraph 14)
  ++ lit "<h2>FAQ</h2><h3>Who is Ram Bahadur Thapa?</h3><p>A candidate in Kathmandu.</p><h3>Which party does he stand for?</h3><p>Nepali Congress.</p><h3>When is the election held?</h3><p>On 5 March 2026.</p>".

Definition scenario_profile : json :=
  JObj [(lit "candidate_name", JStr (lit "Ram Bahadur Thapa"));
        (lit "election_name", JStr (lit "Nepal General Election 2026"));
        (lit "election_date", JStr (lit "2026-03-05"));
        (lit "party", JStr (lit "Nepali Congress"));
        (lit "constituency", JStr (lit "Kathmandu-1"));
        (lit "current_position", JStr (lit "Member of Parliament"));
        (lit "short_bio",
         JStr (lit "Ram Bahadur Thapa is a long-serving politician who has represented Kathmandu in parliament."));
        (lit "profile_source_url",
         JStr (lit "https://kathmandupost.example/ram-bahadur-thapa-01"));
        (lit "profile_image_url", JStr []);
        (lit "profile_image_source_url", JStr [])].

Definition scenario_seo : json :=
  JObj [(lit "focus_keyphrase", JStr (lit "Ram Bahadur Thapa profile"));
        (lit "meta_title",
         JStr (lit "Ram Bahadur Thapa Profile: Nepal Election 2026 Bid"));
        (lit "meta_description",
         JStr (lit "Ram Bahadur Thapa profile for the Nepal election on 5 March 2026: background, party, constituency, career timeline, policy positions and poll outlook."));
        (lit "seo_slug_hint",
         JStr (lit "ram-bahadur-thapa-profile-nepal-election-2026"))].

Definition scenario_fact : json :=
  JObj [(lit "claim", JStr (lit "Ram Bahadur Thapa stands in Kathmandu-1."));
        (lit "confidence", JInt 90);
        (lit "supporting_source_urls",
         JList [JStr (lit "https://kathmandupost.example/ram-bahadur-thapa-01");
                JStr (lit "https://onlinekhabar.example/ram-bahadur-thapa-02")])].

Definition scenario_draft (title : string) (sources : list json) : dict :=
  [(lit "status", JStr (lit "publish"));
   (lit "title", JStr (lit title));
   (lit "slug", JStr (lit "ram-bahadur-thapa-profile-nepal-election-2026"));
   (lit "excerpt",
    JStr (lit "Ram Bahadur Thapa profile: who the candidate is, what he stands for and how he is placed before the Nepal election of 5 March 2026."));
   (lit "content_html", JStr scenario_content);
   (lit "topic_keywords",
    JList [JStr (lit "Nepal election"); JStr (lit "candidate profile");
           JStr (lit "Kathmandu")]);
   (lit "candidate_profile", scenario_profile);
   (lit "seo", scenario_seo);
   (lit "sources", JList sources);
   (lit "key_facts", JList [scenario_fact; scenario_fact])].

Definition scenario_title : string :=
  "Ram Bahadur Thapa profile: Nepal election 2026 candidate".

Definition scenario_A : dict := scenario_draft scenario_title sources_A.
Definition scenario_B : dict := scenario_draft scenario_title sources_B.


(** Scenario A with one key fact, whose confidence is a word and which
    names no supporting URL. *)
Definition unrated_fact_draft : dict :=
  dict_set scenario_A (lit "key_facts")
    (JList [JObj [(lit "claim", JStr (lit "Ram Bahadur Thapa stands in Kathmandu-1."));
                  (lit "confidence", JStr (lit "high"))]]).

(** Scenario A with a text where the list of sources should be, and with
    an empty title. *)
Definition unlisted_sources_draft : dict :=
  dict_set (dict_set scenario_A (lit "title") (JStr []))
    (lit "sources") (JStr (lit "see the article")).


(** A draft whose meta title holds the focus keyphrase only beyond the
    65 characters a meta title may have. *)
Definition trimmed_keyphrase_draft : dict :=
  [(lit "status", JStr (lit "publish"));
   (lit "title", JStr (lit "Ram Thapa"));
   (lit "seo",
    JObj [(lit "focus_keyphrase", JStr (lit "thapa"));
          (lit "meta_title",
           JStr (lit "Everything voters should know before the election about Kathmandu candidate Thapa"));
          (lit "meta_description",
           JStr (lit "Ram Bahadur Thapa profile for the Nepal election on 5 March 2026: background, party, constituency, career timeline, policy positions and poll outlook."))])].

(** A title of 44 characters. *)
Definition title_of_44 : string :=
  "Ram Thapa profile for the Nepal 2026 polling".

(** Scenario D: the schema and the helper scripts are there, and so is a
    lock marker; the threshold is 120 minutes.  The marker is 10 minutes
    old in the first world, 3 hours old in the second. *)
Definition scenario_D_args : Cyber.arguments := Cyber.mkArgs 12 85 false 120.
Definition scenario_D_env : Cyber.collaborators :=
  Cyber.mkCollab (Some []) (Some []) (Some scenario_A) true true.
Definition scenario_D_world : Cyber.world :=
  Cyber.mkWorld true true true true (Some 1000%Z) 1600.
Definition stale_lock_world : Cyber.world :=
  Cyber.mkWorld true true true true (Some 1000%Z) 11800.

(** The marker of scenario D, 10 minutes old, where the schema is missing. *)
Definition no_schema_world : Cyber.world :=
  Cyber.mkWorld false true true true (Some 1000%Z) 1600.

(** Collaborators whose draft has the title of 44 characters and nothing
    else. *)
Definition title_of_44_env : Cyber.collaborators :=
  Cyber.mkCollab (Some []) (Some [])
    (Some [(lit "status", JStr (lit "publish"));
           (lit "title", JStr (lit title_of_44))])
    true true.

(** A stand-in for [urlparse(url).netloc] where a concrete one is needed:
    it raises on every URL. *)
Definition no_netloc (url : str) : option str := None.

End Scenarios.

Import Scenarios.

(* ================================================================== *)
(** * Properties *)
(* ================================================================== *)

Import Cyber.

(** ** The embedding on sample inputs *)

Example lower_example : lower (lit "Ab-9 Z") = lit "ab-9 z".
Proof. reflexivity. Qed.

Example title_example : PyStr.title (lit "ram bahadur2x") = lit "Ram Bahadur2X".
Proof. reflexivity. Qed.

Example findall_example :
  findall_alnum (lit "  ab--c9 !d") = [lit "ab"; lit "c9"; lit "d"].
Proof. reflexivity. Qed.

Example normalize_ws_example :
  normalize_ws (lit "  a   b  ") = lit "a b".
Proof. reflexivity. Qed.

Example kebab_example :
  (fullmatch_kebab (lit "a-b9"), fullmatch_kebab (lit "a--b"),
   fullmatch_kebab (lit "a-"), fullmatch_kebab (lit ""))
  = (true, false, false, false).
Proof. reflexivity. Qed.

Example py_str_example :
  py_str (JList [JStr (lit "ab"); JInt (-12); JNull; JObj [(lit "k", JBool true)]])
  = lit "['ab', -12, None, {'k': True}]".
Proof. reflexivity. Qed.

Example trim_to_max_example :
  trim_to_max_chars (lit "alpha beta, gamma delta") 13 = lit "alpha beta".
Proof. reflexivity. Qed.

Example trim_slug_example :
  trim_slug (lit " Hello, World!! ") 120 = lit "hello-world".
Proof. reflexivity. Qed.

Example expand_example :
  expand_to_min_chars 1 (lit "abcd") 20 30 (lit "ab")
  = Some (lit "abcd Stay updated wi").
Proof. reflexivity. Qed.

Example py_int_example :
  (py_int (JStr (lit " 9_0 ")), py_int (JStr (lit "-7")), py_int (JBool true),
   py_int (JStr (lit "5__0")), py_int (JStr (lit "1.5")), py_int JNull)
  = (Some 90%Z, Some (-7)%Z, Some 1%Z, None, None, None).
Proof. reflexivity. Qed.

Example slice_to_example :
  (slice_to (lit "abc") 2, slice_to (lit "abc") (-1), slice_to (lit "abc") (-5))
  = (lit "ab", lit "ab", lit "").
Proof. reflexivity. Qed.

Example near_duplicate_example :
  (near_duplicate_title (lit "Ram Thapa: Profile") [lit "ram thapa profile"],
   near_duplicate_title (lit "Ram Thapa contests the Kathmandu seat")
     [lit "Sita Rai contests the Pokhara seat"])
  = (true, false).
Proof. vm_compute. reflexivity. Qed.

Example count_h3_example :
  count_h3_questions
    (lit "<h3>Who?</h3><H3 class='q'>Why <b>so</b>?</H3><h3>No.</h3><h3>x?</h3>")
  = 3%Z.
Proof. reflexivity. Qed.

(** ** The padding loop of [expand_to_min_chars] *)

Lemma pad_loop_stuck (fuel : nat) : pad_loop fuel (lit "abcd") 5 = None.
Proof.
  induction fuel as [|fuel IH].
  - reflexivity.
  - exact IH.
Qed.

Lemma pad_loop_stuck_at_44 (fuel : nat) :
  pad_loop fuel (lit title_of_44) 45 = None.
Proof.
  induction fuel as [|fuel IH].
  - reflexivity.
  - exact IH.
Qed.

(** C3.  The padding loop does not always terminate: with a text one
    character short of the minimum the slice appended is the single leading
    space of the filler, which [strip] removes again, so the text never
    grows and no amount of fuel lets [expand_to_min_chars] return.  So it is
    for a text of 4 characters and a minimum of 5, and so it is in the call
    [normalize_seo_fields] makes for a meta title of 44 characters. *)
Theorem expand_to_min_chars_diverges :
  forall fuel,
    expand_to_min_chars fuel (lit "abcd") 5 10 [] = None
    /\ expand_to_min_chars fuel (lit title_of_44) 45 65 (lit title_of_44) = None.
Proof.
  intro fuel. unfold expand_to_min_chars. split.
  - change (normalize_ws (lit "abcd")) with (lit "abcd").
    change (normalize_ws []) with (@nil ascii).
    cbn [is_empty negb andb len].
    change ((5 <=? Z.of_nat (List.length (lit "abcd")))%Z) with false.
    cbv iota. rewrite pad_loop_stuck. reflexivity.
  - change (normalize_ws (lit title_of_44)) with (lit title_of_44).
    change ((45 <=? len (lit title_of_44))%Z) with false.
    change (contains (lower (lit title_of_44)) (lower (lit title_of_44)))
      with true.
    cbn [negb andb]. cbv iota.
    rewrite pad_loop_stuck_at_44. reflexivity.
Qed.

(** The padding loop also hangs [normalize_seo_fields]: a title of 44
    characters is one short of the 45 the meta title must have. *)
Lemma normalize_seo_fields_diverges :
  len (lit title_of_44) = 44%Z
  /\ forall fuel,
       normalize_seo_fields fuel
         [(lit "status", JStr (lit "publish")); (lit "title", JStr (lit title_of_44))]
       = None.
Proof.
  split; [reflexivity|]. intro fuel.
  pose proof pad_loop_stuck_at_44 as L.
  unfold normalize_seo_fields.
  change (negb (eq_str (get_or _ (lit "status") JNull) (lit "publish")))
    with false.
  cbv beta iota zeta.
  match goal with
  | |- context [expand_to_min_chars fuel ?t 45 65 ?f] =>
      assert (E : expand_to_min_chars fuel t 45 65 f = None)
  end.
  { unfold expand_to_min_chars.
    match goal with
    | |- context [pad_loop fuel ?t 45] =>
        change t with (lit title_of_44)
    end.
    rewrite L.
    match goal with
    | |- (if ?c then _ else _) = None => change c with false
    end.
    reflexivity. }
  rewrite E. reflexivity.
Qed.

(** ** Strings: stripping, prefixes, lengths *)

Section Stripping.

Variable p : ascii -> bool.

Lemma drop_while_length (s : str) :
  (List.length (drop_while p s) <= List.length s)%nat.
Proof.
  induction s as [|c s IH]; simpl; [lia|].
  destruct (p c); simpl; lia.
Qed.

Lemma drop_while_suffix (s : str) :
  exists a, s = a ++ drop_while p s /\ forallb p a = true.
Proof.
  induction s as [|c s [a [Ha Hp]]]; simpl.
  - exists []. split; reflexivity.
  - destruct (p c) eqn:Hc.
    + exists (c :: a). simpl. rewrite Hc, Hp. split; [congruence | reflexivity].
    + exists []. split; reflexivity.
Qed.

Lemma drop_while_id (s : str) :
  starts_with_class p s = false -> drop_while p s = s.
Proof.
  destruct s as [|c s]; simpl; [reflexivity|]. intros ->. reflexivity.
Qed.

Lemma drop_while_starts (s : str) :
  starts_with_class p (drop_while p s) = false.
Proof.
  induction s as [|c s IH]; simpl; [reflexivity|].
  destruct (p c) eqn:Hc; simpl; [exact IH | exact Hc].
Qed.

Lemma rstrip_by_snoc (s : str) (c : ascii) :
  rstrip_by p (s ++ [c]) = if p c then rstrip_by p s else s ++ [c].
Proof.
  unfold rstrip_by. rewrite rev_app_distr. simpl.
  destruct (p c); [reflexivity|].
  simpl. rewrite rev_involutive. reflexivity.
Qed.


Lemma rstrip_by_prefix (s : str) :
  exists b, s = rstrip_by p s ++ b /\ forallb p b = true.
Proof.
  unfold rstrip_by.
  destruct (drop_while_suffix (rev s)) as [a [Ha Hp]].
  exists (rev a). split.
  - rewrite <- rev_app_distr, <- Ha, rev_involutive. reflexivity.
  - rewrite forallb_forall in *. intros x Hx. apply Hp.
    apply in_rev. exact Hx.
Qed.

Lemma rstrip_by_length (s : str) :
  (List.length (rstrip_by p s) <= List.length s)%nat.
Proof.
  unfold rstrip_by. rewrite length_rev.
  etransitivity; [apply drop_while_length|]. rewrite length_rev. lia.
Qed.

Lemma strip_by_length (s : str) :
  (List.length (strip_by p s) <= List.length s)%nat.
Proof.
  unfold strip_by, lstrip_by.
  etransitivity; [apply drop_while_length | apply rstrip_by_length].
Qed.

Lemma ends_with_class_snoc (s : str) (c : ascii) :
  ends_with_class p (s ++ [c]) = p c.
Proof.
  induction s as [|d s IH]; simpl; [reflexivity|].
  destruct (s ++ [c]) eqn:E; [destruct s; discriminate | exact IH].
Qed.

Lemma rstrip_by_id (s : str) :
  ends_with_class p s = false -> rstrip_by p s = s.
Proof.
  destruct s as [|c s _] using rev_ind; [reflexivity|].
  rewrite ends_with_class_snoc, rstrip_by_snoc. intros ->. reflexivity.
Qed.

Lemma rstrip_by_ends (s : str) :
  ends_with_class p (rstrip_by p s) = false.
Proof.
  induction s as [|c s IH] using rev_ind; [reflexivity|].
  rewrite rstrip_by_snoc. destruct (p c) eqn:Hc; [exact IH|].
  rewrite ends_with_class_snoc. exact Hc.
Qed.

Lemma strip_by_id (s : str) :
  starts_with_class p s = false -> ends_with_class p s = false ->
  strip_by p s = s.
Proof.
  intros Hs He. unfold strip_by, lstrip_by.
  rewrite (rstrip_by_id s He). apply drop_while_id, Hs.
Qed.

End Stripping.

Lemma ends_with_class_drop_while (p q : ascii -> bool) (s : str) :
  ends_with_class p s = false ->
  ends_with_class p (drop_while q s) = false.
Proof.
  induction s as [|c s IH]; simpl; [reflexivity|].
  intro H. destruct (q c).
  - destruct s as [|d s]; [reflexivity|]. apply IH. exact H.
  - exact H.
Qed.

Lemma strip_by_starts (p : ascii -> bool) (s : str) :
  starts_with_class p (strip_by p s) = false.
Proof. apply drop_while_starts. Qed.

Lemma strip_by_ends (p : ascii -> bool) (s : str) :
  ends_with_class p (strip_by p s) = false.
Proof. apply ends_with_class_drop_while, rstrip_by_ends. Qed.

Lemma len_nonneg (s : str) : (0 <= len s)%Z.
Proof. unfold len. lia. Qed.

Lemma len_app (a b : str) : len (a ++ b) = (len a + len b)%Z.
Proof. unfold len. rewrite length_app. lia. Qed.

Lemma slice_to_length (s : str) (n : Z) :
  (0 <= n)%Z -> (len (slice_to s n) <= n)%Z.
Proof.
  intro Hn. unfold slice_to, len.
  destruct (0 <=? n)%Z eqn:E; [|lia].
  rewrite length_firstn. lia.
Qed.


Lemma slice_to_prefix (s : str) (n : Z) : exists b, s = slice_to s n ++ b.
Proof.
  unfold slice_to. destruct (0 <=? n)%Z;
    eexists; symmetry; apply firstn_skipn.
Qed.

Lemma before_last_length (sep : ascii) (s : str) :
  (List.length (before_last sep s) <= List.length s)%nat.
Proof.
  unfold before_last. rewrite length_rev.
  pose proof (drop_while_length (fun c => negb (chr_eqb c sep)) (rev s)) as H.
  rewrite length_rev in H.
  destruct (drop_while _ (rev s)); simpl in *; lia.
Qed.

Lemma before_last_prefix (sep : ascii) (s : str) :
  exists b, s = before_last sep s ++ b.
Proof.
  unfold before_last.
  destruct (drop_while_suffix (fun c => negb (chr_eqb c sep)) (rev s))
    as [a [Ha _]].
  destruct (drop_while _ (rev s)) as [|d t] eqn:E.
  - exists s. reflexivity.
  - exists (d :: rev a). simpl.
    rewrite <- (rev_involutive s), Ha, rev_app_distr. simpl.
    rewrite <- app_assoc. reflexivity.
Qed.

(** ** Strings with single separators *)

Section Separated.

Variable cls : ascii -> bool.
Variable sep : ascii.

Lemma starts_with_class_app (a b : str) :
  starts_with_class cls (a ++ b)
  = if is_empty a then starts_with_class cls b else starts_with_class cls a.
Proof. destruct a; reflexivity. Qed.

Lemma ends_with_class_cons (c : ascii) (s : str) :
  ends_with_class cls (c :: s)
  = if is_empty s then cls c else ends_with_class cls s.
Proof. destruct s; reflexivity. Qed.

Lemma single_sep_app (a b : str) :
  single_sep cls sep (a ++ b)
  = single_sep cls sep a && single_sep cls sep b
    && negb (ends_with_class cls a && starts_with_class cls b).
Proof.
  induction a as [|c a IH].
  - simpl. destruct (single_sep cls sep b); reflexivity.
  - change ((c :: a) ++ b) with (c :: (a ++ b)).
    cbn [single_sep]. rewrite IH, starts_with_class_app, ends_with_class_cons.
    destruct a as [|d a]; cbn [is_empty].
    + cbn [single_sep starts_with_class ends_with_class].
      destruct (cls c), (chr_eqb c sep), (starts_with_class cls b),
        (single_sep cls sep b); reflexivity.
    + destruct (negb (cls c) || chr_eqb c sep && negb (starts_with_class cls (d :: a))),
        (single_sep cls sep (d :: a)), (single_sep cls sep b),
        (ends_with_class cls (d :: a)), (starts_with_class cls b); reflexivity.
Qed.

Lemma single_sep_prefix (a b : str) :
  single_sep cls sep (a ++ b) = true -> single_sep cls sep a = true.
Proof.
  rewrite single_sep_app. intro H.
  apply andb_prop in H as [H _]. apply andb_prop in H as [H _]. exact H.
Qed.

Lemma single_sep_suffix (a b : str) :
  single_sep cls sep (a ++ b) = true -> single_sep cls sep b = true.
Proof.
  rewrite single_sep_app. intro H.
  apply andb_prop in H as [H _]. apply andb_prop in H as [_ H]. exact H.
Qed.

Lemma single_sep_drop_while (q : ascii -> bool) (s : str) :
  single_sep cls sep s = true -> single_sep cls sep (drop_while q s) = true.
Proof.
  destruct (drop_while_suffix q s) as [a [Ha _]].
  intro H. rewrite Ha in H. exact (single_sep_suffix _ _ H).
Qed.

Lemma single_sep_rstrip_by (q : ascii -> bool) (s : str) :
  single_sep cls sep s = true -> single_sep cls sep (rstrip_by q s) = true.
Proof.
  destruct (rstrip_by_prefix q s) as [b [Hb _]].
  intro H. rewrite Hb in H. exact (single_sep_prefix _ _ H).
Qed.

Lemma single_sep_strip_by (q : ascii -> bool) (s : str) :
  single_sep cls sep s = true -> single_sep cls sep (strip_by q s) = true.
Proof.
  intro H. apply single_sep_drop_while, single_sep_rstrip_by, H.
Qed.

Lemma single_sep_slice_to (s : str) (n : Z) :
  single_sep cls sep s = true -> single_sep cls sep (slice_to s n) = true.
Proof.
  destruct (slice_to_prefix s n) as [b Hb].
  intro H. rewrite Hb in H. exact (single_sep_prefix _ _ H).
Qed.

Lemma single_sep_before_last (c : ascii) (s : str) :
  single_sep cls sep s = true -> single_sep cls sep (before_last c s) = true.
Proof.
  destruct (before_last_prefix c s) as [b Hb].
  intro H. rewrite Hb in H. exact (single_sep_prefix _ _ H).
Qed.

(** A string without characters of the class. *)
Lemma single_sep_free (s : str) :
  forallb (fun c => negb (cls c)) s = true -> single_sep cls sep s = true.
Proof.
  induction s as [|c s IH]; simpl; [reflexivity|].
  intro H. apply andb_prop in H as [Hc Hs].
  rewrite Hc, (IH Hs). reflexivity.
Qed.

Lemma starts_free (s : str) :
  forallb (fun c => negb (cls c)) s = true -> starts_with_class cls s = false.
Proof.
  destruct s as [|c s]; simpl; [reflexivity|].
  intro H. apply andb_prop in H as [Hc _].
  destruct (cls c); [discriminate | reflexivity].
Qed.

Lemma ends_free (s : str) :
  forallb (fun c => negb (cls c)) s = true -> ends_with_class cls s = false.
Proof.
  induction s as [|c s IH]; [reflexivity|].
  intro H. simpl in H. apply andb_prop in H as [Hc Hs].
  rewrite ends_with_class_cons. destruct s; cbn [is_empty].
  - destruct (cls c); [discriminate | reflexivity].
  - exact (IH Hs).
Qed.

Lemma tidy_free (s : str) :
  forallb (fun c => negb (cls c)) s = true -> tidy cls sep s = true.
Proof.
  intro H. unfold tidy.
  rewrite (single_sep_free s H), (starts_free s H), (ends_free s H).
  reflexivity.
Qed.

Lemma tidy_parts (s : str) :
  tidy cls sep s = true <->
  single_sep cls sep s = true
  /\ starts_with_class cls s = false
  /\ ends_with_class cls s = false.
Proof.
  unfold tidy. rewrite !andb_true_iff, !negb_true_iff. tauto.
Qed.

(** Stripping the class off a single-separator string tidies it. *)
Lemma tidy_strip_by (s : str) :
  single_sep cls sep s = true -> tidy cls sep (strip_by cls s) = true.
Proof.
  intro H. apply tidy_parts. split; [|split].
  - apply single_sep_strip_by, H.
  - apply strip_by_starts.
  - apply strip_by_ends.
Qed.

Lemma strip_by_tidy (s : str) :
  tidy cls sep s = true -> strip_by cls s = s.
Proof.
  intro H. apply tidy_parts in H as [_ [Hs He]].
  apply strip_by_id; assumption.
Qed.

(** Joining two tidy strings with the separator. *)
Lemma tidy_app_sep (a b : str) :
  cls sep = true ->
  tidy cls sep a = true -> tidy cls sep b = true ->
  a <> [] -> b <> [] ->
  tidy cls sep (a ++ [sep] ++ b) = true.
Proof.
  intros Hsep Ha Hb Na Nb.
  apply tidy_parts in Ha as [Pa [Sa Ea]].
  apply tidy_parts in Hb as [Pb [Sb Eb]].
  apply tidy_parts. split; [|split].
  - rewrite !single_sep_app, Pa, Pb, Ea, Sb.
    cbn. rewrite Hsep. unfold chr_eqb. rewrite Ascii.eqb_refl. reflexivity.
  - rewrite starts_with_class_app. destruct a; [congruence | exact Sa].
  - destruct b as [|x b] using rev_ind; [congruence|].
    rewrite !app_assoc, ends_with_class_snoc.
    rewrite ends_with_class_snoc in Eb. exact Eb.
Qed.

End Separated.

(** ** [normalize_ws] *)

Lemma sub_runs_space_starts (cls : ascii -> bool) (s : str) :
  cls " "%char = true ->
  starts_with_class cls (sub_runs_space cls s) = starts_with_class cls s.
Proof.
  intro Hsp. induction s as [|c s IH]; [reflexivity|].
  cbn [sub_runs_space]. destruct (cls c) eqn:Hc.
  - destruct (starts_with_class cls s) eqn:Hs.
    + rewrite IH. simpl. rewrite Hc. reflexivity.
    + simpl. rewrite Hsp, Hc. reflexivity.
  - reflexivity.
Qed.

Lemma sub_runs_space_single (cls : ascii -> bool) (s : str) :
  cls " "%char = true ->
  single_sep cls " "%char (sub_runs_space cls s) = true.
Proof.
  intro Hsp. induction s as [|c s IH]; [reflexivity|].
  cbn [sub_runs_space]. destruct (cls c) eqn:Hc.
  - destruct (starts_with_class cls s) eqn:Hs; [exact IH|].
    cbn [single_sep]. rewrite IH, sub_runs_space_starts, Hs by exact Hsp.
    rewrite Hsp. reflexivity.
  - cbn [single_sep]. rewrite Hc, IH. reflexivity.
Qed.

Lemma sub_runs_space_id (cls : ascii -> bool) (s : str) :
  single_sep cls " "%char s = true -> sub_runs_space cls s = s.
Proof.
  induction s as [|c s IH]; [reflexivity|].
  cbn [single_sep sub_runs_space]. intro H.
  apply andb_prop in H as [Hc Hs]. rewrite (IH Hs).
  destruct (cls c); [|reflexivity].
  simpl in Hc. apply andb_prop in Hc as [Heq Hn].
  apply negb_true_iff in Hn. rewrite Hn.
  unfold chr_eqb in Heq. apply Ascii.eqb_eq in Heq. subst c. reflexivity.
Qed.

Lemma is_space_space : is_space " "%char = true.
Proof. reflexivity. Qed.

(** [normalize_ws] leaves single spaces between words and nothing else. *)
Lemma normalize_ws_tidy (s : str) : ws_tidy (normalize_ws s) = true.
Proof.
  unfold ws_tidy, normalize_ws, strip.
  apply tidy_strip_by, sub_runs_space_single, is_space_space.
Qed.

(** ... and changes nothing in a string of that shape. *)
Lemma normalize_ws_id (s : str) : ws_tidy s = true -> normalize_ws s = s.
Proof.
  intro H. unfold normalize_ws, strip.
  pose proof H as H'. apply tidy_parts in H' as [P _].
  rewrite (sub_runs_space_id _ _ P). apply strip_by_tidy with (sep := " "%char).
  exact H.
Qed.

Lemma normalize_ws_idempotent (s : str) :
  normalize_ws (normalize_ws s) = normalize_ws s.
Proof. apply normalize_ws_id, normalize_ws_tidy. Qed.


(** ** [trim_to_max_chars] *)

Lemma trim_to_max_chars_length (text : str) (max_chars : Z) :
  (0 <= max_chars)%Z -> (len (trim_to_max_chars text max_chars) <= max_chars)%Z.
Proof.
  intro Hmax. unfold trim_to_max_chars.
  destruct (len (normalize_ws text) <=? max_chars)%Z eqn:E.
  - apply Z.leb_le. exact E.
  - set (clipped := rstrip (slice_to (normalize_ws text) max_chars)).
    assert (Hc : (len clipped <= max_chars)%Z).
    { pose proof (slice_to_length (normalize_ws text) max_chars Hmax).
      pose proof (rstrip_by_length is_space (slice_to (normalize_ws text) max_chars)).
      unfold clipped, rstrip, len in *. lia. }
    set (cut := if contains clipped (lit " ")
                then before_last " "%char clipped else clipped).
    assert (Hcut : (len cut <= max_chars)%Z).
    { unfold cut. destruct (contains clipped (lit " ")); [|exact Hc].
      pose proof (before_last_length " "%char clipped).
      unfold len in *. lia. }
    pose proof (rstrip_by_length (one_of (lit " ,;:-")) cut).
    unfold len in *. lia.
Qed.

Lemma trim_to_max_chars_fits (text : str) (max_chars : Z) :
  ws_tidy text = true -> (len text <= max_chars)%Z ->
  trim_to_max_chars text max_chars = text.
Proof.
  intros Ht Hl. unfold trim_to_max_chars.
  rewrite (normalize_ws_id text Ht).
  apply Z.leb_le in Hl. rewrite Hl. reflexivity.
Qed.

Lemma one_of_space : forall c, is_space c = true ->
  chr_eqb c " "%char = true -> one_of (lit " ,;:-") c = true.
Proof.
  intros c _ H. unfold chr_eqb in H. apply Ascii.eqb_eq in H. subst c.
  reflexivity.
Qed.

(** In a single-spaced string the only white space is the space. *)
Lemma single_sep_ends_space (s : str) :
  single_sep is_space " "%char s = true ->
  ends_with_class (one_of (lit " ,;:-")) s = false ->
  ends_with_class is_space s = false.
Proof.
  induction s as [|c s IH]; [reflexivity|].
  cbn [single_sep]. intros H E. apply andb_prop in H as [Hc Hs].
  rewrite ends_with_class_cons in *. destruct s as [|d s]; cbn [is_empty] in *.
  - destruct (is_space c) eqn:Sc; [|reflexivity].
    simpl in Hc. apply andb_prop in Hc as [Hc _].
    rewrite (one_of_space c Sc Hc) in E. discriminate.
  - exact (IH Hs E).
Qed.

(** The result of [trim_to_max_chars] is again in the shape [normalize_ws]
    produces. *)
Lemma trim_to_max_chars_tidy (text : str) (max_chars : Z) :
  ws_tidy (trim_to_max_chars text max_chars) = true.
Proof.
  unfold trim_to_max_chars.
  destruct (len (normalize_ws text) <=? max_chars)%Z.
  - apply normalize_ws_tidy.
  - pose proof (normalize_ws_tidy text) as Ht.
    apply tidy_parts in Ht as [P [S _]].
    set (t := normalize_ws text) in *.
    set (clipped := rstrip (slice_to t max_chars)).
    set (cut := if contains clipped (lit " ")
                then before_last " "%char clipped else clipped).
    assert (Pcut : single_sep is_space " "%char cut = true).
    { unfold cut. destruct (contains clipped (lit " ")).
      - apply single_sep_before_last. unfold clipped, rstrip.
        apply single_sep_rstrip_by, single_sep_slice_to, P.
      - unfold clipped, rstrip.
        apply single_sep_rstrip_by, single_sep_slice_to, P. }
    assert (Scut : starts_with_class is_space cut = false).
    { assert (exists b, t = cut ++ b) as [b Hb].
      { unfold cut.
        destruct (slice_to_prefix t max_chars) as [b1 H1].
        destruct (rstrip_by_prefix is_space (slice_to t max_chars)) as [b2 [H2 _]].
        fold (rstrip (slice_to t max_chars)) in H2. fold clipped in H2.
        destruct (contains clipped (lit " ")).
        - destruct (before_last_prefix " "%char clipped) as [b3 H3].
          exists (b3 ++ b2 ++ b1). rewrite H1 at 1. rewrite H2 at 1.
          rewrite H3 at 1. rewrite <- !app_assoc. reflexivity.
        - exists (b2 ++ b1). rewrite H1 at 1. rewrite H2 at 1.
          rewrite <- !app_assoc. reflexivity. }
      rewrite Hb, starts_with_class_app in S.
      destruct cut; [reflexivity | exact S]. }
    apply tidy_parts. split; [|split].
    + apply single_sep_rstrip_by, Pcut.
    + destruct (rstrip_by_prefix (one_of (lit " ,;:-")) cut) as [b [Hb _]].
      rewrite Hb, starts_with_class_app in Scut.
      destruct (rstrip_by (one_of (lit " ,;:-")) cut); [reflexivity | exact Scut].
    + apply single_sep_ends_space.
      * apply single_sep_rstrip_by, Pcut.
      * apply rstrip_by_ends.
Qed.

(** ** [expand_to_min_chars] *)

Lemma pad_single : single_sep is_space " "%char pad = true.
Proof. reflexivity. Qed.

Lemma strip_append_tidy (text chunk : str) :
  ws_tidy text = true -> single_sep is_space " "%char chunk = true ->
  ws_tidy (strip (text ++ chunk)) = true.
Proof.
  intros Ht Hc. apply tidy_parts in Ht as [P [_ E]].
  unfold ws_tidy, strip. apply tidy_strip_by.
  rewrite single_sep_app, P, Hc, E. reflexivity.
Qed.

Lemma strip_length (s : str) : (len (strip s) <= len s)%Z.
Proof. unfold strip, len. pose proof (strip_by_length is_space s). lia. Qed.

(** What the padding loop returns: the text itself when it is long enough,
    a text of exactly [min_chars] characters otherwise. *)
Lemma pad_loop_result (fuel : nat) :
  forall text min_chars result,
    pad_loop fuel text min_chars = Some result ->
    ((min_chars <= len text)%Z /\ result = text)
    \/ ((len text < min_chars)%Z /\ len result = min_chars).
Proof.
  induction fuel as [|fuel IH]; intros text min_chars result; cbn [pad_loop];
    destruct (len text <? min_chars)%Z eqn:E.
  - discriminate.
  - intros [= <-]. left. apply Z.ltb_ge in E. auto.
  - intro H. right. apply Z.ltb_lt in E. split; [exact E|].
    set (next := strip (text ++ slice_to pad (min_chars - len text))) in *.
    assert (Hn : (len next <= min_chars)%Z).
    { unfold next.
      pose proof (strip_length (text ++ slice_to pad (min_chars - len text))).
      rewrite len_app in *.
      pose proof (slice_to_length pad (min_chars - len text)). lia. }
    destruct (IH _ _ _ H) as [[H1 ->] | [_ H2]]; [lia | exact H2].
  - intros [= <-]. left. apply Z.ltb_ge in E. auto.
Qed.

Lemma pad_loop_tidy (fuel : nat) :
  forall text min_chars result,
    ws_tidy text = true ->
    pad_loop fuel text min_chars = Some result ->
    ws_tidy result = true.
Proof.
  induction fuel as [|fuel IH]; intros text min_chars result Ht; cbn [pad_loop];
    destruct (len text <? min_chars)%Z.
  - discriminate.
  - intros [= <-]. exact Ht.
  - apply IH. apply strip_append_tidy; [exact Ht|].
    apply single_sep_slice_to, pad_single.
  - intros [= <-]. exact Ht.
Qed.

(** The text handed to the padding loop: [text], with [fallback] appended
    when [text] does not hold it. *)
Lemma with_fallback_tidy (text fallback sep : str) :
  ws_tidy text = true -> ws_tidy fallback = true ->
  single_sep is_space " "%char sep = true ->
  ws_tidy (strip (text ++ sep ++ fallback)) = true.
Proof.
  intros Ht Hf Hs. apply strip_append_tidy; [exact Ht|].
  apply tidy_parts in Hf as [P [S _]].
  rewrite single_sep_app, Hs, P, S, andb_false_r. reflexivity.
Qed.

Lemma expand_to_min_chars_tidy (fuel : nat) (text : str) (min_chars max_chars : Z)
    (fallback result : str) :
  expand_to_min_chars fuel text min_chars max_chars fallback = Some result ->
  ws_tidy result = true.
Proof.
  unfold expand_to_min_chars.
  destruct (min_chars <=? len (normalize_ws text))%Z.
  - intros [= <-]. apply trim_to_max_chars_tidy.
  - destruct (pad_loop fuel _ min_chars); [|discriminate].
    intros [= <-]. apply trim_to_max_chars_tidy.
Qed.

Lemma expand_to_min_chars_at_most (fuel : nat) (text : str)
    (min_chars max_chars : Z) (fallback result : str) :
  (0 <= max_chars)%Z ->
  expand_to_min_chars fuel text min_chars max_chars fallback = Some result ->
  (len result <= max_chars)%Z.
Proof.
  intro Hmax. unfold expand_to_min_chars.
  destruct (min_chars <=? len (normalize_ws text))%Z.
  - intros [= <-]. apply trim_to_max_chars_length, Hmax.
  - destruct (pad_loop fuel _ min_chars); [|discriminate].
    intros [= <-]. apply trim_to_max_chars_length, Hmax.
Qed.

(** A tidy text that is long enough and fits is returned as it is. *)
Lemma expand_to_min_chars_fixed (fuel : nat) (text : str)
    (min_chars max_chars : Z) (fallback : str) :
  ws_tidy text = true ->
  (min_chars <= len text)%Z -> (len text <= max_chars)%Z ->
  expand_to_min_chars fuel text min_chars max_chars fallback = Some text.
Proof.
  intros Ht Hmin Hmax. unfold expand_to_min_chars.
  rewrite (normalize_ws_id text Ht).
  apply Z.leb_le in Hmin. rewrite Hmin.
  rewrite (trim_to_max_chars_fits text max_chars Ht Hmax). reflexivity.
Qed.

(** C2, as the code has it.  For [min_chars <= max_chars] and a
    non-negative [max_chars]: a text whose normalised form already has
    [min_chars] characters is returned trimmed, whatever the fuel; every
    result has at most [max_chars] characters; and it has at least
    [min_chars] characters when the final trim has nothing to cut at a word
    boundary, that is when the normalised text fits in [max_chars]
    characters and, where the fallback is appended, still fits with it. *)
Theorem expand_to_min_chars_bounds
    (fuel : nat) (text : str) (min_chars max_chars : Z) (fallback : str) :
  (min_chars <= max_chars)%Z -> (0 <= max_chars)%Z ->
  let t := normalize_ws text in
  let f := normalize_ws fallback in
  ((min_chars <= len t)%Z ->
   expand_to_min_chars fuel text min_chars max_chars fallback
   = Some (trim_to_max_chars t max_chars))
  /\ forall result,
       expand_to_min_chars fuel text min_chars max_chars fallback = Some result ->
       (len result <= max_chars)%Z
       /\ ((len t <= max_chars)%Z ->
           ((len t < min_chars)%Z -> appends_fallback t f = true ->
            (len t + 1 + len f <= max_chars)%Z) ->
           (min_chars <= len result)%Z).
Proof.
  intros Hmm Hmax t f. split.
  - intro H. unfold expand_to_min_chars. fold t.
    apply Z.leb_le in H. rewrite H. reflexivity.
  - intros result Hres. split.
    + exact (expand_to_min_chars_at_most _ _ _ _ _ _ Hmax Hres).
    + intros Hfit Hfb. revert Hres. unfold expand_to_min_chars. cbv zeta.
      pose proof (normalize_ws_tidy text) as Tt.
      pose proof (normalize_ws_tidy fallback) as Tf.
      fold t f in Tt, Tf |- *.
      pose proof (len_nonneg f) as Nf.
      destruct (min_chars <=? len t)%Z eqn:E.
      * intros [= <-]. apply Z.leb_le in E.
        rewrite trim_to_max_chars_fits; [exact E | exact Tt | lia].
      * apply Z.leb_gt in E.
        match goal with
        | |- context [pad_loop fuel ?x min_chars] => set (t1 := x)
        end.
        assert (T1 : ws_tidy t1 = true).
        { unfold t1. destruct (negb (is_empty f) && negb (contains (lower t) (lower f))).
          - apply with_fallback_tidy; [exact Tt | exact Tf |].
            destruct (negb (is_empty t)); reflexivity.
          - exact Tt. }
        assert (L1 : (len t1 <= max_chars)%Z).
        { unfold t1. fold (appends_fallback t f).
          destruct (appends_fallback t f) eqn:A.
          - specialize (Hfb E eq_refl).
            pose proof (strip_length (t ++ (if negb (is_empty t) then lit " " else []) ++ f)) as Hs.
            rewrite !len_app in Hs.
            destruct (negb (is_empty t));
              [change (len (lit " ")) with 1%Z in Hs
              |change (len (@nil ascii)) with 0%Z in Hs]; lia.
          - lia. }
        destruct (pad_loop fuel t1 min_chars) as [r|] eqn:Hp; [|discriminate].
        intros [= <-].
        pose proof (pad_loop_tidy _ _ _ _ T1 Hp) as Tr.
        destruct (pad_loop_result _ _ _ _ Hp) as [[H1 ->] | [_ H2]].
        -- rewrite trim_to_max_chars_fits; [exact H1 | exact T1 | exact L1].
        -- rewrite trim_to_max_chars_fits; [lia | exact Tr | lia].
Qed.

Lemma expand_to_min_chars_bounds_witness :
  expand_to_min_chars 2 (lit "Ram  Thapa") 20 30 (lit "profile")
  = Some (lit "Ram Thapa profile St")
  /\ (len (lit "Ram Thapa profile St") <= 30)%Z
  /\ (20 <= len (lit "Ram Thapa profile St"))%Z.
Proof.
  pose proof (expand_to_min_chars_bounds 2 (lit "Ram  Thapa") 20 30 (lit "profile")
                ltac:(lia) ltac:(lia)) as [_ H].
  specialize (H (lit "Ram Thapa profile St") eq_refl) as [H1 H2].
  split; [reflexivity|]. split; [exact H1|].
  apply H2; [vm_compute; discriminate|].
  intros _ _. vm_compute. discriminate.
Defined.

(** C2, as the specification states it, fails: a text that is long enough
    is trimmed to the last word boundary before [max_chars], which can lie
    below [min_chars]; so it is in the window of 45 to 65 characters of the
    meta title. *)
Lemma expand_to_min_chars_below_min :
  (10 <= 12)%Z
  /\ expand_to_min_chars 100 (lit "aaaa bbbbbbbbbbbbbbbbbbbbbbb") 10 12 []
     = Some (lit "aaaa")
  /\ (len (lit "aaaa") < 10)%Z
  /\ expand_to_min_chars 100
       (lit "Thapa Kathmandu-constituency-candidate-profile-for-the-general-election")
       45 65 (lit "Thapa")
     = Some (lit "Thapa")
  /\ (len (lit "Thapa") < 45)%Z.
Proof.
  split; [lia|]. split; [reflexivity|]. split; [reflexivity|].
  split; reflexivity.
Qed.

(** ** Characters *)

Ltac by_cases_on_char c :=
  destruct c as [[] [] [] [] [] [] [] []]; vm_compute; try reflexivity;
  try discriminate; auto.

Lemma is_space_not_alnum (c : ascii) : is_space c = true -> is_alnum c = false.
Proof. by_cases_on_char c. Qed.

Lemma is_alnum_lower_char (c : ascii) : is_alnum c = true -> lower_char c = c.
Proof. by_cases_on_char c. Qed.


Lemma chr_eqb_eq (a b : ascii) : chr_eqb a b = true <-> a = b.
Proof. apply Ascii.eqb_eq. Qed.

Lemma chr_eqb_refl (a : ascii) : chr_eqb a a = true.
Proof. apply Ascii.eqb_refl. Qed.

Lemma str_eqb_eq (a b : str) : str_eqb a b = true <-> a = b.
Proof.
  revert b. induction a as [|x a IH]; intros [|y b]; simpl;
    try (split; [discriminate | congruence]); [tauto|].
  rewrite andb_true_iff, chr_eqb_eq, IH. split.
  - intros [-> ->]. reflexivity.
  - intros [= -> ->]. auto.
Qed.

Lemma str_eqb_refl (a : str) : str_eqb a a = true.
Proof. apply str_eqb_eq. reflexivity. Qed.

(** ** Separators and the characters that may be stripped *)

Section SeparatorOnly.

Variable cls : ascii -> bool.
Variable sep : ascii.
Variable q : ascii -> bool.
Hypothesis q_sep : q sep = true.

(** In a single-separator string, an end that [q] would not strip is not
    of the class. *)
Lemma single_sep_ends (s : str) :
  single_sep cls sep s = true ->
  ends_with_class q s = false -> ends_with_class cls s = false.
Proof.
  induction s as [|c s IH]; [reflexivity|].
  cbn [single_sep]. intros H E. apply andb_prop in H as [Hc Hs].
  rewrite ends_with_class_cons in *. destruct s as [|d s]; cbn [is_empty] in *.
  - destruct (cls c) eqn:Sc; [|reflexivity].
    simpl in Hc. apply andb_prop in Hc as [Hc _].
    apply chr_eqb_eq in Hc. subst c. congruence.
  - exact (IH Hs E).
Qed.

Lemma single_sep_starts (s : str) :
  single_sep cls sep s = true ->
  starts_with_class q s = false -> starts_with_class cls s = false.
Proof.
  destruct s as [|c s]; [reflexivity|].
  cbn [single_sep starts_with_class]. intros H E.
  apply andb_prop in H as [Hc _].
  destruct (cls c) eqn:Sc; [|reflexivity].
  simpl in Hc. apply andb_prop in Hc as [Hc _].
  apply chr_eqb_eq in Hc. subst c. congruence.
Qed.

Lemma tidy_strip_by_sep (s : str) :
  single_sep cls sep s = true -> tidy cls sep (strip_by q s) = true.
Proof.
  intro H. apply tidy_parts.
  pose proof (single_sep_strip_by cls sep q s H) as P.
  split; [exact P|]. split.
  - apply single_sep_starts; [exact P | apply strip_by_starts].
  - apply single_sep_ends; [exact P | apply strip_by_ends].
Qed.

End SeparatorOnly.

(** ** Kebab-case strings *)

Lemma starts_alnum_not (s : str) :
  starts_with_class is_alnum s
  = negb (is_empty s) && negb (starts_with_class not_alnum s).
Proof.
  destruct s as [|c s]; [reflexivity|]. simpl. unfold not_alnum.
  destruct (is_alnum c); reflexivity.
Qed.

Lemma kebab_rest_shape (s : str) :
  kebab_rest s
  = single_sep not_alnum "-"%char s && negb (ends_with_class not_alnum s).
Proof.
  induction s as [|c s IH]; [reflexivity|].
  cbn [kebab_rest single_sep]. rewrite ends_with_class_cons, IH, starts_alnum_not.
  assert (Hn : not_alnum c = negb (is_alnum c)) by reflexivity. rewrite !Hn.
  destruct (is_alnum c), (chr_eqb c "-"%char), s as [|d s];
    cbn [is_empty negb orb andb]; try reflexivity;
    destruct (starts_with_class not_alnum (d :: s)),
      (single_sep not_alnum "-"%char (d :: s)),
      (ends_with_class not_alnum (d :: s)); reflexivity.
Qed.

(** [fullmatch_kebab]: a non-empty string of [[a-z0-9]] and single hyphens,
    with no hyphen at either end. *)
Lemma fullmatch_kebab_tidy (s : str) :
  fullmatch_kebab s = negb (is_empty s) && tidy not_alnum "-"%char s.
Proof.
  unfold fullmatch_kebab, tidy. rewrite kebab_rest_shape, starts_alnum_not.
  destruct (is_empty s), (starts_with_class not_alnum s),
    (single_sep not_alnum "-"%char s), (ends_with_class not_alnum s);
    reflexivity.
Qed.

Lemma fullmatch_kebab_nonempty (s : str) :
  fullmatch_kebab s = true -> s <> [].
Proof. intros H ->. discriminate. Qed.

Lemma kebab_no_space (s : str) :
  single_sep not_alnum "-"%char s = true ->
  forallb (fun c => negb (is_space c)) s = true.
Proof.
  induction s as [|c s IH]; [reflexivity|].
  cbn [single_sep forallb]. intro H. apply andb_prop in H as [Hc Hs].
  rewrite (IH Hs), andb_true_r.
  destruct (is_space c) eqn:Sc; [|reflexivity].
  unfold not_alnum in Hc. rewrite (is_space_not_alnum c Sc) in Hc.
  simpl in Hc. apply andb_prop in Hc as [Hc _].
  apply chr_eqb_eq in Hc. subst c. discriminate.
Qed.

Lemma kebab_lower (s : str) :
  single_sep not_alnum "-"%char s = true -> lower s = s.
Proof.
  induction s as [|c s IH]; [reflexivity|].
  cbn [single_sep]. intro H. apply andb_prop in H as [Hc Hs].
  unfold lower in *. cbn [map]. rewrite (IH Hs). f_equal.
  unfold not_alnum in Hc. destruct (is_alnum c) eqn:Ac.
  - apply is_alnum_lower_char, Ac.
  - simpl in Hc. apply andb_prop in Hc as [Hc _].
    apply chr_eqb_eq in Hc. subst c. reflexivity.
Qed.

(** ** Runs of [[a-z0-9]] joined by hyphens *)

Lemma join_cons_char (sep : str) (c : ascii) (r : str) (rs : list str) :
  join sep ((c :: r) :: rs) = c :: join sep (r :: rs).
Proof. destruct rs; reflexivity. Qed.

Lemma join_cons_next (sep x y : str) (rest : list str) :
  join sep (x :: y :: rest) = x ++ sep ++ join sep (y :: rest).
Proof. reflexivity. Qed.

Lemma findall_runs_starts (p : ascii -> bool) (s : str) :
  starts_with_class p s = true -> findall_runs p s <> [].
Proof.
  destruct s as [|c s]; [discriminate|]. simpl. intros ->.
  destruct (starts_with_class p s); [destruct (findall_runs p s)|]; discriminate.
Qed.

(** The joined runs, when there are any, begin with a character of the
    class. *)
Lemma joined_runs_start (p : ascii -> bool) (sep : str) (s : str) :
  findall_runs p s = []
  \/ starts_with_class p (join sep (findall_runs p s)) = true.
Proof.
  induction s as [|c s IH]; [left; reflexivity|].
  cbn [findall_runs]. destruct (p c) eqn:Pc; [|exact IH]. right.
  destruct (starts_with_class p s).
  - destruct (findall_runs p s); [|rewrite join_cons_char]; simpl; exact Pc.
  - destruct (findall_runs p s); simpl; exact Pc.
Qed.

Lemma findall_runs_none (p : ascii -> bool) (s : str) :
  forallb (fun c => negb (p c)) s = true -> findall_runs p s = [].
Proof.
  induction s as [|c s IH]; [reflexivity|].
  simpl. intro H. apply andb_prop in H as [Hc Hs].
  destruct (p c); [discriminate | exact (IH Hs)].
Qed.

Lemma slug_join_tidy (s : str) :
  tidy not_alnum "-"%char (join (lit "-") (findall_alnum s)) = true.
Proof.
  unfold findall_alnum.
  assert (H : single_sep not_alnum "-"%char (join (lit "-") (findall_runs is_alnum s)) = true
              /\ ends_with_class not_alnum (join (lit "-") (findall_runs is_alnum s)) = false).
  { induction s as [|c s [IP IE]]; [split; reflexivity|].
    cbn [findall_runs]. destruct (is_alnum c) eqn:Ac; [|split; assumption].
    assert (Nc : not_alnum c = false) by (unfold not_alnum; rewrite Ac; reflexivity).
    destruct (starts_with_class is_alnum s) eqn:Ss.
    - pose proof (findall_runs_starts _ _ Ss) as Hne.
      destruct (findall_runs is_alnum s) as [|r rs] eqn:F; [congruence|].
      rewrite join_cons_char. cbn [single_sep]. rewrite Nc, IP.
      rewrite ends_with_class_cons, IE, Nc.
      split; [reflexivity | destruct (is_empty _); reflexivity].
    - destruct (joined_runs_start is_alnum (lit "-") s) as [F | F].
      + rewrite F. simpl. rewrite Nc. split; reflexivity.
      + destruct (findall_runs is_alnum s) as [|r rs] eqn:Fs.
        * simpl. rewrite Nc. split; reflexivity.
        * rewrite join_cons_next. set (rest := join (lit "-") (r :: rs)) in *.
          change ([c] ++ lit "-" ++ rest) with (c :: "-"%char :: rest).
          rewrite starts_alnum_not in F.
          apply andb_prop in F as [Fn Fs']. apply negb_true_iff in Fs'.
          cbn [single_sep]. rewrite Nc, Fs', IP.
          rewrite !ends_with_class_cons. cbn [is_empty].
          apply negb_true_iff in Fn. rewrite Fn, IE. split; reflexivity. }
  destruct H as [P E]. apply tidy_parts. split; [exact P|]. split; [|exact E].
  destruct (joined_runs_start is_alnum (lit "-") s) as [F | F].
  - rewrite F. reflexivity.
  - rewrite starts_alnum_not in F. apply andb_prop in F as [_ F].
    apply negb_true_iff in F. exact F.
Qed.

(** A kebab-case string is the hyphen-join of its own runs. *)
Lemma slug_join_kebab_rest (s : str) :
  kebab_rest s = true ->
  join (lit "-") (findall_alnum s) = drop_while (one_of (lit "-")) s.
Proof.
  unfold findall_alnum. induction s as [|c s IH]; [reflexivity|].
  cbn [kebab_rest findall_runs drop_while]. destruct (is_alnum c) eqn:Ac.
  - intro K. specialize (IH K).
    assert (Hc : one_of (lit "-") c = false).
    { destruct (one_of (lit "-") c) eqn:O; [|reflexivity].
      simpl in O. rewrite orb_false_r in O. apply chr_eqb_eq in O. subst c.
      discriminate. }
    rewrite Hc. destruct (starts_with_class is_alnum s) eqn:Ss.
    + pose proof (findall_runs_starts _ _ Ss) as Hne.
      destruct (findall_runs is_alnum s) as [|r rs] eqn:F; [congruence|].
      rewrite join_cons_char, IH. f_equal. apply drop_while_id.
      destruct s as [|d s]; [discriminate|]. simpl in *.
      destruct (chr_eqb d "-") eqn:D; [|reflexivity].
      apply chr_eqb_eq in D. subst d. discriminate.
    + destruct s as [|d s]; [reflexivity|].
      simpl in Ss. cbn [kebab_rest] in K. rewrite Ss in K.
      destruct (chr_eqb d "-"%char) eqn:D; [|discriminate].
      apply chr_eqb_eq in D. subst d.
      apply andb_prop in K as [K1 K2].
      cbn [drop_while] in IH. change (one_of (lit "-") "-"%char) with true in IH.
      cbv iota in IH.
      assert (Hs : drop_while (one_of (lit "-")) s = s).
      { apply drop_while_id. destruct s as [|e s]; [discriminate|].
        simpl in *. destruct (chr_eqb e "-") eqn:D; [|reflexivity].
        apply chr_eqb_eq in D. subst e. discriminate. }
      rewrite Hs in IH.
      destruct (findall_runs is_alnum ("-"%char :: s)) as [|r rs] eqn:F.
      * simpl in IH. subst s. discriminate.
      * rewrite join_cons_next, IH. reflexivity.
  - destruct (chr_eqb c "-"%char) eqn:D; [|discriminate].
    apply chr_eqb_eq in D. subst c. intro K. apply andb_prop in K as [_ K].
    change (one_of (lit "-") "-"%char) with true. cbv iota. exact (IH K).
Qed.

Lemma slug_join_kebab (s : str) :
  fullmatch_kebab s = true -> join (lit "-") (findall_alnum s) = s.
Proof.
  unfold fullmatch_kebab. intro H. apply andb_prop in H as [S K].
  rewrite (slug_join_kebab_rest s K). apply drop_while_id.
  destruct s as [|c s]; [discriminate|]. simpl in *.
  destruct (chr_eqb c "-") eqn:D; [|reflexivity].
  apply chr_eqb_eq in D. subst c. discriminate.
Qed.

(** ** [trim_slug] *)

Lemma trim_to_max_chars_prefix (text : str) (max_chars : Z) :
  exists b, normalize_ws text = trim_to_max_chars text max_chars ++ b.
Proof.
  unfold trim_to_max_chars. set (t := normalize_ws text).
  destruct (len t <=? max_chars)%Z.
  - exists []. rewrite app_nil_r. reflexivity.
  - destruct (slice_to_prefix t max_chars) as [b1 H1].
    destruct (rstrip_by_prefix is_space (slice_to t max_chars)) as [b2 [H2 _]].
    fold (rstrip (slice_to t max_chars)) in H2.
    set (clipped := rstrip (slice_to t max_chars)) in *.
    set (cut := if contains clipped (lit " ")
                then before_last " "%char clipped else clipped).
    assert (exists b, clipped = cut ++ b) as [b3 H3].
    { unfold cut. destruct (contains clipped (lit " ")).
      - apply before_last_prefix.
      - exists []. rewrite app_nil_r. reflexivity. }
    destruct (rstrip_by_prefix (one_of (lit " ,;:-")) cut) as [b4 [H4 _]].
    exists (b4 ++ b3 ++ b2 ++ b1).
    rewrite H1 at 1. rewrite H2 at 1. rewrite H3 at 1. rewrite H4 at 1.
    rewrite <- !app_assoc. reflexivity.
Qed.

Lemma normalize_ws_free (s : str) :
  forallb (fun c => negb (is_space c)) s = true -> normalize_ws s = s.
Proof.
  intro H. apply normalize_ws_id. unfold ws_tidy. apply tidy_free, H.
Qed.

(** What [trim_slug] keeps of the joined runs. *)
Lemma trimmed_slug_tidy (normalized : str) (max_chars : Z) :
  tidy not_alnum "-"%char normalized = true ->
  tidy not_alnum "-"%char
    (strip_by (one_of (lit "-")) (trim_to_max_chars normalized max_chars)) = true.
Proof.
  intro H. apply tidy_parts in H as [P _].
  apply tidy_strip_by_sep; [reflexivity|].
  destruct (trim_to_max_chars_prefix normalized max_chars) as [b Hb].
  rewrite (normalize_ws_free normalized (kebab_no_space _ P)) in Hb.
  rewrite Hb in P. exact (single_sep_prefix _ _ _ _ P).
Qed.

Lemma default_slug_kebab : fullmatch_kebab DEFAULT_SLUG = true.
Proof. reflexivity. Qed.

(** [trim_slug] returns a kebab-case string, whatever it is given. *)
Lemma trim_slug_kebab (slug : str) (max_chars : Z) :
  fullmatch_kebab (trim_slug slug max_chars) = true.
Proof.
  unfold trim_slug.
  set (normalized := join (lit "-") (findall_alnum (lower (normalize_ws slug)))).
  pose proof (trimmed_slug_tidy normalized max_chars
                (slug_join_tidy (lower (normalize_ws slug)))) as T.
  set (trimmed := strip_by (one_of (lit "-"))
                    (trim_to_max_chars normalized max_chars)) in *.
  destruct (is_empty trimmed) eqn:E; cbn [negb].
  - apply default_slug_kebab.
  - rewrite fullmatch_kebab_tidy, E, T. reflexivity.
Qed.

Lemma trim_slug_nonempty (slug : str) (max_chars : Z) :
  trim_slug slug max_chars <> [].
Proof. apply fullmatch_kebab_nonempty, trim_slug_kebab. Qed.

Lemma trim_slug_length (slug : str) :
  (len (trim_slug slug 120) <= 120)%Z.
Proof.
  unfold trim_slug.
  set (normalized := join (lit "-") (findall_alnum (lower (normalize_ws slug)))).
  destruct (is_empty _); cbn [negb].
  - vm_compute. discriminate.
  - pose proof (trim_to_max_chars_length normalized 120 ltac:(lia)).
    pose proof (strip_by_length (one_of (lit "-")) (trim_to_max_chars normalized 120)).
    unfold len in *. lia.
Qed.

Lemma sub_runs_space_chars (cls : ascii -> bool) (s : str) (c : ascii) :
  In c (sub_runs_space cls s) -> In c s \/ c = " "%char.
Proof.
  induction s as [|d s IH]; simpl; [tauto|].
  destruct (cls d); [destruct (starts_with_class cls s)|]; simpl;
    intuition auto.
Qed.

Lemma drop_while_chars (p : ascii -> bool) (s : str) (c : ascii) :
  In c (drop_while p s) -> In c s.
Proof.
  destruct (drop_while_suffix p s) as [a [Ha _]]. intro H.
  rewrite Ha. apply in_or_app. right. exact H.
Qed.

Lemma strip_by_chars (p : ascii -> bool) (s : str) (c : ascii) :
  In c (strip_by p s) -> In c s.
Proof.
  intro H. apply drop_while_chars in H.
  destruct (rstrip_by_prefix p s) as [b [Hb _]].
  rewrite Hb. apply in_or_app. left. exact H.
Qed.

Lemma normalize_ws_chars (s : str) (c : ascii) :
  In c (normalize_ws s) -> In c s \/ c = " "%char.
Proof.
  intro H. apply strip_by_chars in H. exact (sub_runs_space_chars _ _ _ H).
Qed.


(** A text without alphanumeric characters has no run to keep. *)
Lemma findall_alnum_no_alnum (s : str) :
  no_alnum s = true -> findall_alnum (lower (normalize_ws s)) = [].
Proof.
  intro H. apply findall_runs_none. apply forallb_forall.
  intros c Hc. unfold lower in Hc. apply in_map_iff in Hc as [d [<- Hd]].
  apply normalize_ws_chars in Hd as [Hd | ->]; [|reflexivity].
  unfold no_alnum in H. rewrite forallb_forall in H. exact (H d Hd).
Qed.

Lemma trim_to_max_chars_nil (max_chars : Z) : trim_to_max_chars [] max_chars = [].
Proof.
  unfold trim_to_max_chars. change (normalize_ws []) with (@nil ascii).
  destruct (len [] <=? max_chars)%Z; [reflexivity|].
  unfold slice_to. destruct (0 <=? max_chars)%Z; rewrite firstn_nil; reflexivity.
Qed.

(** [trim_slug] falls back to the default slug on a text without
    alphanumeric characters. *)
Lemma trim_slug_default (slug : str) (max_chars : Z) :
  no_alnum slug = true -> trim_slug slug max_chars = DEFAULT_SLUG.
Proof.
  intro H. unfold trim_slug. rewrite (findall_alnum_no_alnum slug H).
  cbn [join]. rewrite trim_to_max_chars_nil. reflexivity.
Qed.

(** [trim_slug] changes nothing in a kebab-case string that fits. *)
Lemma trim_slug_fixes_kebab (slug : str) (max_chars : Z) :
  fullmatch_kebab slug = true -> (len slug <= max_chars)%Z ->
  trim_slug slug max_chars = slug.
Proof.
  intros K L. pose proof K as K'.
  rewrite fullmatch_kebab_tidy in K'. apply andb_prop in K' as [Ne T].
  pose proof T as T'. apply tidy_parts in T' as [P [S E]].
  pose proof (kebab_no_space slug P) as Nsp.
  unfold trim_slug.
  rewrite (normalize_ws_free slug Nsp), (kebab_lower slug P), (slug_join_kebab slug K).
  rewrite trim_to_max_chars_fits;
    [| unfold ws_tidy; apply tidy_free, Nsp | exact L].
  rewrite strip_by_id.
  - rewrite Ne. reflexivity.
  - destruct slug as [|c s]; [reflexivity|]. simpl in *.
    destruct (chr_eqb c "-") eqn:D; [|reflexivity].
    apply chr_eqb_eq in D. subst c. discriminate.
  - clear - E. induction slug as [|c s IH]; [reflexivity|].
    rewrite ends_with_class_cons in *. destruct s; cbn [is_empty] in *.
    + simpl. destruct (chr_eqb c "-") eqn:D; [|reflexivity].
      apply chr_eqb_eq in D. subst c. discriminate.
    + exact (IH E).
Qed.

Lemma trim_slug_idempotent (slug : str) :
  trim_slug (trim_slug slug 120) 120 = trim_slug slug 120.
Proof.
  apply trim_slug_fixes_kebab; [apply trim_slug_kebab | apply trim_slug_length].
Qed.

(** C6 for [cybersecurity_autopost.trim_slug]: never an empty string, and
    the default slug when the text has no alphanumeric character. *)
Lemma trim_slug_never_empty (slug : str) (max_chars : Z) :
  trim_slug slug max_chars <> []
  /\ (no_alnum slug = true -> trim_slug slug max_chars = DEFAULT_SLUG).
Proof. split; [apply trim_slug_nonempty | apply trim_slug_default]. Qed.

(** C6 fails for [gemini_autopost.trim_slug], which has no default to fall
    back on: a text without alphanumeric characters gives the empty string,
    and [gemini_autopost.normalize_seo_fields] writes it as the slug of the
    draft. *)
Theorem gemini_trim_slug_empty :
  no_alnum (lit "!!!") = true
  /\ Gemini.trim_slug (lit "!!!") = []
  /\ trim_slug (lit "!!!") 120 = DEFAULT_SLUG
  /\ option_map (fun draft => dict_get draft (lit "slug"))
       (Gemini.normalize_seo_fields
          [(lit "status", JStr (lit "publish")); (lit "slug", JStr (lit "!!!"))])
     = Some (Some (JStr [])).
Proof.
  split; [reflexivity|]. split; [reflexivity|]. split; reflexivity.
Qed.

(** ** The retries of [run_gemini] *)

Section RetryFacts.

Import Gemini.

Variable service : nat -> api_reply.

Lemma rate_limited_429 (reply : api_reply) :
  rate_limited reply = true -> reply = ClientError 429.
Proof.
  destruct reply; try discriminate. simpl. intro H.
  apply Z.eqb_eq in H. subst. reflexivity.
Qed.

(** One turn of the loop on a reply that is not a rate-limit signal: the
    call is settled at once, without a wait. *)
Lemma retry_loop_settles (attempt : Z) (rest : list Z) (st : retry_state) :
  rate_limited (service (calls st)) = false ->
  retry_loop service max_retries base_wait (attempt :: rest) st
  = (settles (service (calls st)), mkRetry (S (calls st)) (sleeps st)).
Proof.
  intro H. cbn [retry_loop]. destruct (service (calls st)); try reflexivity.
  simpl in H. cbn [calls sleeps]. rewrite H. reflexivity.
Qed.

(** C7.  [run_gemini] calls the service again only after a rate-limit
    signal (code 429) and at most 3 times in all; before the call number
    [k + 1] it sleeps [base_wait * k] seconds.  The first reply that is not
    a rate-limit signal ends the calls at once: an answer is returned, any
    other failure is raised, with one wait recorded for every rate-limit
    signal before it.  A third rate-limit signal is raised as a failure
    without a further wait.  A failure raised ends [main] with exit code 1.
    In particular two rate-limit signals followed by an answer give that
    answer after the waits [base_wait] and [2 * base_wait], and the run goes
    on as it does on an answer at the first call. *)
Theorem run_gemini_retries :
  (* the first reply settles the call *)
  (rate_limited (service 0) = false ->
   run_gemini service = (settles (service 0), mkRetry 1 []))
  (* one rate-limit signal, then a reply that settles *)
  /\ (rate_limited (service 0) = true -> rate_limited (service 1) = false ->
      run_gemini service
      = (settles (service 1), mkRetry 2 [(base_wait * 1)%Z]))
  (* two rate-limit signals, then a reply that settles *)
  /\ (rate_limited (service 0) = true -> rate_limited (service 1) = true ->
      rate_limited (service 2) = false ->
      run_gemini service
      = (settles (service 2),
         mkRetry 3 [(base_wait * 1)%Z; (base_wait * 2)%Z]))
  (* the budget of 3 attempts is spent *)
  /\ (rate_limited (service 0) = true -> rate_limited (service 1) = true ->
      rate_limited (service 2) = true ->
      run_gemini service
      = (Raised RateLimitExceeded,
         mkRetry 3 [(base_wait * 1)%Z; (base_wait * 2)%Z]))
  (* a failure of the generation call is fatal for the run *)
  /\ (forall netloc env failure st,
        run_gemini service = (Raised failure, st) ->
        fst (main netloc env service) = 1%Z)
  (* rate-limited twice, answered on the third call *)
  /\ (forall netloc env titles cands payload,
        service 0%nat = ClientError 429 -> service 1%nat = ClientError 429 ->
        service 2%nat = Answer payload ->
        run_gemini service
        = (Returned payload, mkRetry 3 [(base_wait * 1)%Z; (base_wait * 2)%Z])
        /\ (api_key_given env = true ->
            titles_answer env = Some titles ->
            candidates_answer env = Some cands ->
            main netloc env service
            = (after_generation netloc env titles cands payload,
               [(base_wait * 1)%Z; (base_wait * 2)%Z]))).
Proof.
  change (base_wait * 1)%Z with 30%Z. change (base_wait * 2)%Z with 60%Z.
  assert (E : forall payload,
             service 0%nat = ClientError 429 -> service 1%nat = ClientError 429 ->
             service 2%nat = Answer payload ->
             run_gemini service = (Returned payload, mkRetry 3 [30%Z; 60%Z])).
  { intros payload H0 H1 H2. unfold run_gemini.
    change (range max_retries) with [0%Z; 1%Z; 2%Z].
    cbn [retry_loop calls sleeps]. rewrite H0.
    change (retry_loop service max_retries base_wait [1%Z; 2%Z] (mkRetry 1 [30%Z])
            = (Returned payload, mkRetry 3 [30%Z; 60%Z])).
    cbn [retry_loop calls sleeps]. rewrite H1.
    change (retry_loop service max_retries base_wait [2%Z] (mkRetry 2 [30%Z; 60%Z])
            = (Returned payload, mkRetry 3 [30%Z; 60%Z])).
    cbn [retry_loop calls sleeps]. rewrite H2. reflexivity. }
  unfold run_gemini in *.
  change (range max_retries) with [0%Z; 1%Z; 2%Z] in *.
  split; [|split; [|split; [|split; [|split]]]].
  - intro H0. apply retry_loop_settles. exact H0.
  - intros H0 H1. apply rate_limited_429 in H0.
    cbn [retry_loop calls sleeps]. rewrite H0.
    change (retry_loop service max_retries base_wait [1%Z; 2%Z] (mkRetry 1 [30%Z])
            = (settles (service 1%nat), mkRetry 2 [30%Z])).
    apply (retry_loop_settles 1 [2%Z] (mkRetry 1 [30%Z])). exact H1.
  - intros H0 H1 H2. apply rate_limited_429 in H0, H1.
    cbn [retry_loop calls sleeps]. rewrite H0.
    change (retry_loop service max_retries base_wait [1%Z; 2%Z] (mkRetry 1 [30%Z])
            = (settles (service 2%nat), mkRetry 3 [30%Z; 60%Z])).
    cbn [retry_loop calls sleeps]. rewrite H1.
    change (retry_loop service max_retries base_wait [2%Z] (mkRetry 2 [30%Z; 60%Z])
            = (settles (service 2%nat), mkRetry 3 [30%Z; 60%Z])).
    apply (retry_loop_settles 2 [] (mkRetry 2 [30%Z; 60%Z])). exact H2.
  - intros H0 H1 H2. apply rate_limited_429 in H0, H1, H2.
    cbn [retry_loop calls sleeps]. rewrite H0.
    change (retry_loop service max_retries base_wait [1%Z; 2%Z] (mkRetry 1 [30%Z])
            = (Raised RateLimitExceeded, mkRetry 3 [30%Z; 60%Z])).
    cbn [retry_loop calls sleeps]. rewrite H1.
    change (retry_loop service max_retries base_wait [2%Z] (mkRetry 2 [30%Z; 60%Z])
            = (Raised RateLimitExceeded, mkRetry 3 [30%Z; 60%Z])).
    cbn [retry_loop calls sleeps]. rewrite H2. reflexivity.
  - intros netloc env failure st H. unfold main, run_gemini.
    change (range max_retries) with [0%Z; 1%Z; 2%Z].
    destruct (api_key_given env); [|reflexivity]. cbn [negb].
    destruct (titles_answer env); [|reflexivity].
    destruct (candidates_answer env); [|reflexivity].
    rewrite H. reflexivity.
  - intros netloc env titles cands payload H0 H1 H2.
    split; [exact (E payload H0 H1 H2)|].
    intros Hk Ht Hc. unfold main, run_gemini.
    change (range max_retries) with [0%Z; 1%Z; 2%Z].
    rewrite Hk, Ht, Hc, (E payload H0 H1 H2). reflexivity.
Qed.

End RetryFacts.

Lemma run_gemini_retries_witness :
  Gemini.run_gemini scenario_E_service
  = (Gemini.Returned scenario_E_answer,
     Gemini.mkRetry 3 [(Gemini.base_wait * 1)%Z; (Gemini.base_wait * 2)%Z])
  /\ Gemini.main no_netloc scenario_E_env scenario_E_service
     = (0%Z, [(Gemini.base_wait * 1)%Z; (Gemini.base_wait * 2)%Z]).
Proof.
  destruct (run_gemini_retries scenario_E_service) as [_ [_ [_ [_ [_ H]]]]].
  destruct (H no_netloc scenario_E_env [] [] scenario_E_answer
              eq_refl eq_refl eq_refl) as [H1 H2].
  split; [exact H1 | exact (H2 eq_refl eq_refl eq_refl)].
Defined.

(** ** The lock *)

(** Closes a goal that has [HI : In e events] for an event that is not
    among the events listed. *)
Ltac not_among HI :=
  simpl in HI;
  repeat match type of HI with
  | _ \/ _ => destruct HI as [HI | HI]
  | In _ (map _ _) => apply in_map_iff in HI as [? [HI _]]
  | _ = _ => discriminate HI
  | False => destruct HI
  end.

(** Opens the body of the [try] block: one case for every way through it. *)
Ltac open_pipeline :=
  unfold pipeline;
  repeat match goal with
  | |- context [match ?x with _ => _ end] => destruct x eqn:?
  end;
  cbn [emit fst snd app].

Section LockFacts.

Variable netloc : str -> option str.

(** The body of the [try] block never touches the lock. *)
Lemma pipeline_leaves_lock (fuel : nat) (args : arguments) (env : collaborators) :
  ~ In LockCreate (snd (pipeline netloc fuel args env))
  /\ ~ In LockUnlink (snd (pipeline netloc fuel args env)).
Proof.
  open_pipeline; split; intro HI; not_among HI.
Qed.

Lemma stale_lock_replaced (stale_after_minutes : Z) (w : world) (mtime : Z) :
  lock_mtime w = Some mtime ->
  (now w - mtime > stale_after_minutes * 60)%Z ->
  acquire_lock stale_after_minutes w
  = (Acquired, set_lock w (Some (now w)), [LockUnlink; LockCreate]).
Proof.
  intros Hl Hage. unfold acquire_lock. rewrite Hl.
  destruct (now w - mtime >? stale_after_minutes * 60)%Z eqn:E.
  - reflexivity.
  - rewrite Z.gtb_ltb in E. apply Z.ltb_ge in E. lia.
Qed.

Lemma fresh_lock_held (stale_after_minutes : Z) (w : world) (mtime : Z) :
  lock_mtime w = Some mtime ->
  (now w - mtime <= stale_after_minutes * 60)%Z ->
  acquire_lock stale_after_minutes w = (LockHeld, w, []).
Proof.
  intros Hl Hage. unfold acquire_lock. rewrite Hl.
  destruct (now w - mtime >? stale_after_minutes * 60)%Z eqn:E.
  - apply Z.gtb_lt in E. lia.
  - reflexivity.
Qed.

(** C8, as the code has it.  [main] looks at the lock only after it has
    found the schema and the three helper scripts; where one of them is
    missing the run ends with exit code 1, whatever the marker, which it
    leaves in place.  Once they are found, a run that meets a marker whose
    age is at most the staleness threshold ends with exit code 0, leaves
    the world (and with it the marker) as it was and does nothing but write
    two log lines: no corpus read.  A run that meets an older marker deletes
    it and creates the lock, once: these are its first two effects and no
    further creation follows, however the run goes on, also when it does not
    end; a run that ends has deleted the marker it created. *)
Theorem lock_held_or_replaced
    (fuel : nat) (args : arguments) (env : collaborators) (w : world)
    (mtime : Z) :
  lock_mtime w = Some mtime ->
  let preflight :=
    schema_exists w && php_list_titles_exists w
    && php_list_candidates_exists w && php_insert_post_exists w in
  let threshold := (arg_stale_lock_minutes args * 60)%Z in
  (* the schema or a helper script is missing *)
  (preflight = false ->
   exists line,
     main netloc fuel args env w = (Exit 1, w, [Log line])
     /\ (line = LogSchemaNotFound \/ line = LogHelpersMissing))
  (* a marker that is not stale *)
  /\ (preflight = true -> (now w - mtime <= threshold)%Z ->
      main netloc fuel args env w
      = (Exit 0, w, [Log LogSkippingRun; Log LogJobFinished])
      /\ forall how w' events,
           main netloc fuel args env w = (how, w', events) ->
           how = Exit 0 /\ lock_mtime w' = Some mtime
           /\ ~ In ReadTitles events /\ ~ In ReadCandidates events
           /\ ~ In LockUnlink events /\ ~ In LockCreate events)
  (* a stale marker *)
  /\ (preflight = true -> (now w - mtime > threshold)%Z ->
      acquire_lock (arg_stale_lock_minutes args) w
      = (Acquired, set_lock w (Some (now w)), [LockUnlink; LockCreate])
      /\ exists how w' rest,
           main netloc fuel args env w
           = (how, w', LockUnlink :: LockCreate :: rest)
           /\ ~ In LockCreate rest
           /\ (how = StillRunning ->
               lock_mtime w' = Some (now w) /\ ~ In LockUnlink rest)
           /\ (forall code,
                 how = Exit code ->
                 lock_mtime w' = None
                 /\ exists before,
                      rest = before ++ [LockUnlink; Log LogJobFinished]
                      /\ ~ In LockUnlink before)).
Proof.
  intros Hl preflight threshold. subst preflight threshold.
  split; [|split].
  - intro Hp. unfold main.
    destruct (schema_exists w); cbn [negb andb] in *;
      [|exists LogSchemaNotFound; auto].
    exists LogHelpersMissing.
    destruct (php_list_titles_exists w), (php_list_candidates_exists w),
      (php_insert_post_exists w); try discriminate Hp; auto.
  - intros Hp Hage.
    apply andb_prop in Hp as [Hp Hi]. apply andb_prop in Hp as [Hp Hc].
    apply andb_prop in Hp as [Hs Ht].
    assert (Hm : main netloc fuel args env w
                 = (Exit 0, w, [Log LogSkippingRun; Log LogJobFinished])).
    { unfold main. rewrite Hs, Ht, Hc, Hi. cbn [negb orb].
      rewrite (fresh_lock_held _ _ _ Hl Hage). reflexivity. }
    split; [exact Hm|].
    intros how w' events H. rewrite Hm in H. injection H as <- <- <-.
    split; [reflexivity|]. split; [exact Hl|].
    repeat split; intro HI; not_among HI.
  - intros Hp Hage.
    apply andb_prop in Hp as [Hp Hi]. apply andb_prop in Hp as [Hp Hc].
    apply andb_prop in Hp as [Hs Ht].
    pose proof (stale_lock_replaced _ _ _ Hl Hage) as Ha.
    split; [exact Ha|].
    unfold main. rewrite Hs, Ht, Hc, Hi, Ha. cbn [negb orb].
    destruct (pipeline_leaves_lock fuel args env) as [N1 N2].
    destruct (pipeline netloc fuel args env) as [fl evs]. cbn [snd] in N1, N2.
    destruct fl as [code| |]; eexists; eexists; eexists;
      (split; [reflexivity|]).
    + split.
      { intro HI. apply in_app_or in HI as [HI | HI];
          [exact (N1 HI) | not_among HI]. }
      split; [discriminate|].
      intros code' _. split; [reflexivity|].
      exists evs. split; [reflexivity | exact N2].
    + split.
      { intro HI. apply in_app_or in HI as [HI | HI];
          [exact (N1 HI) | not_among HI]. }
      split; [discriminate|].
      intros code' _. split; [reflexivity|].
      exists (evs ++ [Log LogJobFailed]).
      split; [rewrite <- app_assoc; reflexivity|].
      intro HI. apply in_app_or in HI as [HI | HI];
        [exact (N2 HI) | not_among HI].
    + split; [exact N1|].
      split; [intros _; split; [reflexivity | exact N2]|].
      intros code' X. discriminate X.
Qed.

End LockFacts.

Lemma lock_held_or_replaced_witness :
  main no_netloc 0 scenario_D_args scenario_D_env scenario_D_world
  = (Exit 0, scenario_D_world, [Log LogSkippingRun; Log LogJobFinished])
  /\ (exists how w' rest,
        main no_netloc 0 scenario_D_args scenario_D_env stale_lock_world
        = (how, w', LockUnlink :: LockCreate :: rest)
        /\ ~ In LockCreate rest)
  /\ (exists how w' rest,
        main no_netloc 9 scenario_D_args title_of_44_env stale_lock_world
        = (how, w', LockUnlink :: LockCreate :: rest)
        /\ ~ In LockCreate rest).
Proof.
  split; [|split].
  - destruct (lock_held_or_replaced no_netloc 0 scenario_D_args scenario_D_env
                scenario_D_world 1000 eq_refl) as [_ [Fresh _]].
    apply Fresh; [reflexivity | vm_compute; discriminate].
  - destruct (lock_held_or_replaced no_netloc 0 scenario_D_args scenario_D_env
                stale_lock_world 1000 eq_refl) as [_ [_ Stale]].
    destruct (Stale eq_refl eq_refl) as [_ (how & w' & rest & M & N & _)].
    exists how, w', rest. split; [exact M | exact N].
  - destruct (lock_held_or_replaced no_netloc 9 scenario_D_args title_of_44_env
                stale_lock_world 1000 eq_refl) as [_ [_ Stale]].
    destruct (Stale eq_refl eq_refl) as [_ (how & w' & rest & M & N & _)].
    exists how, w', rest. split; [exact M | exact N].
Defined.

(** C8, as the specification states it, fails: a run that meets a marker
    10 minutes old, under a threshold of 120 minutes, ends with exit code 1
    when the schema is missing. *)
Lemma fresh_lock_without_schema :
  lock_mtime no_schema_world = Some 1000%Z
  /\ (now no_schema_world - 1000
      <= arg_stale_lock_minutes scenario_D_args * 60)%Z
  /\ forall fuel env,
       main no_netloc fuel scenario_D_args env no_schema_world
       = (Exit 1, no_schema_world, [Log LogSchemaNotFound]).
Proof.
  split; [reflexivity|]. split; [vm_compute; discriminate|].
  intros fuel env. reflexivity.
Qed.

(** A run that does not end has still replaced the stale marker, and holds
    the lock it created. *)
Lemma stale_lock_replaced_by_unfinished_run (fuel : nat) :
  main no_netloc fuel scenario_D_args title_of_44_env stale_lock_world
  = (StillRunning, set_lock stale_lock_world (Some 11800%Z),
     [LockUnlink; LockCreate; Log LogJobStarted; ReadTitles;
      Log (LogLoadedTitles 0); ReadCandidates; Log (LogLoadedCandidates 0);
      Log LogStartingCodex; RunCodex; Log LogCodexCompleted]).
Proof.
  assert (P : pipeline no_netloc fuel scenario_D_args title_of_44_env
              = (Unfinished,
                 [Log LogJobStarted; ReadTitles; Log (LogLoadedTitles 0);
                  ReadCandidates; Log (LogLoadedCandidates 0);
                  Log LogStartingCodex; RunCodex; Log LogCodexCompleted])).
  { unfold pipeline.
    cbn [titles_answer candidates_answer codex_answer title_of_44_env].
    rewrite (proj2 normalize_seo_fields_diverges fuel). reflexivity. }
  unfold main. rewrite P. reflexivity.
Qed.


(** ** [validate_payload]: which rules speak *)

Lemma when_filter (f : violation -> bool) (c : bool) (v : violation) :
  filter f (when c v) = if f v then when c v else [].
Proof. destruct c; simpl; destruct (f v); reflexivity. Qed.

Lemma if_filter (f : violation -> bool) (c : bool) (a b : list violation) :
  filter f (if c then a else b) = if c then filter f a else filter f b.
Proof. destruct c; reflexivity. Qed.

Lemma if_nil (c : bool) : (if c then @nil violation else []) = [].
Proof. destruct c; reflexivity. Qed.

Lemma check_facts_filter (f : violation -> bool) (mc i : Z) (facts : list json) :
  (forall i, f (KeyFactNotObject i) = false) ->
  (forall i, f (KeyFactConfidenceNotNumeric i) = false) ->
  (forall i, f (KeyFactTooFewUrls i) = false) ->
  (forall i c m, f (KeyFactLowConfidence i c m) = false) ->
  filter f (check_facts mc i facts) = [].
Proof.
  intros H1 H2 H3 H4. revert i.
  induction facts as [|fact facts IH]; intro i; [reflexivity|].
  cbn [check_facts]. rewrite filter_app, IH, app_nil_r.
  unfold check_fact. destruct fact; cbn [filter]; rewrite ?H1; try reflexivity.
  destruct (py_int _); cbn [filter]; rewrite ?H2; try reflexivity.
  rewrite filter_app, !when_filter, H3, H4. reflexivity.
Qed.

Lemma key_facts_filter (f : violation -> bool) (payload : dict) (mc : Z) :
  f KeyFactsEmpty = false ->
  (forall i, f (KeyFactNotObject i) = false) ->
  (forall i, f (KeyFactConfidenceNotNumeric i) = false) ->
  (forall i, f (KeyFactTooFewUrls i) = false) ->
  (forall i c m, f (KeyFactLowConfidence i c m) = false) ->
  filter f (key_facts_errors payload mc) = [].
Proof.
  intros H0 H1 H2 H3 H4. unfold key_facts_errors.
  destruct (get_or payload (lit "key_facts") (JList [])) as [| | | |[|fact facts]|];
    try (cbn [filter]; rewrite H0; reflexivity).
  apply check_facts_filter; assumption.
Qed.

Lemma key_facts_empty_filter (payload : dict) (mc : Z) :
  filter (of_rule KeyFactsEmpty) (key_facts_errors payload mc)
  = when (match get_or payload (lit "key_facts") (JList []) with
          | JList (_ :: _) => false
          | _ => true
          end) KeyFactsEmpty.
Proof.
  unfold key_facts_errors.
  destruct (get_or payload (lit "key_facts") (JList [])) as [| | | |[|fact facts]|];
    try reflexivity.
  apply check_facts_filter; intros; reflexivity.
Qed.

Lemma in_when (c : bool) (v : violation) : In v (when c v) <-> c = true.
Proof.
  destruct c; simpl; split; auto; try tauto; discriminate.
Qed.

Lemma in_via_filter (f : violation -> bool) (v : violation)
    (errs : list violation) (c : bool) :
  f v = true -> filter f errs = when c v -> (In v errs <-> c = true).
Proof.
  intros Hf Hp. rewrite <- in_when, <- Hp, filter_In. tauto.
Qed.

Lemma unsome {A : Type} (a b : A) : Some a = Some b -> a = b.
Proof. intros [= ->]. reflexivity. Qed.

(** The conditions of the rules in [H], set aside under names. *)
Ltac name_conditions H :=
  repeat match type of H with
  | context [when ?c _] =>
      tryif is_var c then fail
      else (let b := fresh "cond" in set (b := c) in H)
  end;
  repeat match type of H with
  | context [if ?c then _ else _] =>
      tryif is_var c then fail
      else (let b := fresh "cond" in set (b := c) in H)
  end.

(** Opens [validate_payload] on a draft whose status is [publish]: one case
    for every kind of value under [sources]; [H] becomes the list of
    violations in the order of the source. *)
Ltac open_validate Hs H :=
  let p := match type of H with validate_payload _ ?p _ _ _ _ = _ => p end in
  let mc := match type of H with validate_payload _ _ _ _ _ ?mc = _ => mc end in
  unfold validate_payload in H; rewrite Hs in H;
  change (eq_str (JStr (lit "publish")) (lit "publish")) with true in H;
  change (eq_str (JStr (lit "publish")) (lit "skip")) with false in H;
  cbv beta iota zeta in H;
  change (negb (true || false)) with false in H; cbv iota in H;
  let Esrc := fresh "Esrc" in
  let srcs := fresh "sources" in
  destruct (get_or _ (lit "sources") (JList [])) as [| | | |srcs|] eqn:Esrc;
  [ | | | |
    let Edom := fresh "Edom" in
    let doms := fresh "unique_domains" in
    destruct (unique_domains_of _ srcs) as [doms|] eqn:Edom;
    [|discriminate H];
    match type of H with
    | context [match ?o with Some _ => _ | None => None end] =>
        let Ein := fresh "Ein" in
        let ins := fresh "in_sources" in
        destruct o as [ins|] eqn:Ein; [|discriminate H]
    end
  | ];
  apply unsome in H;
  fold (key_facts_errors p mc) in H;
  name_conditions H.

Lemma if_when (a c : bool) (v : violation) :
  (if a then when c v else []) = when (a && c) v.
Proof. destruct a; reflexivity. Qed.

Lemma key_facts_all_filter (payload : dict) (mc : Z) :
  filter key_facts_rule (key_facts_errors payload mc)
  = key_facts_errors payload mc.
Proof.
  unfold key_facts_errors.
  destruct (get_or payload (lit "key_facts") (JList [])) as [| | | |[|fact facts]|];
    try reflexivity.
  generalize 1%Z. induction (fact :: facts) as [|x l IH]; intro i; [reflexivity|].
  cbn [check_facts]. rewrite filter_app, IH. f_equal.
  unfold check_fact. destruct x; try reflexivity.
  destruct (py_int _); [|reflexivity].
  rewrite filter_app, !when_filter. reflexivity.
Qed.


(** Computes [filter f] of an opened list of violations. *)
Ltac project_rules :=
  repeat (rewrite filter_app || rewrite when_filter || rewrite if_filter);
  rewrite ?key_facts_filter by (intros; reflexivity);
  rewrite ?key_facts_empty_filter;
  rewrite ?key_facts_all_filter;
  cbn [filter of_rule rule_number title_rule sources_rule key_facts_rule
       Nat.eqb Nat.leb];
  rewrite ?app_nil_r; cbn [app];
  repeat rewrite if_nil;
  rewrite ?app_nil_r; cbn [app];
  rewrite ?if_when.








Section ValidationFacts.

Variable netloc : str -> option str.


(** The two rules on the number of sources and of their domains. *)
Lemma sources_rules_alone (payload : dict) (titles cands : list str) (ms mc : Z)
    (errs : list violation) (sources : list json) (domains : list str) :
  get_or payload (lit "status") JNull = JStr (lit "publish") ->
  get_or payload (lit "sources") (JList []) = JList sources ->
  unique_domains_of netloc sources = Some domains ->
  validate_payload netloc payload titles cands ms mc = Some errs ->
  filter sources_rule errs
  = when (len_list sources <? ms)%Z (TooFewSources ms (len_list sources))
    ++ when (len_list domains <? ms)%Z (TooFewDomains ms (len_list domains)).
Proof.
  intros Hs Hsrc Hdom H. open_validate Hs H; try discriminate Hsrc.
  injection Hsrc as <-. rewrite Hdom in Edom. injection Edom as <-.
  rewrite <- H. project_rules. reflexivity.
Qed.





End ValidationFacts.



(** The chain on one fact: a confidence that is not a number hides that
    the fact names no supporting URL. *)
Example unrated_fact_reported_once :
  validate_payload no_netloc unrated_fact_draft [] [] 12 85
  = Some [KeyFactConfidenceNotNumeric 1].
Proof. vm_compute. reflexivity. Qed.

(** The test of [sources]: the rules after it are not evaluated, here on a
    draft that lacks nothing but its title and the list of its sources. *)
Example unlisted_sources_end_evaluation :
  validate_payload no_netloc unlisted_sources_draft [] [] 12 85
  = Some [MissingTitle; SourcesNotList].
Proof. vm_compute. reflexivity. Qed.

(** ** Scenarios A and B *)

Example scenario_A_accepted :
  validate_payload no_netloc scenario_A [] [] 12 85 = Some [].
Proof. vm_compute. reflexivity. Qed.

Lemma sources_B_counts :
  len_list sources_B = 15%Z
  /\ unique_domains_of no_netloc sources_B
     = Some (map lit ["kathmandupost.example"; "onlinekhabar.example";
                      "setopati.example"; "ratopati.example";
                      "nepalitimes.example"]%string).
Proof. split; vm_compute; reflexivity. Qed.

Lemma forallb_filter_id {A : Type} (f : A -> bool) (l : list A) :
  forallb f l = true -> filter f l = l.
Proof.
  induction l as [|x l IH]; [reflexivity|]. simpl. intro H.
  apply andb_prop in H as [Hx Hl]. rewrite Hx, (IH Hl). reflexivity.
Qed.

(** C4, as the code has it.  A draft with 15 sources from 5 distinct
    domains, validated with [min_sources = 12], meets the rule on the number
    of sources and breaks the rule on the number of domains; when it passes
    every other rule, the domain violation is the only one. *)
Theorem fifteen_sources_five_domains
    (netloc : str -> option str) (payload : dict) (titles cands : list str)
    (mc : Z) (errs : list violation) (sources : list json)
    (domains : list str) :
  get_or payload (lit "status") JNull = JStr (lit "publish") ->
  get_or payload (lit "sources") (JList []) = JList sources ->
  len_list sources = 15%Z ->
  unique_domains_of netloc sources = Some domains ->
  len_list domains = 5%Z ->
  validate_payload netloc payload titles cands 12 mc = Some errs ->
  filter sources_rule errs = [TooFewDomains 12 5]
  /\ (forallb sources_rule errs = true ->
      errs = [TooFewDomains 12 5] /\ List.length errs = 1%nat).
Proof.
  intros Hs Hsrc Hn Hdom Hd H.
  pose proof (sources_rules_alone netloc _ _ _ _ _ _ _ _ Hs Hsrc Hdom H) as P.
  rewrite Hn, Hd in P. cbn in P. split; [exact P|].
  intro Hall. rewrite (forallb_filter_id _ _ Hall) in P. subst errs.
  split; reflexivity.
Qed.

Lemma fifteen_sources_five_domains_witness :
  validate_payload no_netloc scenario_B [] [] 12 85 = Some [TooFewDomains 12 5]
  /\ List.length [TooFewDomains 12 5] = 1%nat.
Proof.
  assert (H : validate_payload no_netloc scenario_B [] [] 12 85
              = Some [TooFewDomains 12 5]) by (vm_compute; reflexivity).
  split; [exact H|].
  destruct sources_B_counts as [Hn Hdom].
  destruct (fifteen_sources_five_domains no_netloc scenario_B [] [] 85
              [TooFewDomains 12 5] sources_B _ eq_refl eq_refl Hn Hdom
              eq_refl H) as [_ Hone].
  exact (proj2 (Hone eq_refl)).
Defined.

(** C4, as the specification states it, fails: scenario B gives one
    violation, on the number of domains, and none on the number of sources,
    of which there are 15 where 12 are asked for. *)
Lemma scenario_B_one_violation :
  len_list sources_B = 15%Z
  /\ option_map (@List.length str) (unique_domains_of no_netloc sources_B)
     = Some 5%nat
  /\ validate_payload no_netloc scenario_A [] [] 12 85 = Some []
  /\ validate_payload no_netloc scenario_B [] [] 12 85
     = Some [TooFewDomains 12 5]
  /\ List.length [TooFewDomains 12 5] <> 2%nat.
Proof.
  split; [vm_compute; reflexivity|]. split; [vm_compute; reflexivity|].
  split; [vm_compute; reflexivity|]. split; [vm_compute; reflexivity|].
  discriminate.
Qed.

(** ** Drafts that decline *)

(** C5.  On a draft whose status is [skip] both validators look at the
    reason and at nothing else: the result is the one violation for the
    reason when it is empty or missing, and no violation otherwise, whatever
    the other fields, the corpus and the thresholds. *)
Theorem skip_draft_short_circuits
    (netloc : str -> option str) (payload : dict) :
  get_or payload (lit "status") JNull = JStr (lit "skip") ->
  (forall titles cands ms mc,
     validate_payload netloc payload titles cands ms mc
     = Some (when (is_empty (strip (field_str payload "reason")))
               SkipWithoutReason))
  /\ (forall titles cands ms,
        Gemini.validate_payload netloc payload titles cands ms
        = Some (if negb (truthy (get_or payload (lit "reason") JNull))
                then [Gemini.SkipReasonMissing] else []))
  /\ (dict_get payload (lit "reason") = None
      \/ dict_get payload (lit "reason") = Some (JStr []) ->
      (forall titles cands ms mc,
         validate_payload netloc payload titles cands ms mc
         = Some [SkipWithoutReason])
      /\ (forall titles cands ms,
            Gemini.validate_payload netloc payload titles cands ms
            = Some [Gemini.SkipReasonMissing])).
Proof.
  intro Hs.
  assert (C : forall titles cands ms mc,
             validate_payload netloc payload titles cands ms mc
             = Some (when (is_empty (strip (field_str payload "reason")))
                       SkipWithoutReason)).
  { intros. unfold validate_payload. rewrite Hs. reflexivity. }
  assert (G : forall titles cands ms,
             Gemini.validate_payload netloc payload titles cands ms
             = Some (if negb (truthy (get_or payload (lit "reason") JNull))
                     then [Gemini.SkipReasonMissing] else [])).
  { intros. unfold Gemini.validate_payload. rewrite Hs. reflexivity. }
  split; [exact C|]. split; [exact G|].
  intro Hr. split; intros.
  - rewrite C. unfold field_str, get_or.
    destruct Hr as [-> | ->]; reflexivity.
  - rewrite G. unfold get_or. destruct Hr as [-> | ->]; reflexivity.
Qed.

Lemma skip_draft_short_circuits_witness :
  validate_payload no_netloc [(lit "status", JStr (lit "skip"))] [] [] 12 85
  = Some [SkipWithoutReason]
  /\ Gemini.validate_payload no_netloc [(lit "status", JStr (lit "skip"))] [] [] 8
     = Some [Gemini.SkipReasonMissing].
Proof.
  destruct (skip_draft_short_circuits no_netloc
              [(lit "status", JStr (lit "skip"))] eq_refl) as [_ [_ H]].
  destruct (H (or_introl eq_refl)) as [H1 H2].
  split; [apply H1 | apply H2].
Defined.

(** ** Dictionaries *)

Lemma dict_get_set_same (d : dict) (k : str) (v : json) :
  dict_get (dict_set d k v) k = Some v.
Proof.
  induction d as [|[e w] d IH]; simpl.
  - rewrite str_eqb_refl. reflexivity.
  - destruct (str_eqb e k) eqn:E; simpl; rewrite E; [reflexivity | exact IH].
Qed.

Lemma dict_get_set_other (d : dict) (k k' : str) (v : json) :
  str_eqb k k' = false ->
  dict_get (dict_set d k v) k' = dict_get d k'.
Proof.
  intro N. induction d as [|[e w] d IH]; simpl.
  - rewrite N. reflexivity.
  - destruct (str_eqb e k) eqn:E; simpl.
    + apply str_eqb_eq in E. subst e. rewrite N. reflexivity.
    + destruct (str_eqb e k'); [reflexivity | exact IH].
Qed.

(** Writing the value a key already has changes nothing. *)
Lemma dict_set_same_value (d : dict) (k : str) (v : json) :
  dict_get d k = Some v -> dict_set d k v = d.
Proof.
  induction d as [|[e w] d IH]; simpl; [discriminate|].
  destruct (str_eqb e k).
  - intros [= ->]. reflexivity.
  - intro H. rewrite (IH H). reflexivity.
Qed.


Lemma get_or_set_other (d : dict) (k k' : str) (v default : json) :
  str_eqb k k' = false ->
  get_or (dict_set d k v) k' default = get_or d k' default.
Proof. intro N. unfold get_or. rewrite (dict_get_set_other d k k' v N). reflexivity. Qed.

(** ** The slug [normalize_seo_fields] writes *)


Lemma strip_kebab (s : str) : fullmatch_kebab s = true -> strip s = s.
Proof.
  intro K. rewrite fullmatch_kebab_tidy in K. apply andb_prop in K as [_ T].
  apply tidy_parts in T as [P _]. pose proof (kebab_no_space s P) as N.
  unfold strip. apply strip_by_id; [apply starts_free | apply ends_free]; exact N.
Qed.

(** ** Applying [normalize_seo_fields] twice *)

Lemma get_or_some (d : dict) (k : str) (v default : json) :
  dict_get d k = Some v -> get_or d k default = v.
Proof. unfold get_or. intros ->. reflexivity. Qed.

Lemma normalize_ws_json_str (s : str) :
  normalize_ws_json (JStr s) = normalize_ws s.
Proof.
  unfold normalize_ws_json, str_or_empty. simpl.
  destruct s; reflexivity.
Qed.

Lemma str_or_empty_str (s : str) : str_or_empty (JStr s) = s.
Proof. unfold str_or_empty. simpl. destruct s; reflexivity. Qed.

Lemma is_empty_false {A : Type} (l : list A) : l <> [] -> is_empty l = false.
Proof. destruct l; [congruence | reflexivity]. Qed.

Lemma len_positive_nonempty (s : str) (n : Z) :
  (0 < n)%Z -> (n <= len s)%Z -> s <> [].
Proof. intros Hn Hl ->. unfold len in Hl. simpl in Hl. lia. Qed.

Lemma or_str_left (a b : str) : a <> [] -> or_str a b = a.
Proof. intro H. unfold or_str. rewrite (is_empty_false a H). reflexivity. Qed.

Lemma normalize_ws_kebab (s : str) : fullmatch_kebab s = true -> normalize_ws s = s.
Proof.
  intro K. rewrite fullmatch_kebab_tidy in K. apply andb_prop in K as [_ T].
  apply tidy_parts in T as [P _]. apply normalize_ws_free, kebab_no_space, P.
Qed.

(** A normalised draft that meets the SEO rules on the two meta fields and
    on the slug is a fixed point of [normalize_seo_fields]. *)
Lemma normalize_seo_fields_fixed
    (fuel : nat) (out seo : dict) (keyphrase meta_title meta_description slug : str) :
  get_or out (lit "status") JNull = JStr (lit "publish") ->
  dict_get out (lit "seo") = Some (JObj seo) ->
  dict_get out (lit "slug") = Some (JStr slug) ->
  dict_get seo (lit "focus_keyphrase") = Some (JStr keyphrase) ->
  dict_get seo (lit "meta_title") = Some (JStr meta_title) ->
  dict_get seo (lit "meta_description") = Some (JStr meta_description) ->
  dict_get seo (lit "seo_slug_hint") = Some (JStr slug) ->
  ws_tidy keyphrase = true -> keyphrase <> [] ->
  ws_tidy meta_title = true ->
  (45 <= len meta_title <= 65)%Z ->
  contains (lower meta_title) (lower keyphrase) = true ->
  ws_tidy meta_description = true ->
  (130 <= len meta_description <= 170)%Z ->
  contains (lower meta_description) (lower keyphrase) = true ->
  fullmatch_kebab slug = true -> (len slug <= 120)%Z ->
  negb (is_empty (slug_form keyphrase)) && negb (contains slug (slug_form keyphrase))
  = false ->
  normalize_seo_fields fuel out = Some out.
Proof.
  intros Hst Hseo Hslug Hk Hmt Hmd Hh Tk Nk Tmt Lmt Cmt Tmd Lmd Cmd Ks Ls Cs.
  unfold normalize_seo_fields. rewrite Hst.
  change (negb (eq_str (JStr (lit "publish")) (lit "publish"))) with false.
  cbv beta iota zeta.
  rewrite Hseo. cbv beta iota.
  rewrite (get_or_some seo _ _ (JStr []) Hk), normalize_ws_json_str.
  rewrite (normalize_ws_id keyphrase Tk), (is_empty_false keyphrase Nk).
  cbv beta iota.
  rewrite (dict_set_same_value seo _ _ Hk).
  rewrite (get_or_some seo _ _ (JStr []) Hmt), normalize_ws_json_str.
  rewrite (normalize_ws_id meta_title Tmt).
  assert (Nmt : meta_title <> []) by (apply (len_positive_nonempty _ 45); lia).
  assert (Nmd : meta_description <> []) by (apply (len_positive_nonempty _ 130); lia).
  pose proof (fullmatch_kebab_nonempty slug Ks) as Ns.
  rewrite (or_str_left meta_title _ Nmt), Cmt. cbn [negb].
  rewrite (expand_to_min_chars_fixed fuel meta_title 45 65 _ Tmt)
    by (apply Lmt).
  rewrite (dict_set_same_value seo _ _ Hmt).
  rewrite (get_or_some seo _ _ (JStr []) Hmd), normalize_ws_json_str.
  rewrite (normalize_ws_id meta_description Tmd).
  rewrite (or_str_left meta_description _ Nmd), Cmd. cbn [negb].
  rewrite (expand_to_min_chars_fixed fuel meta_description 130 170 _ Tmd)
    by (apply Lmd).
  rewrite (dict_set_same_value seo _ _ Hmd).
  rewrite (get_or_some seo _ _ (JStr []) Hh), normalize_ws_json_str.
  rewrite (normalize_ws_kebab slug Ks), (is_empty_false slug Ns).
  rewrite (get_or_some out _ _ (JStr []) Hslug), str_or_empty_str.
  rewrite (trim_slug_fixes_kebab slug 120 Ks Ls), Cs.
  rewrite !(dict_set_same_value seo _ _ Hh).
  rewrite (dict_set_same_value out _ _ Hseo).
  rewrite (dict_set_same_value out _ _ Hslug).
  reflexivity.
Qed.

(** The runs [re.findall] returns are non-empty and of the class. *)
Lemma findall_runs_class (p : ascii -> bool) (s : str) :
  Forall (fun r => r <> [] /\ forallb p r = true) (findall_runs p s).
Proof.
  induction s as [|c s IH]; [constructor|].
  cbn [findall_runs]. destruct (p c) eqn:Pc; [|exact IH].
  destruct (starts_with_class p s).
  - destruct (findall_runs p s) as [|r rs].
    + constructor; [|constructor]. split; [discriminate|]. simpl. rewrite Pc. reflexivity.
    + inversion IH as [|? ? [Hr1 Hr2] Hrs]; subst. constructor; [|exact Hrs].
      split; [discriminate|]. simpl. rewrite Pc, Hr2. reflexivity.
  - constructor; [|exact IH]. split; [discriminate|]. simpl. rewrite Pc. reflexivity.
Qed.

Lemma Forall_filter_keep {A : Type} (P : A -> Prop) (f : A -> bool) (l : list A) :
  Forall P l -> Forall P (filter f l).
Proof.
  induction 1 as [|x l Hx Hl IH]; simpl; [constructor|].
  destruct (f x); [constructor|]; assumption.
Qed.

Lemma Forall_firstn_keep {A : Type} (P : A -> Prop) (n : nat) (l : list A) :
  Forall P l -> Forall P (firstn n l).
Proof.
  intro H. revert n. induction H as [|x l Hx Hl IH]; intros [|n]; simpl;
    constructor; auto.
Qed.

Lemma alnum_word_no_space (w : str) :
  forallb is_alnum w = true -> forallb (fun c => negb (is_space c)) w = true.
Proof.
  induction w as [|c w IH]; [reflexivity|]. simpl. intro H.
  apply andb_prop in H as [Hc Hw]. rewrite (IH Hw), andb_true_r.
  destruct (is_space c) eqn:S; [|reflexivity].
  rewrite (is_space_not_alnum c S) in Hc. discriminate.
Qed.

(** Words joined by single spaces have the shape [normalize_ws] produces. *)
Lemma join_words_tidy (words : list str) :
  Forall (fun w => w <> [] /\ forallb is_alnum w = true) words ->
  ws_tidy (join (lit " ") words) = true.
Proof.
  induction 1 as [|w rest [Nw Aw] Hrest IH]; [reflexivity|].
  destruct rest as [|w' rest'].
  - simpl. unfold ws_tidy. apply tidy_free, alnum_word_no_space, Aw.
  - rewrite join_cons_next. unfold ws_tidy.
    apply (tidy_app_sep is_space " "%char); try assumption.
    + reflexivity.
    + apply tidy_free, alnum_word_no_space, Aw.
    + inversion Hrest as [|? ? [Nw' _] _]; subst.
      destruct rest'; [exact Nw'|]. rewrite join_cons_next.
      destruct w'; [congruence | discriminate].
Qed.

(** The focus keyphrase [normalize_seo_fields] settles on is never empty and
    has the shape [normalize_ws] produces. *)
Lemma chosen_keyphrase_tidy (given : json) (title : str) :
  let keyphrase :=
    if is_empty (normalize_ws_json given) then
      or_str
        (join (lit " ")
           (firstn 4 (filter (fun w => (2 <? len w)%Z)
                        (findall_alnum (lower title)))))
        (lit "nepal election candidate profile")
    else normalize_ws_json given in
  ws_tidy keyphrase = true /\ keyphrase <> [].
Proof.
  cbv zeta. destruct (is_empty (normalize_ws_json given)) eqn:E.
  - unfold or_str.
    destruct (is_empty (join _ _)) eqn:J; cbn [negb].
    + split; [reflexivity | discriminate].
    + split.
      * apply join_words_tidy, Forall_firstn_keep, Forall_filter_keep.
        apply findall_runs_class.
      * intro H. rewrite H in J. discriminate.
  - split.
    + unfold normalize_ws_json. apply normalize_ws_tidy.
    + intro H. rewrite H in E. discriminate.
Qed.

Lemma chosen_slug_kebab (c : bool) (a b : str) :
  fullmatch_kebab (if c then trim_slug a 120 else trim_slug b 120) = true
  /\ (len (if c then trim_slug a 120 else trim_slug b 120) <= 120)%Z.
Proof.
  destruct c; split; (apply trim_slug_kebab || apply trim_slug_length).
Qed.

(** What a first application of [normalize_seo_fields] leaves in a draft to
    publish. *)
Lemma normalize_seo_fields_output (fuel : nat) (payload out : dict) :
  get_or payload (lit "status") JNull = JStr (lit "publish") ->
  normalize_seo_fields fuel payload = Some out ->
  exists (seo : dict) (keyphrase meta_title meta_description slug : str),
    get_or out (lit "status") JNull = JStr (lit "publish")
    /\ dict_get out (lit "seo") = Some (JObj seo)
    /\ dict_get out (lit "slug") = Some (JStr slug)
    /\ dict_get seo (lit "focus_keyphrase") = Some (JStr keyphrase)
    /\ dict_get seo (lit "meta_title") = Some (JStr meta_title)
    /\ dict_get seo (lit "meta_description") = Some (JStr meta_description)
    /\ dict_get seo (lit "seo_slug_hint") = Some (JStr slug)
    /\ (ws_tidy keyphrase = true /\ keyphrase <> [])
    /\ (ws_tidy meta_title = true /\ (len meta_title <= 65)%Z)
    /\ (ws_tidy meta_description = true /\ (len meta_description <= 170)%Z)
    /\ (fullmatch_kebab slug = true /\ (len slug <= 120)%Z).
Proof.
  intros Hs H. unfold normalize_seo_fields in H. rewrite Hs in H.
  change (negb (eq_str (JStr (lit "publish")) (lit "publish"))) with false in H.
  cbv beta iota zeta in H.
  match type of H with
  | context [match ?e with Some _ => _ | None => None end] =>
      destruct e as [meta_title|] eqn:Emt; [|discriminate H]
  end.
  match type of H with
  | context [match ?e with Some _ => _ | None => None end] =>
      destruct e as [meta_description|] eqn:Emd; [|discriminate H]
  end.
  apply unsome in H.
  match type of H with
  | dict_set (dict_set _ _ (JObj ?seo5)) _ (JStr ?S) = _ =>
      match seo5 with
      | dict_set (dict_set (dict_set (dict_set (dict_set _ _ (JStr ?fk)) _ _) _ _) _ _) _ _ =>
          exists seo5, fk, meta_title, meta_description, S
      end
  end.
  rewrite <- H.
  split; [rewrite !get_or_set_other by reflexivity; exact Hs|].
  split; [rewrite dict_get_set_other by reflexivity; apply dict_get_set_same|].
  split; [apply dict_get_set_same|].
  split; [rewrite !dict_get_set_other by reflexivity; apply dict_get_set_same|].
  split; [rewrite !dict_get_set_other by reflexivity; apply dict_get_set_same|].
  split; [rewrite !dict_get_set_other by reflexivity; apply dict_get_set_same|].
  split; [apply dict_get_set_same|].
  split; [apply chosen_keyphrase_tidy|].
  split; [split; [exact (expand_to_min_chars_tidy _ _ _ _ _ _ Emt)
                 |apply (expand_to_min_chars_at_most _ _ _ 65 _ _ ltac:(lia) Emt)]|].
  split; [split; [exact (expand_to_min_chars_tidy _ _ _ _ _ _ Emd)
                 |apply (expand_to_min_chars_at_most _ _ _ 170 _ _ ltac:(lia) Emd)]|].
  apply chosen_slug_kebab.
Qed.

(** ** The slug of a normalised draft *)







(** C9, as the code has it.  [normalize_seo_fields] returns a draft whose
    status is not [publish], a [skip] draft among them, as it is.  Applied to
    its own output on a draft to publish it changes nothing provided that
    output meets the SEO rules of the validator on the fields it has just
    written: the meta title has at least 45 characters, the meta description
    at least 130, both hold the focus keyphrase, and the slug holds the
    keyphrase in its slug form. *)
Theorem normalize_seo_fields_twice :
  (forall fuel payload,
     get_or payload (lit "status") JNull = JStr (lit "skip") ->
     normalize_seo_fields fuel payload = Some payload)
  /\ (forall fuel payload,
        eq_str (get_or payload (lit "status") JNull) (lit "publish") = false ->
        normalize_seo_fields fuel payload = Some payload)
  /\ (forall fuel payload out,
        get_or payload (lit "status") JNull = JStr (lit "publish") ->
        normalize_seo_fields fuel payload = Some out ->
        let seo := object_at out "seo" in
        let keyphrase := field_str seo "focus_keyphrase" in
        let meta_title := field_str seo "meta_title" in
        let meta_description := field_str seo "meta_description" in
        let slug := field_str out "slug" in
        (45 <= len meta_title)%Z ->
        contains (lower meta_title) (lower keyphrase) = true ->
        (130 <= len meta_description)%Z ->
        contains (lower meta_description) (lower keyphrase) = true ->
        negb (is_empty (slug_form keyphrase))
        && negb (contains slug (slug_form keyphrase)) = false ->
        forall fuel', normalize_seo_fields fuel' out = Some out).
Proof.
  assert (Other : forall fuel payload,
            eq_str (get_or payload (lit "status") JNull) (lit "publish") = false ->
            normalize_seo_fields fuel payload = Some payload).
  { intros fuel payload H. unfold normalize_seo_fields. rewrite H. reflexivity. }
  split; [|split; [exact Other|]].
  - intros fuel payload H. apply Other. rewrite H. reflexivity.
  - intros fuel payload out Hs H.
    destruct (normalize_seo_fields_output fuel payload out Hs H)
      as (seo & fk & mt & md & S & Hst & Hseo & Hslug & Hk & Hmt & Hmd & Hh
          & [Tk Nk] & [Tmt Lmt] & [Tmd Lmd] & [Ks Ls]).
    unfold object_at. rewrite (get_or_some out _ _ (JObj []) Hseo).
    unfold field_str.
    rewrite (get_or_some seo _ _ (JStr []) Hk), (get_or_some seo _ _ (JStr []) Hmt),
      (get_or_some seo _ _ (JStr []) Hmd), (get_or_some out _ _ (JStr []) Hslug).
    cbn [py_str]. cbv zeta.
    intros H45 Cmt H130 Cmd Cs fuel'.
    apply (normalize_seo_fields_fixed fuel' out seo fk mt md S); auto; lia.
Qed.

Lemma normalize_seo_fields_twice_witness :
  normalize_seo_fields 0 [(lit "status", JStr (lit "skip"))]
  = Some [(lit "status", JStr (lit "skip"))]
  /\ normalize_seo_fields 1 scenario_A = Some scenario_A
  /\ normalize_seo_fields 7 scenario_A = Some scenario_A.
Proof.
  destruct normalize_seo_fields_twice as [Skip [_ Twice]].
  split; [apply Skip; reflexivity|].
  assert (H : normalize_seo_fields 1 scenario_A = Some scenario_A)
    by (vm_compute; reflexivity).
  split; [exact H|].
  apply (Twice 1 scenario_A scenario_A eq_refl H); vm_compute;
    first [reflexivity | discriminate].
Defined.

(** C9, as the specification states it, fails: a meta title that holds the
    keyphrase beyond its 65th character loses it in the trim of the first
    application, and the second application puts the keyphrase in front. *)
Lemma normalize_seo_fields_not_idempotent :
  exists once twice,
    normalize_seo_fields 100 trimmed_keyphrase_draft = Some once
    /\ normalize_seo_fields 100 once = Some twice
    /\ field_str (object_at once "seo") "meta_title"
       = lit "Everything voters should know before the election about"
    /\ field_str (object_at twice "seo") "meta_title"
       = lit "Thapa: Everything voters should know before the election about"
    /\ once <> twice.
Proof.
  eexists. eexists.
  split; [vm_compute; reflexivity|]. split; [vm_compute; reflexivity|].
  split; [vm_compute; reflexivity|]. split; [vm_compute; reflexivity|].
  intro E.
  apply (f_equal (fun d => field_str (object_at d "seo") "meta_title")) in E.
  vm_compute in E. discriminate E.
Qed.

(* ================================================================== *)
(** * Further properties of the two scripts *)
(* ================================================================== *)

(** ** Token sets *)

Lemma mem_In (x : str) (l : list str) : mem x l = true <-> In x l.
Proof.
  induction l as [|y l IH]; simpl; [split; [discriminate | tauto]|].
  rewrite orb_true_iff, str_eqb_eq, IH. split; intros [H | H]; auto.
Qed.

Lemma distinct_In (x : str) (l : list str) : In x (distinct l) <-> In x l.
Proof.
  induction l as [|y l IH]; simpl; [tauto|].
  destruct (mem y l) eqn:M.
  - rewrite IH. split; [auto|]. intros [<- | H]; [apply mem_In, M | exact H].
  - simpl. rewrite IH. tauto.
Qed.

Lemma distinct_NoDup (l : list str) : NoDup (distinct l).
Proof.
  induction l as [|y l IH]; simpl; [constructor|].
  destruct (mem y l) eqn:M; [exact IH|].
  constructor; [|exact IH]. rewrite distinct_In, <- mem_In, M. discriminate.
Qed.

Lemma distinct_id (l : list str) : NoDup l -> distinct l = l.
Proof.
  induction 1 as [|x l Hx _ IH]; [reflexivity|].
  simpl. rewrite IH. destruct (mem x l) eqn:M; [|reflexivity].
  apply mem_In in M. contradiction.
Qed.

Lemma lower_char_idempotent (c : ascii) : lower_char (lower_char c) = lower_char c.
Proof. by_cases_on_char c. Qed.

Lemma lower_idempotent (s : str) : lower (lower s) = lower s.
Proof.
  unfold lower. rewrite map_map. apply map_ext. apply lower_char_idempotent.
Qed.

Lemma sub_runs_space_length (cls : ascii -> bool) (s : str) :
  (List.length (sub_runs_space cls s) <= List.length s)%nat.
Proof.
  induction s as [|c s IH]; [reflexivity|].
  cbn [sub_runs_space]. destruct (cls c); [destruct (starts_with_class cls s)|];
    simpl; lia.
Qed.

Lemma single_sep_spaces (s : str) (c : ascii) :
  single_sep is_space " "%char s = true -> In c s -> is_space c = true ->
  c = " "%char.
Proof.
  induction s as [|d s IH]; [intros _ []|].
  cbn [single_sep]. intros H [-> | Hin] Sc; apply andb_prop in H as [Hd Hs].
  - rewrite Sc in Hd. simpl in Hd. apply andb_prop in Hd as [Hd _].
    apply chr_eqb_eq, Hd.
  - exact (IH Hs Hin Sc).
Qed.

(** X1.  [normalize_ws] returns a text with single spaces between its words
    and no other white space: nothing of white space at either end, every
    white-space character a space.  Its other characters are characters of
    the input, it is never longer than the input, and normalising it again
    changes nothing. *)
Theorem normalize_ws_canonical (text : str) :
  ws_tidy (normalize_ws text) = true
  /\ (forall c, In c (normalize_ws text) -> is_space c = true -> c = " "%char)
  /\ (forall c, In c (normalize_ws text) -> is_space c = false -> In c text)
  /\ (len (normalize_ws text) <= len text)%Z
  /\ normalize_ws (normalize_ws text) = normalize_ws text.
Proof.
  pose proof (normalize_ws_tidy text) as T.
  split; [exact T|]. split; [|split; [|split]].
  - intros c Hin Sc. apply tidy_parts in T as [P _].
    exact (single_sep_spaces _ c P Hin Sc).
  - intros c Hin Sc. apply normalize_ws_chars in Hin as [H | ->]; [exact H|].
    discriminate Sc.
  - unfold normalize_ws.
    pose proof (strip_length (sub_runs_space is_space text)).
    pose proof (sub_runs_space_length is_space text).
    unfold len in *. lia.
  - apply normalize_ws_idempotent.
Qed.

(** ** Words: what [re.sub] and [strip] leave of a text *)

Lemma ends_with_class_app (p : ascii -> bool) (a b : str) :
  ends_with_class p (a ++ b)
  = if is_empty b then ends_with_class p a else ends_with_class p b.
Proof.
  induction a as [|c a IH].
  - destruct b; reflexivity.
  - cbn [app]. rewrite !ends_with_class_cons, IH.
    destruct a, b; reflexivity.
Qed.

Lemma forallb_ends (p : ascii -> bool) (s : str) :
  forallb p s = true -> s <> [] -> ends_with_class p s = true.
Proof.
  induction s as [|c s IH]; [congruence|].
  cbn [forallb]. intros H _. apply andb_prop in H as [Hc Hs].
  rewrite ends_with_class_cons. destruct s; [exact Hc|].
  apply IH; [exact Hs | discriminate].
Qed.

Lemma single_sep_weaken (cls q : ascii -> bool) (sep : ascii) (s : str) :
  (forall c, q c = true -> cls c = true) ->
  single_sep cls sep s = true -> single_sep q sep s = true.
Proof.
  intro Hq. induction s as [|c s IH]; [reflexivity|].
  cbn [single_sep]. intro H. apply andb_prop in H as [Hc Hs].
  rewrite (IH Hs), andb_true_r.
  destruct (q c) eqn:Qc; [|reflexivity].
  rewrite (Hq c Qc) in Hc. simpl in Hc. apply andb_prop in Hc as [E N].
  rewrite E. simpl. destruct s as [|d s]; [reflexivity|]. simpl in *.
  destruct (q d) eqn:Qd; [|reflexivity].
  rewrite (Hq d Qd) in N. discriminate.
Qed.

Lemma starts_weaken (cls q : ascii -> bool) (s : str) :
  (forall c, q c = true -> cls c = true) ->
  starts_with_class cls s = false -> starts_with_class q s = false.
Proof.
  intro Hq. destruct s as [|c s]; [reflexivity|]. simpl. intro H.
  destruct (q c) eqn:Qc; [|reflexivity]. rewrite (Hq c Qc) in H. discriminate.
Qed.

Lemma ends_weaken (cls q : ascii -> bool) (s : str) :
  (forall c, q c = true -> cls c = true) ->
  ends_with_class cls s = false -> ends_with_class q s = false.
Proof.
  intro Hq. induction s as [|c s IH]; [reflexivity|].
  rewrite !ends_with_class_cons. destruct s; cbn [is_empty]; [|exact IH].
  intro H. destruct (q c) eqn:Qc; [|reflexivity].
  rewrite (Hq c Qc) in H. discriminate.
Qed.

Section Words.

Variable cls : ascii -> bool.
Variable word : ascii -> bool.
Hypothesis cls_space : cls " "%char = true.
Hypothesis word_not_cls : forall c, word c = negb (cls c).

Lemma joined_runs_nonempty (s : str) :
  findall_runs word s <> [] ->
  is_empty (join (lit " ") (findall_runs word s)) = false.
Proof.
  intro H. destruct (joined_runs_start word (lit " ") s) as [F | F];
    [congruence|].
  destruct (join (lit " ") (findall_runs word s)); [discriminate | reflexivity].
Qed.

Lemma findall_runs_nil_all (s : str) :
  findall_runs word s = [] -> forallb cls s = true.
Proof.
  induction s as [|c s IH]; [reflexivity|].
  cbn [findall_runs forallb]. rewrite word_not_cls.
  destruct (cls c); cbn [negb]; [exact IH|].
  destruct (starts_with_class word s); [destruct (findall_runs word s)|];
    discriminate.
Qed.

Lemma joined_runs_tidy (s : str) :
  tidy cls " "%char (join (lit " ") (findall_runs word s)) = true.
Proof.
  pose proof (findall_runs_class word s) as H.
  induction H as [|w rest [Nw Aw] Hrest IH]; [reflexivity|].
  assert (Fw : forallb (fun c => negb (cls c)) w = true).
  { clear - Aw word_not_cls. induction w as [|c w IHw]; [reflexivity|].
    simpl in *. apply andb_prop in Aw as [A B].
    rewrite word_not_cls in A. rewrite A, (IHw B). reflexivity. }
  destruct rest as [|w' rest'].
  - simpl. apply tidy_free, Fw.
  - rewrite join_cons_next.
    apply (tidy_app_sep cls " "%char); try assumption.
    + apply tidy_free, Fw.
    + inversion Hrest as [|? ? [Nw' _] _]; subst.
      destruct rest'; [exact Nw'|]. rewrite join_cons_next.
      destruct w'; [congruence | discriminate].
Qed.

(** [re.sub] of the runs of the class by one space: the words, single
    spaces between them, and one space where the text begins or ends with
    the class. *)
Lemma sub_runs_space_words (s : str) :
  let joined := join (lit " ") (findall_runs word s) in
  sub_runs_space cls s
  = (if starts_with_class cls s then lit " " else [])
    ++ joined
    ++ (if ends_with_class cls s && negb (is_empty joined) then lit " " else []).
Proof.
  induction s as [|c s IH]; [reflexivity|]. cbv zeta in *.
  cbn [sub_runs_space findall_runs starts_with_class].
  rewrite word_not_cls, ends_with_class_cons.
  destruct (cls c) eqn:Cc; cbn [negb].
  - destruct (starts_with_class cls s) eqn:Ss.
    + rewrite IH. destruct s; [discriminate|]. reflexivity.
    + rewrite IH. destruct s; [reflexivity|]. reflexivity.
  - destruct (starts_with_class word s) eqn:Ws.
    + pose proof (findall_runs_starts _ _ Ws) as Hne.
      pose proof (joined_runs_nonempty s Hne) as Je.
      assert (Ss : starts_with_class cls s = false).
      { destruct s as [|d s]; [reflexivity|]. simpl in *.
        rewrite word_not_cls in Ws. destruct (cls d); [discriminate | reflexivity]. }
      rewrite IH, Ss, Je.
      destruct (findall_runs word s) as [|r rs] eqn:F; [congruence|].
      rewrite join_cons_char. destruct s; [discriminate|]. reflexivity.
    + destruct s as [|d s'].
      * reflexivity.
      * assert (Cd : cls d = true).
        { simpl in Ws. rewrite word_not_cls in Ws.
          destruct (cls d); [reflexivity | discriminate]. }
        rewrite IH. cbn [starts_with_class is_empty]. rewrite Cd.
        destruct (findall_runs word (d :: s')) as [|r rs] eqn:F.
        -- pose proof (findall_runs_nil_all _ F) as All.
           rewrite (forallb_ends cls (d :: s') All) by discriminate.
           reflexivity.
        -- assert (Je : is_empty (join (lit " ") (r :: rs)) = false).
           { rewrite <- F. apply joined_runs_nonempty. rewrite F. discriminate. }
           rewrite join_cons_next. rewrite Je.
           destruct (join (lit " ") (r :: rs)) eqn:J; [discriminate|].
           cbn [is_empty negb]. rewrite <- !app_assoc. reflexivity.
Qed.

End Words.

(** Stripping a text that is padded by at most one space on each side. *)
Lemma strip_by_padded (q : ascii -> bool) (a b : bool) (joined : str) :
  q " "%char = true ->
  starts_with_class q joined = false -> ends_with_class q joined = false ->
  strip_by q ((if a then lit " " else [])
              ++ joined
              ++ (if b && negb (is_empty joined) then lit " " else []))
  = joined.
Proof.
  intros Hq S E. unfold strip_by, lstrip_by.
  destruct joined as [|c r] eqn:J.
  - rewrite andb_false_r. destruct a; simpl; unfold rstrip_by; simpl;
      try rewrite Hq; reflexivity.
  - rewrite <- J in *. assert (Ne : is_empty joined = false) by (rewrite J; reflexivity).
    rewrite Ne, andb_true_r. cbn [negb].
    assert (R : rstrip_by q ((if a then lit " " else []) ++ joined
                             ++ (if b then lit " " else []))
                = (if a then lit " " else []) ++ joined).
    { assert (Ea : ends_with_class q ((if a then lit " " else []) ++ joined) = false).
      { rewrite ends_with_class_app, Ne. exact E. }
      destruct b.
      - rewrite app_assoc. change (lit " ") with [" "%char] at 2.
        rewrite rstrip_by_snoc, Hq. apply rstrip_by_id, Ea.
      - rewrite app_nil_r. apply rstrip_by_id, Ea. }
    rewrite R. destruct a.
    + change (lit " " ++ joined) with (" "%char :: joined).
      cbn [drop_while]. rewrite Hq. apply drop_while_id, S.
    + apply drop_while_id, S.
Qed.

(** [normalize_ws(text)] is [" ".join(text.split())]. *)
Lemma normalize_ws_words (text : str) :
  normalize_ws text
  = join (lit " ") (findall_runs (fun c => negb (is_space c)) text).
Proof.
  unfold normalize_ws, strip.
  rewrite (sub_runs_space_words is_space (fun c => negb (is_space c))
             (fun c => eq_refl) text).
  cbv zeta.
  pose proof (joined_runs_tidy is_space (fun c => negb (is_space c))
                is_space_space (fun c => eq_refl) text) as T.
  apply tidy_parts in T as [_ [S E]].
  apply strip_by_padded; [reflexivity | exact S | exact E].
Qed.

Lemma is_alnum_not_not (c : ascii) : is_alnum c = negb (not_alnum c).
Proof. unfold not_alnum. rewrite negb_involutive. reflexivity. Qed.

Lemma space_is_not_alnum (c : ascii) : is_space c = true -> not_alnum c = true.
Proof. intro H. unfold not_alnum. rewrite (is_space_not_alnum c H). reflexivity. Qed.

(** [normalize_title(text)] is the runs of [[a-z0-9]] of the lower-cased
    text, joined by single spaces. *)
Lemma normalize_title_words (text : str) :
  normalize_title text = join (lit " ") (findall_alnum (lower text)).
Proof.
  unfold normalize_title, strip, findall_alnum.
  change (fun c => negb (is_alnum c)) with not_alnum.
  pose proof (sub_runs_space_single not_alnum (lower text) eq_refl) as P.
  rewrite (sub_runs_space_id is_space
             (sub_runs_space not_alnum (lower text))
             (single_sep_weaken not_alnum is_space " "%char _ space_is_not_alnum P)).
  rewrite (sub_runs_space_words not_alnum is_alnum is_alnum_not_not
             (lower text)).
  cbv zeta.
  pose proof (joined_runs_tidy not_alnum is_alnum eq_refl is_alnum_not_not
                (lower text)) as T.
  apply tidy_parts in T as [_ [S E]].
  apply strip_by_padded; [reflexivity | |].
  - exact (starts_weaken not_alnum is_space _ space_is_not_alnum S).
  - exact (ends_weaken not_alnum is_space _ space_is_not_alnum E).
Qed.

Lemma single_sep_lower (sep : ascii) (s : str) :
  lower_char sep = sep ->
  single_sep not_alnum sep s = true -> lower s = s.
Proof.
  intro Hsep. induction s as [|c s IH]; [reflexivity|].
  cbn [single_sep]. intro H. apply andb_prop in H as [Hc Hs].
  unfold lower in *. cbn [map]. rewrite (IH Hs). f_equal.
  unfold not_alnum in Hc. destruct (is_alnum c) eqn:Ac.
  - apply is_alnum_lower_char, Ac.
  - simpl in Hc. apply andb_prop in Hc as [Hc _].
    apply chr_eqb_eq in Hc. subst c. exact Hsep.
Qed.

(** A text of words of [[a-z0-9]] with single spaces between them is the
    join of its own words. *)
Lemma joined_words_id (s : str) :
  tidy not_alnum " "%char s = true ->
  join (lit " ") (findall_alnum s) = s.
Proof.
  intro T. apply tidy_parts in T as [P [S E]].
  pose proof (sub_runs_space_words not_alnum is_alnum is_alnum_not_not s) as W.
  cbv zeta in W. rewrite (sub_runs_space_id not_alnum s P), S, E in W.
  cbn [andb app] in W. rewrite app_nil_r in W. symmetry. exact W.
Qed.

Lemma normalize_title_tidy (text : str) :
  tidy not_alnum " "%char (normalize_title text) = true.
Proof.
  rewrite normalize_title_words.
  exact (joined_runs_tidy not_alnum is_alnum eq_refl is_alnum_not_not (lower text)).
Qed.

Lemma normalize_title_id (s : str) :
  tidy not_alnum " "%char s = true -> normalize_title s = s.
Proof.
  intro T. rewrite normalize_title_words.
  pose proof T as T'. apply tidy_parts in T' as [P _].
  rewrite (single_sep_lower " "%char s eq_refl P). apply joined_words_id, T.
Qed.

(** X2.  [normalize_title] returns the runs of [[a-z0-9]] of the lower-cased
    title joined by single spaces, so nothing but such runs and single
    spaces between them.  Normalising again changes nothing, the case of the
    title does not matter, and [normalize_candidate_name] is the same
    function. *)
Theorem normalize_title_canonical (text : str) :
  normalize_title text = join (lit " ") (findall_alnum (lower text))
  /\ tidy not_alnum " "%char (normalize_title text) = true
  /\ normalize_title (normalize_title text) = normalize_title text
  /\ normalize_title (lower text) = normalize_title text
  /\ normalize_candidate_name text = normalize_title text.
Proof.
  split; [apply normalize_title_words|].
  split; [apply normalize_title_tidy|].
  split; [apply normalize_title_id, normalize_title_tidy|].
  split; [|reflexivity].
  rewrite !normalize_title_words, lower_idempotent. reflexivity.
Qed.

(** ** [title_tokens] *)

Lemma Forall_distinct (P : str -> Prop) (l : list str) :
  Forall P l -> Forall P (distinct l).
Proof.
  intro H. apply Forall_forall. intros x Hx. apply -> distinct_In in Hx.
  rewrite Forall_forall in H. exact (H x Hx).
Qed.

Lemma title_tokens_words (text : str) :
  Forall (fun token =>
            (3 <= len token)%Z
            /\ forallb is_alnum token = true
            /\ mem token STOPWORDS = false)
    (title_tokens text).
Proof.
  unfold title_tokens. apply Forall_distinct.
  apply Forall_forall. intros token Hin.
  apply filter_In in Hin as [Hin Hf]. apply andb_prop in Hf as [Hl Hs].
  pose proof (findall_runs_class is_alnum (lower text)) as R.
  rewrite Forall_forall in R. destruct (R token Hin) as [_ A].
  apply Z.ltb_lt in Hl. apply negb_true_iff in Hs.
  split; [lia|]. split; assumption.
Qed.

(** The second filter of [validate_payload] on the tokens of the candidate
    name, [len(token) >= 3], keeps every token. *)
Lemma title_tokens_filter (text : str) :
  filter (fun token => (3 <=? len token)%Z) (title_tokens text)
  = title_tokens text.
Proof.
  apply forallb_filter_id. apply forallb_forall. intros token Hin.
  pose proof (title_tokens_words text) as W. rewrite Forall_forall in W.
  destruct (W token Hin) as [L _]. apply Z.leb_le. exact L.
Qed.

(** X3.  The tokens of a title are distinct runs of [[a-z0-9]] of the
    lower-cased title, each of at least 3 characters and none a stop word;
    so the filter on a length of 3 that [validate_payload] applies to the
    tokens of the candidate's name removes nothing.  The case of the title
    does not matter. *)
Theorem title_tokens_are_keywords (text : str) :
  NoDup (title_tokens text)
  /\ Forall (fun token =>
               (3 <= len token)%Z
               /\ forallb is_alnum token = true
               /\ mem token STOPWORDS = false)
       (title_tokens text)
  /\ (forall token, In token (title_tokens text) ->
        In token (findall_alnum (lower text)))
  /\ filter (fun token => (3 <=? len token)%Z) (title_tokens text)
     = title_tokens text
  /\ title_tokens (lower text) = title_tokens text.
Proof.
  split; [apply distinct_NoDup|].
  split; [apply title_tokens_words|].
  split; [|split].
  - intros token H. unfold title_tokens in H. apply -> distinct_In in H.
    apply filter_In in H as [H _]. exact H.
  - apply title_tokens_filter.
  - unfold title_tokens. rewrite lower_idempotent. reflexivity.
Qed.

(** ** [jaccard_similarity] *)

Lemma set_inter_NoDup (left right : list str) :
  NoDup left -> NoDup (set_inter left right).
Proof. intro H. unfold set_inter. apply NoDup_filter, H. Qed.

Lemma set_inter_In (x : str) (left right : list str) :
  In x (set_inter left right) <-> In x left /\ In x right.
Proof. unfold set_inter. rewrite filter_In, mem_In. tauto. Qed.

Lemma set_union_In (x : str) (left right : list str) :
  In x (set_union left right) <-> In x left \/ In x right.
Proof. unfold set_union. rewrite distinct_In, in_app_iff. tauto. Qed.

Lemma set_inter_length_comm (left right : list str) :
  NoDup left -> NoDup right ->
  List.length (set_inter left right) = List.length (set_inter right left).
Proof.
  intros Hl Hr. apply Nat.le_antisymm; apply NoDup_incl_length;
    try (apply set_inter_NoDup; assumption);
    intros x Hx; apply -> set_inter_In in Hx; apply set_inter_In; tauto.
Qed.

Lemma set_union_length_comm (left right : list str) :
  List.length (set_union left right) = List.length (set_union right left).
Proof.
  apply Nat.le_antisymm; apply NoDup_incl_length;
    try apply distinct_NoDup;
    intros x Hx; apply -> set_union_In in Hx; apply set_union_In; tauto.
Qed.

Lemma set_inter_le_union (left right : list str) :
  NoDup left ->
  (List.length (set_inter left right) <= List.length (set_union left right))%nat.
Proof.
  intro Hl. apply NoDup_incl_length; [apply set_inter_NoDup, Hl|].
  intros x Hx. apply -> set_inter_In in Hx. apply set_union_In. tauto.
Qed.

Lemma set_union_nonempty (left right : list str) :
  left <> [] -> set_union left right <> [].
Proof.
  destruct left as [|x l]; [congruence|]. intros _ E.
  assert (H : In x (set_union (x :: l) right))
    by (apply set_union_In; left; left; reflexivity).
  rewrite E in H. exact H.
Qed.

Lemma jaccard_similarity_comm (left right : list str) :
  NoDup left -> NoDup right ->
  jaccard_similarity left right = jaccard_similarity right left.
Proof.
  intros Hl Hr. unfold jaccard_similarity.
  rewrite (orb_comm (is_empty right)).
  destruct (is_empty left || is_empty right); [reflexivity|].
  assert (E : is_empty (set_union left right) = is_empty (set_union right left)).
  { pose proof (set_union_length_comm left right) as L.
    destruct (set_union left right), (set_union right left);
      try reflexivity; discriminate L. }
  rewrite E, (set_inter_length_comm left right Hl Hr),
    (set_union_length_comm left right).
  reflexivity.
Qed.


Lemma pos_of_nat_Z (n : nat) : n <> 0%nat -> Z.pos (Pos.of_nat n) = Z.of_nat n.
Proof. intro H. lia. Qed.

(** The similarity as a quotient, for two sets that are not empty. *)
Lemma jaccard_similarity_quotient (left right : list str) :
  left <> [] -> right <> [] ->
  jaccard_similarity left right
  = (Z.of_nat (List.length (set_inter left right))
       # Pos.of_nat (List.length (set_union left right)))%Q
  /\ List.length (set_union left right) <> 0%nat.
Proof.
  intros Nl Nr. unfold jaccard_similarity.
  rewrite (is_empty_false left Nl), (is_empty_false right Nr). cbn [orb].
  pose proof (set_union_nonempty left right Nl) as Ne.
  rewrite (is_empty_false _ Ne). split; [reflexivity|].
  destruct (set_union left right); [congruence | discriminate].
Qed.

Lemma set_inter_self (l : list str) : set_inter l l = l.
Proof.
  unfold set_inter. apply forallb_filter_id. apply forallb_forall.
  intros x Hx. apply mem_In, Hx.
Qed.

Lemma set_union_self (l : list str) :
  NoDup l -> List.length (set_union l l) = List.length l.
Proof.
  intro H. apply Nat.le_antisymm; apply NoDup_incl_length;
    try apply distinct_NoDup; try exact H; intros x Hx.
  - apply -> set_union_In in Hx. tauto.
  - apply set_union_In. tauto.
Qed.

(** X4.  On two sets of tokens [jaccard_similarity] lies between 0 and 1,
    does not depend on the order of its arguments, is 0 when one of the sets
    is empty, is 1 for a non-empty set and itself, and is positive exactly
    when the sets share a token. *)
Theorem jaccard_similarity_range (left right : list str) :
  NoDup left -> NoDup right ->
  (0 <= jaccard_similarity left right)%Q
  /\ (jaccard_similarity left right <= 1)%Q
  /\ jaccard_similarity left right = jaccard_similarity right left
  /\ (left = [] \/ right = [] -> jaccard_similarity left right = 0%Q)
  /\ (left <> [] -> (jaccard_similarity left left == 1)%Q)
  /\ ((0 < jaccard_similarity left right)%Q
      <-> exists token, In token left /\ In token right).
Proof.
  intros Hl Hr.
  assert (Zero : left = [] \/ right = [] -> jaccard_similarity left right = 0%Q).
  { intros [-> | ->]; unfold jaccard_similarity; [reflexivity|].
    rewrite orb_true_r. reflexivity. }
  assert (Cases : (left = [] \/ right = []) \/ (left <> [] /\ right <> [])).
  { destruct left, right; auto; right; split; discriminate. }
  split; [|split; [|split; [|split; [|split]]]].
  - destruct Cases as [C | [Nl Nr]]; [rewrite (Zero C); discriminate|].
    destruct (jaccard_similarity_quotient left right Nl Nr) as [-> _].
    unfold Qle. simpl. lia.
  - destruct Cases as [C | [Nl Nr]]; [rewrite (Zero C); discriminate|].
    destruct (jaccard_similarity_quotient left right Nl Nr) as [-> Ne].
    unfold Qle. cbn [Qnum Qden]. rewrite (pos_of_nat_Z _ Ne).
    pose proof (set_inter_le_union left right Hl). lia.
  - apply jaccard_similarity_comm; assumption.
  - exact Zero.
  - intro Nl.
    destruct (jaccard_similarity_quotient left left Nl Nl) as [-> Ne].
    unfold Qeq. cbn [Qnum Qden]. rewrite (pos_of_nat_Z _ Ne).
    rewrite set_inter_self, (set_union_self left Hl). lia.
  - split.
    + intro Pos. destruct Cases as [C | [Nl Nr]].
      * rewrite (Zero C) in Pos. discriminate Pos.
      * destruct (jaccard_similarity_quotient left right Nl Nr) as [E _].
        rewrite E in Pos. unfold Qlt in Pos. cbn [Qnum Qden] in Pos.
        destruct (set_inter left right) as [|token rest] eqn:I;
          [simpl in Pos; lia|].
        exists token. apply set_inter_In. rewrite I. left. reflexivity.
    + intros [token [Tl Tr]].
      assert (Nl : left <> []) by (intros ->; exact Tl).
      assert (Nr : right <> []) by (intros ->; exact Tr).
      destruct (jaccard_similarity_quotient left right Nl Nr) as [-> _].
      unfold Qlt. cbn [Qnum Qden].
      assert (In token (set_inter left right)) as Hin
        by (apply set_inter_In; split; assumption).
      destruct (set_inter left right); [destruct Hin|]. simpl. lia.
Qed.

Lemma jaccard_similarity_range_witness :
  NoDup [lit "ram"; lit "thapa"] /\ NoDup [lit "thapa"; lit "profile"]
  /\ (jaccard_similarity [lit "ram"; lit "thapa"] [lit "thapa"; lit "profile"]
      <= 1)%Q
  /\ jaccard_similarity [lit "ram"; lit "thapa"] [lit "thapa"; lit "profile"]
     = (1 # 3)%Q.
Proof.
  assert (A : NoDup [lit "ram"; lit "thapa"]).
  { repeat constructor; simpl; intuition discriminate. }
  assert (B : NoDup [lit "thapa"; lit "profile"]).
  { repeat constructor; simpl; intuition discriminate. }
  split; [exact A|]. split; [exact B|].
  split; [exact (proj1 (proj2 (jaccard_similarity_range _ _ A B)))|].
  reflexivity.
Defined.

(** ** [near_duplicate_title] *)

Lemma str_eqb_sym (a b : str) : str_eqb a b = str_eqb b a.
Proof.
  destruct (str_eqb a b) eqn:E.
  - apply str_eqb_eq in E. subst b. symmetry. apply str_eqb_refl.
  - destruct (str_eqb b a) eqn:E'; [|reflexivity].
    apply str_eqb_eq in E'. subst b. rewrite str_eqb_refl in E. discriminate.
Qed.

(** X5.  No title is a near duplicate for an empty corpus; a title is a near
    duplicate for a corpus exactly when it is one for some part of it; it is
    one when the corpus holds a title with the same normalised form; for
    two titles the relation is symmetric; and the case of the new title does
    not matter. *)
Theorem near_duplicate_title_cases (new_title : str) :
  near_duplicate_title new_title [] = false
  /\ (forall before after,
        near_duplicate_title new_title (before ++ after)
        = near_duplicate_title new_title before
          || near_duplicate_title new_title after)
  /\ (forall existing titles,
        In existing titles ->
        normalize_title existing = normalize_title new_title ->
        near_duplicate_title new_title titles = true)
  /\ (forall other,
        near_duplicate_title new_title [other]
        = near_duplicate_title other [new_title])
  /\ (forall titles,
        near_duplicate_title (lower new_title) titles
        = near_duplicate_title new_title titles).
Proof.
  split; [reflexivity|]. split; [|split; [|split]].
  - intros before after. unfold near_duplicate_title. apply existsb_app.
  - intros existing titles Hin Hn. unfold near_duplicate_title.
    apply existsb_exists. exists existing. split; [exact Hin|].
    rewrite Hn, str_eqb_refl. reflexivity.
  - intro other. unfold near_duplicate_title. cbn [existsb].
    rewrite (str_eqb_sym (normalize_title new_title)).
    rewrite (jaccard_similarity_comm (title_tokens new_title) (title_tokens other))
      by apply distinct_NoDup.
    reflexivity.
  - intro titles. unfold near_duplicate_title.
    rewrite !normalize_title_words, lower_idempotent.
    unfold title_tokens. rewrite lower_idempotent. reflexivity.
Qed.

(** ** [trim_to_max_chars] and [trim_slug] *)

(** X6.  For a bound that is not negative [trim_to_max_chars] returns a
    prefix of the normalised text of at most [max_chars] characters, with
    single spaces only; the normalised text itself when it fits; a result
    that does not end in a space, comma, semicolon, colon or hyphen when
    something is cut; and trimming the result again changes nothing. *)
Theorem trim_to_max_chars_cuts (text : str) (max_chars : Z) :
  (0 <= max_chars)%Z ->
  let result := trim_to_max_chars text max_chars in
  (len result <= max_chars)%Z
  /\ (exists rest, normalize_ws text = result ++ rest)
  /\ ws_tidy result = true
  /\ ((len (normalize_ws text) <= max_chars)%Z -> result = normalize_ws text)
  /\ ((max_chars < len (normalize_ws text))%Z ->
      ends_with_class (one_of (lit " ,;:-")) result = false)
  /\ trim_to_max_chars result max_chars = result.
Proof.
  intros Hmax result. subst result.
  pose proof (trim_to_max_chars_length text max_chars Hmax) as L.
  pose proof (trim_to_max_chars_tidy text max_chars) as T.
  split; [exact L|]. split; [apply trim_to_max_chars_prefix|].
  split; [exact T|]. split; [|split].
  - intro Hfit. unfold trim_to_max_chars.
    apply Z.leb_le in Hfit. rewrite Hfit. reflexivity.
  - intro Hcut. unfold trim_to_max_chars.
    apply Z.leb_gt in Hcut. rewrite Hcut. apply rstrip_by_ends.
  - apply trim_to_max_chars_fits; assumption.
Qed.

Lemma trim_to_max_chars_cuts_witness :
  (0 <= 13)%Z
  /\ trim_to_max_chars (lit "alpha  beta, gamma delta") 13 = lit "alpha beta"
  /\ (len (trim_to_max_chars (lit "alpha  beta, gamma delta") 13) <= 13)%Z.
Proof.
  split; [lia|]. split; [reflexivity|].
  exact (proj1 (trim_to_max_chars_cuts (lit "alpha  beta, gamma delta") 13
                  ltac:(lia))).
Defined.

Lemma trim_slug_length_from (slug : str) (max_chars : Z) :
  (len DEFAULT_SLUG <= max_chars)%Z ->
  (len (trim_slug slug max_chars) <= max_chars)%Z.
Proof.
  intro Hmax. unfold trim_slug.
  set (normalized := join (lit "-") (findall_alnum (lower (normalize_ws slug)))).
  destruct (is_empty _); cbn [negb]; [exact Hmax|].
  assert (H0 : (0 <= max_chars)%Z) by (pose proof (len_nonneg DEFAULT_SLUG); lia).
  pose proof (trim_to_max_chars_length normalized max_chars H0).
  pose proof (strip_by_length (one_of (lit "-"))
                (trim_to_max_chars normalized max_chars)).
  unfold len in *. lia.
Qed.

(** X7.  For a bound of at least 32 characters [trim_slug] returns a
    non-empty kebab-case string of at most [max_chars] characters, which is
    the default slug or a prefix of the hyphen-joined runs of [[a-z0-9]] of
    the input; a kebab-case slug that fits is returned as it is, and
    trimming the result again changes nothing. *)
Theorem trim_slug_canonical (slug : str) (max_chars : Z) :
  (32 <= max_chars)%Z ->
  let result := trim_slug slug max_chars in
  fullmatch_kebab result = true
  /\ (1 <= len result <= max_chars)%Z
  /\ trim_slug result max_chars = result
  /\ (fullmatch_kebab slug = true -> (len slug <= max_chars)%Z -> result = slug)
  /\ (result = DEFAULT_SLUG
      \/ exists rest,
           join (lit "-") (findall_alnum (lower (normalize_ws slug)))
           = result ++ rest).
Proof.
  intros Hmax result. subst result.
  pose proof (trim_slug_kebab slug max_chars) as K.
  assert (L : (len (trim_slug slug max_chars) <= max_chars)%Z)
    by (apply trim_slug_length_from; exact Hmax).
  split; [exact K|]. split; [|split; [|split]].
  - split; [|exact L].
    pose proof (trim_slug_nonempty slug max_chars) as N.
    destruct (trim_slug slug max_chars); [congruence|].
    unfold len. simpl. lia.
  - apply trim_slug_fixes_kebab; assumption.
  - intros Ks Ls. apply trim_slug_fixes_kebab; assumption.
  - unfold trim_slug.
    set (normalized := join (lit "-") (findall_alnum (lower (normalize_ws slug)))).
    destruct (is_empty _); cbn [negb]; [left; reflexivity|]. right.
    pose proof (slug_join_tidy (lower (normalize_ws slug))) as T.
    fold normalized in T. apply tidy_parts in T as [P [S _]].
    destruct (trim_to_max_chars_prefix normalized max_chars) as [b Hb].
    rewrite (normalize_ws_free normalized (kebab_no_space _ P)) in Hb.
    set (cut := trim_to_max_chars normalized max_chars) in *.
    destruct (rstrip_by_prefix (one_of (lit "-")) cut) as [b' [Hb' _]].
    assert (Hs : starts_with_class (one_of (lit "-")) cut = false).
    { rewrite Hb, starts_with_class_app in S.
      destruct cut as [|c cut']; [reflexivity|]. cbn [is_empty] in S.
      simpl in *. destruct (chr_eqb c "-") eqn:D; [|reflexivity].
      apply chr_eqb_eq in D. subst c. discriminate S. }
    assert (Hr : starts_with_class (one_of (lit "-"))
                   (rstrip_by (one_of (lit "-")) cut) = false).
    { rewrite Hb', starts_with_class_app in Hs.
      destruct (rstrip_by (one_of (lit "-")) cut); [reflexivity | exact Hs]. }
    unfold strip_by, lstrip_by. rewrite (drop_while_id _ _ Hr).
    exists (b' ++ b). rewrite Hb at 1. rewrite Hb' at 1.
    rewrite <- app_assoc. reflexivity.
Qed.

Lemma trim_slug_canonical_witness :
  (32 <= 120)%Z
  /\ trim_slug (lit " Hello, World!! ") 120 = lit "hello-world"
  /\ fullmatch_kebab (trim_slug (lit " Hello, World!! ") 120) = true.
Proof.
  split; [lia|]. split; [reflexivity|].
  exact (proj1 (trim_slug_canonical (lit " Hello, World!! ") 120 ltac:(lia))).
Defined.

(** ** Drafts that [validate_payload] accepts *)

Lemma when_nil (c : bool) (v : violation) : when c v = [] -> c = false.
Proof. destruct c; [discriminate | reflexivity]. Qed.

Lemma silent_via_filter (f : violation -> bool) (v : violation)
    (errs : list violation) (c : bool) :
  f v = true -> filter f errs = when c v -> errs = [] -> c = false.
Proof. intros _ E ->. symmetry in E. exact (when_nil c v E). Qed.

Lemma filter_of_nil (f : violation -> bool) (errs : list violation) :
  errs = [] -> filter f errs = [].
Proof. intros ->. reflexivity. Qed.

(** [cond = false], for a rule that appends [v] when [cond], in a run that
    appended nothing. *)
Ltac rule_silent H v :=
  refine (silent_via_filter (of_rule v) v _ _ eq_refl _ H);
  project_rules; reflexivity.

Lemma contains_nil (s : str) : contains s [] = true.
Proof. destruct s; reflexivity. Qed.

Lemma both_negb_false (a b : bool) : negb a && negb b = false -> a || b = true.
Proof. destruct a, b; simpl; congruence. Qed.

Lemma guarded_negb_false (a b : bool) : negb a && b = false -> a || negb b = true.
Proof. destruct a, b; simpl; congruence. Qed.

Lemma check_fact_nil (mc i : Z) (fact : json) :
  check_fact mc i fact = [] <-> fact_supported mc fact.
Proof.
  unfold check_fact, fact_supported. split.
  - destruct fact as [| | | | |fields]; try discriminate.
    destruct (py_int _) as [c|] eqn:Pc; [|discriminate].
    intro H. apply app_eq_nil in H as [H1 H2].
    apply when_nil in H1. apply when_nil in H2.
    destruct (get_or fields (lit "supporting_source_urls") (JList []))
      as [| | | |urls|] eqn:U; try discriminate H1.
    apply Z.ltb_ge in H1. apply Z.ltb_ge in H2.
    exists fields, urls, c.
    split; [reflexivity|]. split; [exact U|]. split; [exact H1|].
    split; [exact Pc | exact H2].
  - intros (fields & urls & c & -> & U & L & P & C).
    rewrite U, P.
    apply Z.ltb_ge in L. apply Z.ltb_ge in C. rewrite L, C. reflexivity.
Qed.

Lemma check_facts_nil (mc : Z) (facts : list json) :
  forall i, check_facts mc i facts = [] <-> Forall (fact_supported mc) facts.
Proof.
  induction facts as [|fact facts IH]; intro i; cbn [check_facts].
  - split; [constructor | reflexivity].
  - split.
    + intro H. apply app_eq_nil in H as [H1 H2].
      constructor; [apply (check_fact_nil mc i), H1 | apply (IH (i + 1)%Z), H2].
    + intro H. inversion H as [|? ? Hf Hr]; subst.
      apply (check_fact_nil mc i) in Hf. apply (IH (i + 1)%Z) in Hr.
      rewrite Hf, Hr. reflexivity.
Qed.

Lemma in_sources_accepted
    (url : str) (listed : bool) (domain : option str) (domains : list str) :
  startswith url (lit "http") = true ->
  (if negb (is_empty url)
   then if negb listed
        then option_map (fun d => mem d domains) domain
        else Some true
   else Some true) = Some true ->
  listed
  || match domain with Some d => mem d domains | None => false end = true.
Proof.
  intro Http. destruct url; [discriminate Http|]. cbn [is_empty negb].
  destruct listed; [reflexivity|]. cbn [negb orb].
  destruct domain; simpl; congruence.
Qed.

Section Accepted.

Variable netloc : str -> option str.

(** X8.  A draft to publish for which [validate_payload] returns no
    violation meets every bound the rules test: title, slug, excerpt,
    keywords and body; a list of at least [min_sources] sources from at
    least as many domains that covers the profile's source URL; a complete
    candidate profile with the election date 2026-03-05; a candidate not in
    the corpus and named in title, excerpt and body; SEO fields within
    their windows that hold the keyphrase; and a non-empty list of key
    facts, each with two supporting URLs and a confidence of at least
    [min_confidence]. *)
Theorem accepted_draft_is_sound
    (payload : dict) (titles cands : list str) (ms mc : Z) :
  get_or payload (lit "status") JNull = JStr (lit "publish") ->
  validate_payload netloc payload titles cands ms mc = Some [] ->
  let title := strip (field_str payload "title") in
  let slug := strip (field_str payload "slug") in
  let excerpt := strip (field_str payload "excerpt") in
  let content := strip (field_str payload "content_html") in
  let profile := object_at payload "candidate_profile" in
  let seo := object_at payload "seo" in
  let name := field_ws profile "candidate_name" in
  let election_name := field_ws profile "election_name" in
  let source_url := field_ws profile "profile_source_url" in
  let image_url := field_ws profile "profile_image_url" in
  let image_source_url := field_ws profile "profile_image_source_url" in
  let tokens := title_tokens name in
  let tokens_in (text : str) :=
    len_list (filter (fun token => contains text token) tokens) in
  let keyphrase := lower (strip (field_str seo "focus_keyphrase")) in
  let focus_slug := join (lit "-") (findall_alnum keyphrase) in
  let meta_title := strip (field_str seo "meta_title") in
  let meta_description := strip (field_str seo "meta_description") in
  let hint :=
    join (lit "-") (findall_alnum (lower (strip (field_str seo "seo_slug_hint")))) in
  (* title, slug, excerpt, keywords, body *)
  ((24 <= len title)%Z /\ near_duplicate_title title titles = false)
  /\ fullmatch_kebab slug = true
  /\ (110 <= len excerpt)%Z
  /\ (exists keywords,
        get_or payload (lit "topic_keywords") (JList []) = JList keywords
        /\ (3 <= len_list keywords)%Z)
  /\ ((1800 <= len content)%Z
      /\ contains (lower content) (lit "faq") = true
      /\ (3 <= count_h3_questions content)%Z)
  (* sources *)
  /\ (exists sources domains,
        get_or payload (lit "sources") (JList []) = JList sources
        /\ unique_domains_of netloc sources = Some domains
        /\ (ms <= len_list sources)%Z
        /\ (ms <= len_list domains)%Z
        /\ (mem (rstrip_by (one_of (lit "/")) source_url)
              (map (rstrip_by (one_of (lit "/"))) (source_urls_of sources))
            || match domain_from_url netloc source_url with
               | Some domain => mem domain domains
               | None => false
               end = true))
  (* candidate profile *)
  /\ (is_dict (get_or payload (lit "candidate_profile") (JObj [])) = true
      /\ (4 <= len name)%Z
      /\ (8 <= len election_name)%Z
      /\ contains (lower election_name) (lit "nepal") = true
      /\ field_ws profile "election_date" = lit "2026-03-05"
      /\ (2 <= len (field_ws profile "party"))%Z
      /\ (2 <= len (field_ws profile "constituency"))%Z
      /\ (2 <= len (field_ws profile "current_position"))%Z
      /\ (60 <= len (field_ws profile "short_bio"))%Z
      /\ startswith source_url (lit "http") = true
      /\ is_empty image_url || startswith image_url (lit "http") = true
      /\ is_empty image_source_url || startswith image_source_url (lit "http")
         = true)
  (* the candidate against the corpus and the text *)
  /\ (mem (normalize_candidate_name name) (map normalize_candidate_name cands)
      = false
      /\ (tokens <> [] ->
          (1 <= tokens_in (lower title))%Z
          /\ (1 <= tokens_in (lower excerpt))%Z
          /\ (2 <= tokens_in (lower content))%Z))
  (* SEO fields *)
  /\ (is_dict (get_or payload (lit "seo") (JObj [])) = true
      /\ (8 <= len keyphrase)%Z
      /\ (45 <= len meta_title <= 65)%Z
      /\ (130 <= len meta_description <= 170)%Z
      /\ contains (lower title) keyphrase = true
      /\ contains (lower excerpt) keyphrase = true
      /\ contains (lower content) keyphrase = true
      /\ contains (lower meta_title) keyphrase = true
      /\ contains (lower meta_description) keyphrase = true
      /\ contains slug focus_slug = true
      /\ is_empty hint || str_eqb hint slug = true)
  (* key facts *)
  /\ (exists fact facts,
        get_or payload (lit "key_facts") (JList []) = JList (fact :: facts)
        /\ Forall (fact_supported mc) (fact :: facts)).
Proof.
  intros Hs H title slug excerpt content profile seo name election_name
    source_url image_url image_source_url tokens tokens_in keyphrase
    focus_slug meta_title meta_description hint.
  assert (Chain : (if is_empty title then [MissingTitle]
                   else if (len title <? 24)%Z then [TitleTooShort]
                   else if near_duplicate_title title titles
                        then [TitleDuplicate] else []) = []).
  { open_validate Hs H;
      try (apply app_eq_nil in H as [_ H]; discriminate H).
    refine (eq_trans _ (filter_of_nil title_rule _ H)).
    symmetry. project_rules. reflexivity. }
  assert (Name : (4 <= len name)%Z).
  { open_validate Hs H;
      try (apply app_eq_nil in H as [_ H]; discriminate H).
    apply Z.ltb_ge. rule_silent H CandidateNameTooShort. }
  assert (Key : (8 <= len keyphrase)%Z).
  { open_validate Hs H;
      try (apply app_eq_nil in H as [_ H]; discriminate H).
    apply Z.ltb_ge. rule_silent H FocusKeyphraseTooShort. }
  assert (NameNe : is_empty name = false).
  { destruct name; [unfold len in Name; simpl in Name; lia | reflexivity]. }
  assert (KeyNe : is_empty keyphrase = false).
  { destruct keyphrase; [unfold len in Key; simpl in Key; lia | reflexivity]. }
  open_validate Hs H;
    try (apply app_eq_nil in H as [_ H]; discriminate H).
  split.
  { destruct (is_empty title); [discriminate Chain|].
    destruct (len title <? 24)%Z eqn:L; [discriminate Chain|].
    destruct (near_duplicate_title title titles); [discriminate Chain|].
    apply Z.ltb_ge in L. split; [exact L | reflexivity]. }
  split. { apply negb_false_iff. rule_silent H SlugNotKebab. }
  split. { apply Z.ltb_ge. rule_silent H ExcerptTooShort. }
  split.
  { assert (C : match get_or payload (lit "topic_keywords") (JList []) with
                | JList keywords => (len_list keywords <? 3)%Z
                | _ => true
                end = false) by rule_silent H TooFewTopicKeywords.
    destruct (get_or payload (lit "topic_keywords") (JList []))
      as [| | | |keywords|]; try discriminate C.
    exists keywords. split; [reflexivity | apply Z.ltb_ge, C]. }
  split.
  { split; [apply Z.ltb_ge; rule_silent H ContentTooShort|].
    split; [apply negb_false_iff; rule_silent H ContentWithoutFaq|].
    apply Z.ltb_ge. rule_silent H TooFewFaqQuestions. }
  split.
  { exists sources, unique_domains.
    split; [reflexivity|]. split; [exact Edom|].
    split; [apply Z.ltb_ge;
            rule_silent H (TooFewSources ms (len_list sources))|].
    split; [apply Z.ltb_ge;
            rule_silent H (TooFewDomains ms (len_list unique_domains))|].
    assert (C : negb in_sources = false)
      by rule_silent H ProfileSourceUrlNotInSources.
    assert (Http : negb (startswith source_url (lit "http")) = false)
      by rule_silent H ProfileSourceUrlInvalid.
    apply negb_false_iff in C. apply negb_false_iff in Http.
    rewrite C in Ein. exact (in_sources_accepted _ _ _ _ Http Ein). }
  split.
  { split; [apply negb_false_iff; rule_silent H ProfileNotObject|].
    split; [exact Name|].
    split; [apply Z.ltb_ge; rule_silent H ElectionNameTooShort|].
    split; [apply negb_false_iff; rule_silent H ElectionNameWithoutNepal|].
    split; [apply str_eqb_eq, negb_false_iff; rule_silent H ElectionDateWrong|].
    split; [apply Z.ltb_ge; rule_silent H PartyTooShort|].
    split; [apply Z.ltb_ge; rule_silent H ConstituencyTooShort|].
    split; [apply Z.ltb_ge; rule_silent H CurrentPositionTooShort|].
    split; [apply Z.ltb_ge; rule_silent H ShortBioTooShort|].
    split; [apply negb_false_iff; rule_silent H ProfileSourceUrlInvalid|].
    split; [apply both_negb_false; rule_silent H ProfileImageUrlInvalid|].
    apply both_negb_false; rule_silent H ProfileImageSourceUrlInvalid. }
  split.
  { split.
    - assert (C : negb (is_empty name)
                  && mem (normalize_candidate_name name)
                       (map normalize_candidate_name cands) = false)
        by rule_silent H CandidateAlreadyProfiled.
      rewrite NameNe in C. exact C.
    - intro Tn.
      assert (Te : is_empty tokens = false)
        by (destruct tokens; [congruence | reflexivity]).
      assert (C1 : negb (is_empty (filter (fun token => (3 <=? len token)%Z) tokens))
                   && (len_list
                         (filter (fun token => contains (lower title) token)
                            (filter (fun token => (3 <=? len token)%Z) tokens))
                       <? 1)%Z = false)
        by rule_silent H TitleWithoutCandidate.
      assert (C2 : negb (is_empty (filter (fun token => (3 <=? len token)%Z) tokens))
                   && (len_list
                         (filter (fun token => contains (lower excerpt) token)
                            (filter (fun token => (3 <=? len token)%Z) tokens))
                       <? 1)%Z = false)
        by rule_silent H ExcerptWithoutCandidate.
      assert (C3 : negb (is_empty (filter (fun token => (3 <=? len token)%Z) tokens))
                   && (len_list
                         (filter (fun token => contains (lower content) token)
                            (filter (fun token => (3 <=? len token)%Z) tokens))
                       <? 2)%Z = false)
        by rule_silent H ContentWithoutCandidate.
      unfold tokens in C1, C2, C3. rewrite title_tokens_filter in C1, C2, C3.
      fold tokens in C1, C2, C3. rewrite Te in C1, C2, C3.
      cbn [negb andb] in C1, C2, C3.
      apply Z.ltb_ge in C1. apply Z.ltb_ge in C2. apply Z.ltb_ge in C3.
      split; [exact C1|]. split; [exact C2 | exact C3]. }
  split.
  { assert (G : forall c, negb (is_empty keyphrase) && negb c = false -> c = true).
    { intros c. rewrite KeyNe. destruct c; simpl; congruence. }
    split; [apply negb_false_iff; rule_silent H SeoNotObject|].
    split; [exact Key|].
    split.
    { assert (C : negb ((45 <=? len meta_title)%Z && (len meta_title <=? 65)%Z)
                  = false) by rule_silent H MetaTitleOutOfWindow.
      apply negb_false_iff, andb_prop in C as [A B].
      apply Z.leb_le in A. apply Z.leb_le in B. split; assumption. }
    split.
    { assert (C : negb ((130 <=? len meta_description)%Z
                        && (len meta_description <=? 170)%Z) = false)
        by rule_silent H MetaDescriptionOutOfWindow.
      apply negb_false_iff, andb_prop in C as [A B].
      apply Z.leb_le in A. apply Z.leb_le in B. split; assumption. }
    split; [apply G; rule_silent H TitleWithoutKeyphrase|].
    split; [apply G; rule_silent H ExcerptWithoutKeyphrase|].
    split; [apply G; rule_silent H ContentWithoutKeyphrase|].
    split; [apply G; rule_silent H MetaTitleWithoutKeyphrase|].
    split; [apply G; rule_silent H MetaDescriptionWithoutKeyphrase|].
    split.
    { assert (C : negb (is_empty keyphrase)
                  && (negb (is_empty focus_slug) && negb (contains slug focus_slug))
                  = false) by rule_silent H SlugWithoutKeyphrase.
      rewrite KeyNe in C. cbn [negb andb] in C.
      destruct focus_slug; [apply contains_nil|].
      cbn [is_empty negb andb] in C. apply negb_false_iff, C. }
    apply both_negb_false. rule_silent H SlugHintMisaligned. }
  assert (F : key_facts_errors payload mc = []).
  { refine (eq_trans _ (filter_of_nil key_facts_rule _ H)).
    symmetry. project_rules. reflexivity. }
  unfold key_facts_errors in F.
  destruct (get_or payload (lit "key_facts") (JList []))
    as [| | | |[|fact facts]|]; try discriminate F.
  exists fact, facts. split; [reflexivity|].
  apply (check_facts_nil mc (fact :: facts) 1), F.
Qed.

End Accepted.

Lemma accepted_draft_is_sound_witness :
  validate_payload no_netloc scenario_A [] [] 12 85 = Some []
  /\ fullmatch_kebab (strip (field_str scenario_A "slug")) = true
  /\ (110 <= len (strip (field_str scenario_A "excerpt")))%Z.
Proof.
  assert (H : validate_payload no_netloc scenario_A [] [] 12 85 = Some [])
    by (vm_compute; reflexivity).
  split; [exact H|].
  destruct (accepted_draft_is_sound no_netloc scenario_A [] [] 12 85 eq_refl H)
    as [_ [K [E _]]].
  split; [exact K | exact E].
Defined.

(** ** The gate on [status] *)

(** X9.  A status that is a list or an object makes [validate_payload] raise
    (it cannot be looked up in a set); any other status than [publish] and
    [skip], a missing one and one in another case among them, gives the one
    violation on the status and nothing else. *)
Theorem status_gate
    (netloc : str -> option str) (payload : dict) (titles cands : list str)
    (ms mc : Z) :
  let status := get_or payload (lit "status") JNull in
  (is_list status || is_dict status = true ->
   validate_payload netloc payload titles cands ms mc = None)
  /\ (is_list status || is_dict status = false ->
      eq_str status (lit "publish") = false ->
      eq_str status (lit "skip") = false ->
      validate_payload netloc payload titles cands ms mc = Some [StatusInvalid])
  /\ (dict_get payload (lit "status") = None ->
      validate_payload netloc payload titles cands ms mc = Some [StatusInvalid])
  /\ (status = JStr (lit "Publish") ->
      validate_payload netloc payload titles cands ms mc = Some [StatusInvalid]).
Proof.
  intro status.
  assert (Gate : is_list status || is_dict status = false ->
                 eq_str status (lit "publish") = false ->
                 eq_str status (lit "skip") = false ->
                 validate_payload netloc payload titles cands ms mc
                 = Some [StatusInvalid]).
  { intros T P S. unfold validate_payload. fold status.
    destruct status; try discriminate T; rewrite P, S; reflexivity. }
  split; [|split; [exact Gate|split]].
  - intro T. unfold validate_payload. fold status.
    destruct status; try discriminate T; reflexivity.
  - intro N. apply Gate; unfold status, get_or; rewrite N; reflexivity.
  - intro E. apply Gate; rewrite E; reflexivity.
Qed.

(** ** Sources and their domains *)

Lemma filter_length_le {A : Type} (f : A -> bool) (l : list A) :
  (List.length (filter f l) <= List.length l)%nat.
Proof.
  induction l as [|x l IH]; [reflexivity|]. simpl.
  destruct (f x); simpl; lia.
Qed.

Lemma distinct_length_le (l : list str) :
  (List.length (distinct l) <= List.length l)%nat.
Proof.
  induction l as [|x l IH]; [reflexivity|]. simpl.
  destruct (mem x l); simpl; lia.
Qed.

Lemma source_domains_length (netloc : str -> option str) (sources : list json) :
  forall domains,
    source_domains netloc sources = Some domains ->
    (List.length domains <= List.length sources)%nat.
Proof.
  induction sources as [|source rest IH]; intros domains H.
  - injection H as <-. reflexivity.
  - cbn [source_domains] in H.
    destruct (source_domains netloc rest) as [ds|] eqn:R.
    + specialize (IH ds eq_refl).
      match type of H with
      | match ?here with Some _ => _ | None => _ end = _ =>
          destruct here as [d|] eqn:Here; [|discriminate H]
      end.
      injection H as <-. rewrite length_app. simpl.
      assert (List.length d <= 1)%nat; [|lia].
      destruct source; try (injection Here as <-; simpl; lia).
      destruct (negb (is_empty _)); [injection Here as <-; simpl; lia|].
      destruct (domain_from_url netloc _); [|discriminate Here].
      injection Here as <-. simpl. lia.
    + match type of H with
      | match ?here with Some _ => _ | None => _ end = _ =>
          destruct here; discriminate H
      end.
Qed.

(** There are never more unique domains than sources. *)
Lemma unique_domains_length (netloc : str -> option str) (sources : list json)
    (domains : list str) :
  unique_domains_of netloc sources = Some domains ->
  (len_list domains <= len_list sources)%Z.
Proof.
  unfold unique_domains_of. intro H.
  destruct (source_domains netloc sources) as [ds|] eqn:S; [|discriminate H].
  injection H as <-.
  unfold len_list. apply Nat2Z.inj_le.
  eapply Nat.le_trans; [apply distinct_length_le|].
  eapply Nat.le_trans; [apply filter_length_le|].
  exact (source_domains_length netloc sources ds S).
Qed.

Lemma unique_domains_shape (netloc : str -> option str) (sources : list json)
    (domains : list str) :
  unique_domains_of netloc sources = Some domains ->
  NoDup domains /\ Forall (fun d => d <> []) domains.
Proof.
  unfold unique_domains_of. intro H.
  destruct (source_domains netloc sources) as [ds|]; [|discriminate H].
  injection H as <-. split; [apply distinct_NoDup|].
  apply Forall_distinct. apply Forall_forall. intros d Hd.
  apply filter_In in Hd as [_ Hd]. destruct d; [discriminate Hd | discriminate].
Qed.

(** X10.  When [validate_payload] reports too few sources, the number it
    reports is the length of the list of sources, the distinct domains are
    no more than the sources, and the violation on too few domains is
    reported as well. *)
Theorem too_few_sources_too_few_domains
    (netloc : str -> option str) (payload : dict) (titles cands : list str)
    (ms mc : Z) (errs : list violation) (found : Z) :
  get_or payload (lit "status") JNull = JStr (lit "publish") ->
  validate_payload netloc payload titles cands ms mc = Some errs ->
  In (TooFewSources ms found) errs ->
  exists sources domains,
    get_or payload (lit "sources") (JList []) = JList sources
    /\ unique_domains_of netloc sources = Some domains
    /\ NoDup domains /\ Forall (fun d => d <> []) domains
    /\ found = len_list sources
    /\ (len_list domains <= found)%Z
    /\ In (TooFewDomains ms (len_list domains)) errs.
Proof.
  intros Hs H Hin.
  assert (G : exists sources domains,
                get_or payload (lit "sources") (JList []) = JList sources
                /\ unique_domains_of netloc sources = Some domains).
  { pose proof H as H'. open_validate Hs H'.
    5: { exists sources, unique_domains. split; [reflexivity | exact Edom]. }
    all: exfalso; rewrite <- H' in Hin;
      repeat (apply in_app_or in Hin as [Hin | Hin]);
      repeat match goal with
      | Hin : In _ (when _ _) |- _ => unfold when in Hin
      | Hin : In _ (if ?c then _ else _) |- _ => destruct c
      | Hin : In _ [] |- _ => destruct Hin
      | Hin : In _ [_] |- _ => destruct Hin as [Hin | []]; discriminate Hin
      end. }
  destruct G as (sources & domains & Esrc & Edom).
  pose proof (sources_rules_alone netloc payload titles cands ms mc errs
                sources domains Hs Esrc Edom H) as R.
  assert (F : In (TooFewSources ms found) (filter sources_rule errs))
    by (apply filter_In; split; [exact Hin | reflexivity]).
  rewrite R in F.
  pose proof (unique_domains_length netloc sources domains Edom) as L.
  destruct (unique_domains_shape netloc sources domains Edom) as [Nd Ne].
  exists sources, domains.
  split; [exact Esrc|]. split; [exact Edom|]. split; [exact Nd|].
  split; [exact Ne|].
  destruct (len_list sources <? ms)%Z eqn:Few.
  - apply Z.ltb_lt in Few.
    assert (Fd : (len_list domains <? ms)%Z = true) by (apply Z.ltb_lt; lia).
    rewrite Fd in R, F. cbn [when app] in R, F.
    destruct F as [F | [F | []]]; [|discriminate F].
    injection F as <-. split; [reflexivity|]. split; [exact L|].
    apply (filter_In sources_rule). rewrite R. right. left. reflexivity.
  - cbn [when app] in F. unfold when in F.
    destruct (len_list domains <? ms)%Z; [|destruct F].
    destruct F as [F | []]. discriminate F.
Qed.

Lemma too_few_sources_too_few_domains_witness :
  exists errs,
    validate_payload no_netloc
      (scenario_draft scenario_title
         [source_entry "https://kathmandupost.example/ram-bahadur-thapa-01"
            "kathmandupost.example"])
      [] [] 12 85 = Some errs
    /\ In (TooFewSources 12 1) errs
    /\ In (TooFewDomains 12 1) errs.
Proof.
  set (draft := scenario_draft scenario_title
                  [source_entry "https://kathmandupost.example/ram-bahadur-thapa-01"
                     "kathmandupost.example"]).
  assert (H : exists errs, validate_payload no_netloc draft [] [] 12 85 = Some errs
                           /\ In (TooFewSources 12 1) errs).
  { eexists. split; [vm_compute; reflexivity|]. left. reflexivity. }
  destruct H as [errs [H Hin]]. exists errs.
  split; [exact H|]. split; [exact Hin|].
  destruct (too_few_sources_too_few_domains no_netloc draft [] [] 12 85 errs 1
              eq_refl H Hin)
    as (sources & domains & Esrc & Edom & _ & _ & _ & _ & Hd).
  assert (E : len_list domains = 1%Z).
  { change (get_or draft (lit "sources") (JList []))
      with (JList [source_entry
                     "https://kathmandupost.example/ram-bahadur-thapa-01"
                     "kathmandupost.example"]) in Esrc.
    injection Esrc as <-. vm_compute in Edom. injection Edom as <-. reflexivity. }
  rewrite E in Hd. exact Hd.
Defined.

(** ** Validation of a normalised draft *)

Lemma absent_via_filter (f : violation -> bool) (v : violation)
    (errs : list violation) :
  f v = true -> filter f errs = [] -> ~ In v errs.
Proof.
  intros Hf E Hin.
  assert (F : In v (filter f errs)) by (apply filter_In; split; assumption).
  rewrite E in F. exact F.
Qed.

(** [In v errs -> cond = true], for a rule that appends [v] when [cond],
    also in a run that stopped before the rule. *)
Ltac rule_heard H :=
  match goal with
  | |- In ?v ?errs -> ?c = true =>
      let Hin := fresh "Hin" in
      intro Hin;
      first
        [ apply (in_via_filter (of_rule v) v errs c);
          [ reflexivity
          | rewrite <- H; project_rules; reflexivity
          | exact Hin ]
        | exfalso;
          apply (absent_via_filter (of_rule v) v errs);
          [ reflexivity
          | rewrite <- H; project_rules; reflexivity
          | exact Hin ] ]
  end.

(** The rules on the [seo] object report only what they test. *)
Lemma seo_rules_heard
    (netloc : str -> option str) (payload : dict) (titles cands : list str)
    (ms mc : Z) (errs : list violation) :
  get_or payload (lit "status") JNull = JStr (lit "publish") ->
  validate_payload netloc payload titles cands ms mc = Some errs ->
  let seo := object_at payload "seo" in
  let slug := strip (field_str payload "slug") in
  let meta_title := strip (field_str seo "meta_title") in
  let meta_description := strip (field_str seo "meta_description") in
  let hint :=
    join (lit "-") (findall_alnum (lower (strip (field_str seo "seo_slug_hint")))) in
  (In SeoNotObject errs ->
   negb (is_dict (get_or payload (lit "seo") (JObj []))) = true)
  /\ (In MetaTitleOutOfWindow errs ->
      negb ((45 <=? len meta_title)%Z && (len meta_title <=? 65)%Z) = true)
  /\ (In MetaDescriptionOutOfWindow errs ->
      negb ((130 <=? len meta_description)%Z
            && (len meta_description <=? 170)%Z) = true)
  /\ (In SlugHintMisaligned errs ->
      negb (is_empty hint) && negb (str_eqb hint slug) = true).
Proof.
  intros Hs H seo slug meta_title meta_description hint.
  open_validate Hs H; (split; [|split; [|split]]); rule_heard H.
Qed.

Lemma strip_ws_tidy (s : str) : ws_tidy s = true -> strip s = s.
Proof. intro T. unfold strip. apply (strip_by_tidy is_space " "%char), T. Qed.

(** X11.  On a draft that [normalize_seo_fields] returned,
    [validate_payload] never reports that [seo] is not an object nor that
    the slug hint is misaligned; it reports the meta title or the meta
    description only for being too short, never for being too long; and
    the focus keyphrase is not empty. *)
Theorem normalized_draft_seo_rules
    (netloc : str -> option str) (fuel : nat) (payload out : dict)
    (titles cands : list str) (ms mc : Z) (errs : list violation) :
  get_or payload (lit "status") JNull = JStr (lit "publish") ->
  normalize_seo_fields fuel payload = Some out ->
  validate_payload netloc out titles cands ms mc = Some errs ->
  let seo := object_at out "seo" in
  ~ In SeoNotObject errs
  /\ ~ In SlugHintMisaligned errs
  /\ (In MetaTitleOutOfWindow errs ->
      (len (field_str seo "meta_title") < 45)%Z)
  /\ (In MetaDescriptionOutOfWindow errs ->
      (len (field_str seo "meta_description") < 130)%Z)
  /\ field_str seo "focus_keyphrase" <> [].
Proof.
  intros Hs N V seo.
  destruct (normalize_seo_fields_output fuel payload out Hs N)
    as (seo' & keyphrase & meta_title & meta_description & slug
        & Hst & Hseo & Hslug & Hk & Hmt & Hmd & Hh
        & [Tk Nk] & [Tmt Lmt] & [Tmd Lmd] & [Ks Ls]).
  assert (Eseo : seo = seo').
  { unfold seo, object_at. rewrite (get_or_some _ _ _ _ Hseo). reflexivity. }
  assert (Gseo : get_or out (lit "seo") (JObj []) = JObj seo')
    by exact (get_or_some _ _ _ _ Hseo).
  assert (Fmt : field_str seo "meta_title" = meta_title).
  { rewrite Eseo. unfold field_str. rewrite (get_or_some _ _ _ _ Hmt). reflexivity. }
  assert (Fmd : field_str seo "meta_description" = meta_description).
  { rewrite Eseo. unfold field_str. rewrite (get_or_some _ _ _ _ Hmd). reflexivity. }
  assert (Fh : field_str seo "seo_slug_hint" = slug).
  { rewrite Eseo. unfold field_str. rewrite (get_or_some _ _ _ _ Hh). reflexivity. }
  assert (Fk : field_str seo "focus_keyphrase" = keyphrase).
  { rewrite Eseo. unfold field_str. rewrite (get_or_some _ _ _ _ Hk). reflexivity. }
  assert (Fs : field_str out "slug" = slug).
  { unfold field_str. rewrite (get_or_some _ _ _ _ Hslug). reflexivity. }
  destruct (seo_rules_heard netloc out titles cands ms mc errs Hst V)
    as (R1 & R2 & R3 & R4).
  fold seo in R2, R3, R4. rewrite Fmt in R2. rewrite Fmd in R3.
  rewrite Fh, Fs in R4.
  rewrite (strip_ws_tidy _ Tmt) in R2. rewrite (strip_ws_tidy _ Tmd) in R3.
  rewrite (strip_kebab slug Ks) in R4.
  split; [|split; [|split; [|split]]].
  - intro Hin. specialize (R1 Hin). rewrite Gseo in R1. discriminate R1.
  - intro Hin. specialize (R4 Hin).
    pose proof Ks as Ks'. rewrite fullmatch_kebab_tidy in Ks'.
    apply andb_prop in Ks' as [_ T]. apply tidy_parts in T as [P _].
    rewrite (kebab_lower slug P), (slug_join_kebab slug Ks), str_eqb_refl in R4.
    rewrite andb_false_r in R4. discriminate R4.
  - intro Hin. specialize (R2 Hin). rewrite Fmt.
    apply negb_true_iff, andb_false_iff in R2 as [R2 | R2].
    + apply Z.leb_gt, R2.
    + apply Z.leb_gt in R2. lia.
  - intro Hin. specialize (R3 Hin). rewrite Fmd.
    apply negb_true_iff, andb_false_iff in R3 as [R3 | R3].
    + apply Z.leb_gt, R3.
    + apply Z.leb_gt in R3. lia.
  - rewrite Fk. exact Nk.
Qed.

Lemma normalized_draft_seo_rules_witness :
  exists out errs,
    normalize_seo_fields 100 trimmed_keyphrase_draft = Some out
    /\ validate_payload no_netloc out [] [] 12 85 = Some errs
    /\ ~ In SlugHintMisaligned errs.
Proof.
  assert (NV : exists out errs,
                 normalize_seo_fields 100 trimmed_keyphrase_draft = Some out
                 /\ validate_payload no_netloc out [] [] 12 85 = Some errs).
  { eexists. eexists. split; [vm_compute; reflexivity|].
    vm_compute. reflexivity. }
  destruct NV as (out & errs & N & V). exists out, errs.
  split; [exact N|]. split; [exact V|].
  exact (proj1 (proj2 (normalized_draft_seo_rules no_netloc 100
                         trimmed_keyphrase_draft out [] [] 12 85 errs
                         eq_refl N V))).
Defined.

(** ** The run of [cybersecurity_autopost.main] *)

Lemma acquire_lock_cases (stale_after_minutes : Z) (w : world) :
  (exists mtime,
     lock_mtime w = Some mtime
     /\ (now w - mtime <= stale_after_minutes * 60)%Z
     /\ acquire_lock stale_after_minutes w = (LockHeld, w, []))
  \/ (exists events,
        acquire_lock stale_after_minutes w
        = (Acquired, set_lock w (Some (now w)), events)
        /\ (events = [LockCreate] \/ events = [LockUnlink; LockCreate])
        /\ match lock_mtime w with
           | Some mtime => (now w - mtime > stale_after_minutes * 60)%Z
           | None => True
           end).
Proof.
  unfold acquire_lock. destruct (lock_mtime w) as [mtime|] eqn:L.
  - destruct (now w - mtime >? stale_after_minutes * 60)%Z eqn:E.
    + right. exists [LockUnlink; LockCreate].
      apply Z.gtb_lt in E. split; [reflexivity|]. split; [auto | lia].
    + left. exists mtime. rewrite Z.gtb_ltb in E. apply Z.ltb_ge in E.
      split; [reflexivity|]. split; [lia | reflexivity].
  - right. exists [LockCreate]. unfold create_lock. rewrite L.
    split; [reflexivity|]. split; [auto | exact I].
Qed.

Section RunFacts.

Variable netloc : str -> option str.

(** Closes the facts about a body of the [try] block that ended before the
    call of [insert_post], without a validation failure and not in the
    padding loop. *)
Ltac early_end :=
  let HI := fresh "HI" in
  split; [auto|];
  split; [split; intro HI; [discriminate HI | not_among HI]|];
  split; [intro HI; not_among HI|];
  split; [intro HI; discriminate HI|];
  intro HI; not_among HI.

(** How the body of the [try] block can end, and what it did before. *)
Lemma pipeline_cases (fuel : nat) (args : arguments) (env : collaborators)
    (fl : flow) (evs : list event) :
  pipeline netloc fuel args env = (fl, evs) ->
  (fl = Raise \/ fl = Return 0 \/ fl = Return 2 \/ fl = Unfinished)
  /\ (fl = Return 2 <-> In (Log LogValidationFailed) evs)
  /\ (In (Log LogValidationFailed) evs -> ~ In InsertPost evs)
  /\ (fl = Unfinished ->
      ~ In SaveDebugPayload evs /\ ~ In InsertPost evs
      /\ exists draft,
           codex_answer env = Some draft
           /\ normalize_seo_fields fuel draft = None)
  /\ (In InsertPost evs ->
      arg_dry_run args = false
      /\ debug_file_saved env = true
      /\ exists titles cands draft out,
           titles_answer env = Some titles
           /\ candidates_answer env = Some cands
           /\ codex_answer env = Some draft
           /\ normalize_seo_fields fuel draft = Some out
           /\ validate_payload netloc out titles cands
                (arg_min_sources args) (arg_min_confidence args) = Some []
           /\ eq_str (get_or out (lit "status") JNull) (lit "skip") = false).
Proof.
  unfold pipeline. intro H.
  destruct (titles_answer env) as [titles|] eqn:Et.
  2: { cbn [emit fst snd app] in H. injection H as <- <-. early_end. }
  destruct (candidates_answer env) as [cands|] eqn:Ec.
  2: { cbn [emit fst snd app] in H. injection H as <- <-. early_end. }
  destruct (codex_answer env) as [draft|] eqn:Ed.
  2: { cbn [emit fst snd app] in H. injection H as <- <-. early_end. }
  destruct (normalize_seo_fields fuel draft) as [out|] eqn:En.
  2: { cbn [emit fst snd app] in H. injection H as <- <-.
       split; [auto 6|].
       split; [split; intro HI; [discriminate HI | not_among HI]|].
       split; [intro HI; not_among HI|].
       split; [|intro HI; not_among HI].
       intros _. split; [intro HI; not_among HI|].
       split; [intro HI; not_among HI|].
       exists draft. split; [reflexivity | exact En]. }
  destruct (debug_file_saved env) eqn:Es; cbn [negb] in H.
  2: { cbn [emit fst snd app] in H. injection H as <- <-. early_end. }
  destruct (validate_payload netloc out titles cands (arg_min_sources args)
              (arg_min_confidence args)) as [errors|] eqn:Ev.
  2: { cbn [emit fst snd app] in H. injection H as <- <-. early_end. }
  destruct errors as [|err errors]; cbn [is_empty negb] in H.
  2: { cbn [emit fst snd app] in H. injection H as <- <-.
       split; [auto|].
       split; [split; intro HI; [simpl; auto 20 | reflexivity]|].
       split; [intros _ HI; not_among HI|].
       split; [intro HI; discriminate HI | intro HI; not_among HI]. }
  destruct (eq_str (get_or out (lit "status") JNull) (lit "skip")) eqn:Ek.
  { cbn [emit fst snd app] in H. injection H as <- <-. early_end. }
  destruct (arg_dry_run args) eqn:Er.
  { cbn [emit fst snd app] in H. injection H as <- <-. early_end. }
  assert (Facts : false = false
                  /\ true = true
                  /\ exists titles' cands' draft' out',
                       Some titles = Some titles'
                       /\ Some cands = Some cands'
                       /\ Some draft = Some draft'
                       /\ normalize_seo_fields fuel draft' = Some out'
                       /\ validate_payload netloc out' titles' cands'
                            (arg_min_sources args) (arg_min_confidence args)
                          = Some []
                       /\ eq_str (get_or out' (lit "status") JNull) (lit "skip")
                          = false).
  { split; [reflexivity|]. split; [reflexivity|].
    exists titles, cands, draft, out. auto 10. }
  destruct (insert_answer env);
    cbn [emit fst snd app] in H; injection H as <- <-;
    (split; [auto|]);
    (split; [split; intro HI; [discriminate HI | not_among HI]|]);
    (split; [intro HI; not_among HI|]);
    (split; [intro HI; discriminate HI | intros _; exact Facts]).
Qed.

Lemma acquire_lock_events (stale_after_minutes : Z) (w w' : world)
    (outcome : lock_outcome) (events : list event) :
  acquire_lock stale_after_minutes w = (outcome, w', events) ->
  outcome <> CreateFailed
  /\ (forall e, In e events -> e = LockUnlink \/ e = LockCreate)
  /\ (outcome = LockHeld -> w' = w /\ events = [])
  /\ (outcome = Acquired -> lock_mtime w' = Some (now w) /\ In LockCreate events).
Proof.
  intro H.
  destruct (acquire_lock_cases stale_after_minutes w)
    as [(mtime & _ & _ & E) | (evs & E & Hev & _)];
    rewrite E in H; injection H as <- <- <-.
  - split; [discriminate|]. split; [intros e []|].
    split; [auto | discriminate].
  - split; [discriminate|]. split.
    + intros e He. destruct Hev as [-> | ->]; simpl in He; intuition auto.
    + split; [discriminate|]. intros _. split; [reflexivity|].
      destruct Hev as [-> | ->]; simpl; auto.
Qed.

(** A draft without violations has one of the two statuses. *)
Lemma accepted_status (payload : dict) (titles cands : list str) (ms mc : Z) :
  validate_payload netloc payload titles cands ms mc = Some [] ->
  eq_str (get_or payload (lit "status") JNull) (lit "skip") = false ->
  get_or payload (lit "status") JNull = JStr (lit "publish").
Proof.
  intros V K. unfold validate_payload in V.
  destruct (get_or payload (lit "status") JNull) as [| | |s| |] eqn:E;
    try discriminate V.
  rewrite K in V. rewrite orb_false_r in V.
  destruct (eq_str (JStr s) (lit "publish")) eqn:P; [|discriminate V].
  apply str_eqb_eq in P. subst s. reflexivity.
Qed.

(** X12.  A run of [main] calls [insert_post] only when it is not a dry
    run, the corpus was read, the draft was normalised and saved,
    [validate_payload] returned no violation on the normalised draft and the
    status is [publish]; such a run ends with exit code 0 or 1 and logs no
    validation failure. *)
Theorem main_inserts_only_valid
    (fuel : nat) (args : arguments) (env : collaborators) (w w' : world)
    (how : ending) (events : list event) :
  main netloc fuel args env w = (how, w', events) ->
  In InsertPost events ->
  arg_dry_run args = false
  /\ debug_file_saved env = true
  /\ (how = Exit 0 \/ how = Exit 1)
  /\ ~ In (Log LogValidationFailed) events
  /\ exists titles cands draft out,
       titles_answer env = Some titles
       /\ candidates_answer env = Some cands
       /\ codex_answer env = Some draft
       /\ normalize_seo_fields fuel draft = Some out
       /\ validate_payload netloc out titles cands
            (arg_min_sources args) (arg_min_confidence args) = Some []
       /\ get_or out (lit "status") JNull = JStr (lit "publish").
Proof.
  unfold main. intros H HI.
  destruct (negb (schema_exists w)); [injection H as <- <- <-; not_among HI|].
  destruct (negb (php_list_titles_exists w) || negb (php_list_candidates_exists w)
            || negb (php_insert_post_exists w));
    [injection H as <- <- <-; not_among HI|].
  destruct (acquire_lock (arg_stale_lock_minutes args) w)
    as [[outcome w1] lock_events] eqn:A.
  destruct (acquire_lock_events _ _ _ _ _ A) as (_ & Lev & _ & _).
  assert (NoIns : ~ In InsertPost lock_events).
  { intro X. destruct (Lev _ X) as [X' | X']; discriminate X'. }
  assert (NoLvf : ~ In (Log LogValidationFailed) lock_events).
  { intro X. destruct (Lev _ X) as [X' | X']; discriminate X'. }
  destruct outcome.
  - destruct (pipeline netloc fuel args env) as [fl evs] eqn:P.
    destruct (pipeline_cases fuel args env fl evs P)
      as (Cfl & C2 & C3 & CU & C4).
    assert (Iev : In InsertPost evs).
    { destruct fl; injection H as <- <- <-;
        apply in_app_or in HI as [HI | HI]; try contradiction;
        try exact HI;
        apply in_app_or in HI as [HI | HI]; try exact HI; not_among HI. }
    destruct (C4 Iev) as (Dr & Ds & titles & cands & draft & out
                          & Et & Ec & Ed & En & Ev & Ek).
    assert (Nlvf : ~ In (Log LogValidationFailed) evs)
      by (intro X; exact (C3 X Iev)).
    split; [exact Dr|]. split; [exact Ds|]. split; [|split].
    + destruct fl as [c| |]; injection H as <- <- <-.
      * destruct Cfl as [F | [F | [F | F]]]; try discriminate F.
        -- injection F as <-. left. reflexivity.
        -- exfalso. apply Nlvf, C2, F.
      * right. reflexivity.
      * exfalso. exact (proj1 (proj2 (CU eq_refl)) Iev).
    + intro X. destruct fl; injection H as <- <- <-;
        apply in_app_or in X as [X | X]; try contradiction;
        try (apply in_app_or in X as [X | X]; try contradiction; not_among X).
    + exists titles, cands, draft, out.
      repeat (split; [assumption|]). exact (accepted_status _ _ _ _ _ Ev Ek).
  - injection H as <- <- <-.
    apply in_app_or in HI as [HI | HI]; [contradiction | not_among HI].
  - injection H as <- <- <-.
    apply in_app_or in HI as [HI | HI]; [contradiction | not_among HI].
Qed.



End RunFacts.

Lemma main_inserts_only_valid_witness :
  exists how w' events,
    main no_netloc 1 scenario_D_args scenario_D_env
      (mkWorld true true true true None 1000) = (how, w', events)
    /\ In InsertPost events
    /\ how = Exit 0
    /\ arg_dry_run scenario_D_args = false.
Proof.
  assert (R : exists how w' events,
                main no_netloc 1 scenario_D_args scenario_D_env
                  (mkWorld true true true true None 1000)
                = (how, w', events)
                /\ In InsertPost events /\ how = Exit 0).
  { eexists. eexists. eexists. split; [vm_compute; reflexivity|].
    split; [simpl; auto 20 | reflexivity]. }
  destruct R as (how & w' & events & M & I & C).
  exists how, w', events. split; [exact M|]. split; [exact I|].
  split; [exact C|].
  exact (proj1 (main_inserts_only_valid no_netloc 1 scenario_D_args
                  scenario_D_env _ w' how events M I)).
Defined.


(** ** The lock *)

(** X14.  A released lock can be acquired, and releasing twice is releasing
    once; a lock just acquired is refused to a second run when the threshold
    is not negative; a refusal changes nothing; a marker whose age is
    exactly the threshold is not stale; and under a negative threshold a
    marker that is not from the future is always replaced. *)
Theorem lock_protocol (stale_after_minutes : Z) (w : world) :
  (* a released lock can always be acquired *)
  acquire_lock stale_after_minutes (release_lock w)
  = (Acquired, set_lock w (Some (now w)), [LockCreate])
  (* releasing twice is releasing once *)
  /\ release_lock (release_lock w) = release_lock w
  (* a lock just acquired is held against a second run *)
  /\ (forall w' events,
        acquire_lock stale_after_minutes w = (Acquired, w', events) ->
        lock_mtime w' = Some (now w')
        /\ ((0 <= stale_after_minutes)%Z ->
            acquire_lock stale_after_minutes w' = (LockHeld, w', [])))
  (* a refusal changes nothing *)
  /\ (forall w' events,
        acquire_lock stale_after_minutes w = (LockHeld, w', events) ->
        w' = w /\ events = [])
  (* the marker is stale only beyond the threshold *)
  /\ (forall mtime,
        lock_mtime w = Some mtime ->
        (now w - mtime = stale_after_minutes * 60)%Z ->
        acquire_lock stale_after_minutes w = (LockHeld, w, []))
  (* under a negative threshold a marker that is not from the future is
     always stale *)
  /\ (forall mtime,
        lock_mtime w = Some mtime -> (mtime <= now w)%Z ->
        (stale_after_minutes < 0)%Z ->
        acquire_lock stale_after_minutes w
        = (Acquired, set_lock w (Some (now w)), [LockUnlink; LockCreate])).
Proof.
  split; [reflexivity|]. split; [reflexivity|].
  split; [|split; [|split]].
  - intros w' events A.
    destruct (acquire_lock_cases stale_after_minutes w)
      as [(mtime & _ & _ & E) | (evs & E & _ & _)];
      rewrite E in A; [discriminate A|]. injection A as <- <-.
    split; [reflexivity|]. intro Hs.
    unfold acquire_lock. cbn [lock_mtime set_lock now].
    destruct (now w - now w >? stale_after_minutes * 60)%Z eqn:G;
      [|reflexivity].
    apply Z.gtb_lt in G. lia.
  - intros w' events A.
    destruct (acquire_lock_cases stale_after_minutes w)
      as [(mtime & _ & _ & E) | (evs & E & _ & _)];
      rewrite E in A; [|discriminate A]. injection A as <- <-. auto.
  - intros mtime L Hage. unfold acquire_lock. rewrite L.
    destruct (now w - mtime >? stale_after_minutes * 60)%Z eqn:G;
      [|reflexivity].
    apply Z.gtb_lt in G. lia.
  - intros mtime L Hm Hs. unfold acquire_lock. rewrite L.
    destruct (now w - mtime >? stale_after_minutes * 60)%Z eqn:G.
    + reflexivity.
    + rewrite Z.gtb_ltb in G. apply Z.ltb_ge in G. lia.
Qed.

(** ** [gemini_autopost]: the generation call, for every service *)

Section GeminiRun.

Import Gemini.

Variable service : nat -> api_reply.

(** The ways [run_gemini] can end. *)
Lemma run_gemini_cases :
  (rate_limited (service 0) = false
   /\ run_gemini service = (settles (service 0), mkRetry 1 []))
  \/ (rate_limited (service 0) = true /\ rate_limited (service 1) = false
      /\ run_gemini service = (settles (service 1), mkRetry 2 [30%Z]))
  \/ (rate_limited (service 0) = true /\ rate_limited (service 1) = true
      /\ rate_limited (service 2) = false
      /\ run_gemini service = (settles (service 2), mkRetry 3 [30%Z; 60%Z]))
  \/ (rate_limited (service 0) = true /\ rate_limited (service 1) = true
      /\ rate_limited (service 2) = true
      /\ run_gemini service
         = (Raised RateLimitExceeded, mkRetry 3 [30%Z; 60%Z])).
Proof.
  unfold run_gemini. change (range max_retries) with [0%Z; 1%Z; 2%Z].
  destruct (rate_limited (service 0)) eqn:R0.
  2: { left. split; [reflexivity|]. apply retry_loop_settles. exact R0. }
  right. pose proof (rate_limited_429 _ R0) as E0.
  cbn [retry_loop calls sleeps]. rewrite E0.
  change (retry_loop service max_retries base_wait [0%Z; 1%Z; 2%Z] (mkRetry 0 []))
    with (retry_loop service max_retries base_wait [1%Z; 2%Z] (mkRetry 1 [30%Z])).
  change ((if (429 =? 429)%Z
           then if (0 <? max_retries - 1)%Z
                then retry_loop service max_retries base_wait [1%Z; 2%Z]
                       (mkRetry 1 ([] ++ [(base_wait * (0 + 1))%Z]))
                else (Raised RateLimitExceeded, mkRetry 1 [])
           else (Raised ApiError, mkRetry 1 [])))
    with (retry_loop service max_retries base_wait [1%Z; 2%Z] (mkRetry 1 [30%Z])).
  destruct (rate_limited (service 1)) eqn:R1.
  2: { left. split; [reflexivity|]. split; [reflexivity|].
       apply (retry_loop_settles service 1 [2%Z] (mkRetry 1 [30%Z])). exact R1. }
  right. pose proof (rate_limited_429 _ R1) as E1.
  cbn [retry_loop calls sleeps]. rewrite E1.
  change ((if (429 =? 429)%Z
           then if (1 <? max_retries - 1)%Z
                then retry_loop service max_retries base_wait [2%Z]
                       (mkRetry 2 ([30%Z] ++ [(base_wait * (1 + 1))%Z]))
                else (Raised RateLimitExceeded, mkRetry 2 [30%Z])
           else (Raised ApiError, mkRetry 2 [30%Z])))
    with (retry_loop service max_retries base_wait [2%Z] (mkRetry 2 [30%Z; 60%Z])).
  destruct (rate_limited (service 2)) eqn:R2.
  2: { left. split; [reflexivity|]. split; [reflexivity|]. split; [reflexivity|].
       apply (retry_loop_settles service 2 [] (mkRetry 2 [30%Z; 60%Z])). exact R2. }
  right. pose proof (rate_limited_429 _ R2) as E2.
  split; [reflexivity|]. split; [reflexivity|]. split; [reflexivity|].
  cbn [retry_loop calls sleeps]. rewrite E2. reflexivity.
Qed.

(** The waits of a run add up to a minute and a half at most. *)
Lemma run_gemini_sleeps :
  (fold_right Z.add 0%Z (sleeps (snd (run_gemini service))) <= 90)%Z.
Proof.
  destruct run_gemini_cases
    as [(_ & E) | [(_ & _ & E) | [(_ & _ & _ & E) | (_ & _ & _ & E)]]];
    rewrite E; simpl; lia.
Qed.



End GeminiRun.

(** ** [gemini_autopost]: validation and the run *)

Section GeminiFacts.

Import Gemini.

Variable netloc : str -> option str.

Lemma any_contains_spec (cand_name : str) (candidates : list json) (found : bool) :
  any_contains cand_name candidates = Some found ->
  (found = true
   <-> exists c, In (JStr c) candidates /\ contains (lower c) cand_name = true).
Proof.
  revert found. induction candidates as [|c rest IH]; intros found H.
  - injection H as <-. split; [discriminate | intros [c [[] _]]].
  - cbn [any_contains] in H. destruct c as [| | |c| |]; try discriminate H.
    destruct (contains (lower c) cand_name) eqn:C.
    + injection H as <-. split; [|reflexivity]. intros _.
      exists c. split; [left; reflexivity | exact C].
    + rewrite (IH found H). split.
      * intros [c' [Hin Hc]]. exists c'. split; [right; exact Hin | exact Hc].
      * intros [c' [[Hin | Hin] Hc]]; [|exists c'; auto].
        injection Hin as <-. rewrite C in Hc. discriminate Hc.
Qed.

Lemma any_contains_strings (cand_name : str) (candidates : list json) :
  any_contains cand_name candidates = Some false ->
  Forall (fun c => exists s, c = JStr s) candidates.
Proof.
  induction candidates as [|c rest IH]; intro H; [constructor|].
  cbn [any_contains] in H. destruct c as [| | |c| |]; try discriminate H.
  destruct (contains (lower c) cand_name); [discriminate H|].
  constructor; [eauto | exact (IH H)].
Qed.

(** X16.  On a draft that does not decline,
    [gemini_autopost.validate_payload] reports the candidate as existing
    exactly when the lower-cased name is a substring of a lower-cased entry
    of the corpus; so an empty name exists in every non-empty corpus, and
    when the rule is silent every entry of the corpus is a string. *)
Theorem gemini_candidate_is_substring_test
    (payload : dict) (titles candidates : list json) (ms : Z)
    (errs : list violation) :
  eq_str (get_or payload (lit "status") JNull) (lit "skip") = false ->
  validate_payload netloc payload titles candidates ms = Some errs ->
  exists profile name,
    get_or payload (lit "candidate_profile") (JObj []) = JObj profile
    /\ get_or profile (lit "candidate_name") (JStr []) = JStr name
    /\ (In CandidateExists errs
        <-> exists c,
              In (JStr c) candidates
              /\ contains (lower c) (lower name) = true)
    /\ (name = [] -> candidates <> [] -> In CandidateExists errs)
    /\ (~ In CandidateExists errs ->
        Forall (fun c => exists s, c = JStr s) candidates).
Proof.
  intros Hs H. unfold validate_payload in H. rewrite Hs in H.
  destruct (get_or payload (lit "candidate_profile") (JObj []))
    as [| | | | |profile] eqn:Ep; try discriminate H.
  destruct (get_or profile (lit "candidate_name") (JStr []))
    as [| | |name| |] eqn:En; try discriminate H.
  destruct (any_contains (lower name) candidates) as [found|] eqn:A;
    [|discriminate H].
  destruct (iterate _) as [srcs|]; [|discriminate H].
  destruct (source_domains netloc srcs) as [domains|]; [|discriminate H].
  injection H as <-.
  pose proof (any_contains_spec _ _ _ A) as Spec.
  assert (In_iff : In CandidateExists
                     (([] ++ (if found then [CandidateExists] else []))
                      ++ (if (len_list (distinct domains) <? ms)%Z
                          then [NotEnoughSources (len_list srcs)] else []))
                   <-> found = true).
  { destruct found, (len_list (distinct domains) <? ms)%Z; simpl;
      intuition discriminate. }
  exists profile, name. split; [reflexivity|]. split; [exact En|].
  split; [rewrite In_iff; exact Spec|]. split.
  - intros -> Hne. apply In_iff.
    destruct candidates as [|c rest]; [congruence|].
    cbn [any_contains] in A. destruct c as [| | |c| |]; try discriminate A.
    change (lower []) with (@nil ascii) in A.
    rewrite contains_nil in A. injection A as <-. reflexivity.
  - intro Hn. destruct found; [exfalso; apply Hn, In_iff; reflexivity|].
    exact (any_contains_strings _ _ A).
Qed.

(** X17.  [gemini_autopost.main] ends with exit code 0 or 1 after waits of at
    most 90 seconds; without an API key the code is 1 and nothing is waited
    for; the code is 0 only when the corpus was read, the service returned
    an object, and the normalised draft passed the validation and either
    declines, or was saved in a dry run, or was inserted. *)
Theorem gemini_main_succeeds_only_valid
    (env : run_env) (service : nat -> api_reply) :
  let code := fst (main netloc env service) in
  let waits := snd (main netloc env service) in
  (code = 0%Z \/ code = 1%Z)
  /\ (fold_right Z.add 0%Z waits <= 90)%Z
  /\ (api_key_given env = false -> code = 1%Z /\ waits = [])
  /\ (code = 0%Z ->
      api_key_given env = true
      /\ exists titles cands payload out,
           titles_answer env = Some titles
           /\ candidates_answer env = Some cands
           /\ fst (run_gemini service) = Returned (JObj payload)
           /\ normalize_seo_fields payload = Some out
           /\ validate_payload netloc out titles cands (min_sources env)
              = Some []
           /\ (eq_str (get_or out (lit "status") JNull) (lit "skip") = true
               \/ (dry_run env = true /\ debug_file_saved env = true)
               \/ (dry_run env = false /\ insert_answer env = true))).
Proof.
  cbv zeta. unfold main.
  destruct (api_key_given env); cbn [negb];
    [|cbn [fst snd]; split; [auto|]; split; [simpl; lia|];
      split; [auto | discriminate]].
  destruct (titles_answer env) as [titles|];
    [|cbn [fst snd]; split; [auto|]; split; [simpl; lia|];
      split; [discriminate | discriminate]].
  destruct (candidates_answer env) as [cands|];
    [|cbn [fst snd]; split; [auto|]; split; [simpl; lia|];
      split; [discriminate | discriminate]].
  pose proof (run_gemini_sleeps service) as Sum.
  destruct (run_gemini service) as [result st]. cbn [fst snd] in Sum.
  destruct result as [generated| |]; cbn [fst snd];
    try (split; [auto|]; split; [exact Sum|];
         split; [discriminate | discriminate]).
  assert (Code : after_generation netloc env titles cands generated = 0%Z
                 \/ after_generation netloc env titles cands generated = 1%Z).
  { unfold after_generation. destruct generated; auto.
    destruct (normalize_seo_fields fields); auto.
    destruct (validate_payload netloc d titles cands (min_sources env)); auto.
    destruct (negb (is_empty l)); auto.
    destruct (eq_str _ _); auto.
    destruct (dry_run env); [destruct (debug_file_saved env)
                            | destruct (insert_answer env)]; auto. }
  split; [exact Code|]. split; [exact Sum|]. split; [discriminate|].
  intro Z0. split; [reflexivity|]. unfold after_generation in Z0.
  destruct generated as [| | | | |payload]; try discriminate Z0.
  destruct (normalize_seo_fields payload) as [out|] eqn:N; [|discriminate Z0].
  destruct (validate_payload netloc out titles cands (min_sources env))
    as [errs|] eqn:V; [|discriminate Z0].
  destruct errs as [|e errs]; [|discriminate Z0]. cbn [is_empty negb] in Z0.
  exists titles, cands, payload, out.
  split; [reflexivity|]. split; [reflexivity|]. split; [reflexivity|].
  split; [exact N|]. split; [exact V|].
  destruct (eq_str (get_or out (lit "status") JNull) (lit "skip"));
    [left; reflexivity | right].
  destruct (dry_run env).
  - left. destruct (debug_file_saved env); [auto | discriminate Z0].
  - right. destruct (insert_answer env); [auto | discriminate Z0].
Qed.

End GeminiFacts.

Lemma gemini_candidate_is_substring_test_witness :
  exists errs,
    Gemini.validate_payload no_netloc
      [(lit "status", JStr (lit "publish"));
       (lit "candidate_profile",
        JObj [(lit "candidate_name", JStr (lit "Ram"))])]
      [] [JStr (lit "Ramesh Thapa")] 0 = Some errs
    /\ In Gemini.CandidateExists errs.
Proof.
  set (draft := [(lit "status", JStr (lit "publish"));
                 (lit "candidate_profile",
                  JObj [(lit "candidate_name", JStr (lit "Ram"))])]).
  assert (V : exists errs,
                Gemini.validate_payload no_netloc draft [] [JStr (lit "Ramesh Thapa")] 0
                = Some errs).
  { eexists. vm_compute. reflexivity. }
  destruct V as [errs V]. exists errs. split; [exact V|].
  destruct (gemini_candidate_is_substring_test no_netloc draft []
              [JStr (lit "Ramesh Thapa")] 0 errs eq_refl V)
    as (profile & name & Ep & En & Iff & _).
  apply Iff. exists (lit "Ramesh Thapa"). split; [left; reflexivity|].
  change (get_or draft (lit "candidate_profile") (JObj []))
    with (JObj [(lit "candidate_name", JStr (lit "Ram"))]) in Ep.
  injection Ep as <-.
  change (get_or [(lit "candidate_name", JStr (lit "Ram"))]
            (lit "candidate_name") (JStr []))
    with (JStr (lit "Ram")) in En.
  injection En as <-. reflexivity.
Defined.

(** ** [gemini_autopost.normalize_seo_fields] *)



(** ** Reading the corpus: [get_existing_titles] *)

Lemma strip_idempotent (s : str) : strip (strip s) = strip s.
Proof.
  unfold strip. apply strip_by_id; [apply strip_by_starts | apply strip_by_ends].
Qed.

(** X19.  [get_existing_titles] raises when the helper fails or answers
    anything but a list; from a list it returns the stripped texts of the
    items that are not empty, no more than there are items;
    [get_existing_candidates] reads its helper in the same way. *)
Theorem get_existing_titles_clean (answer : option json) :
  (answer = None -> get_existing_titles answer = None)
  /\ (forall payload,
        answer = Some payload -> is_list payload = false ->
        get_existing_titles answer = None)
  /\ (forall items,
        answer = Some (JList items) ->
        exists titles,
          get_existing_titles answer = Some titles
          /\ Forall (fun title => title <> [] /\ strip title = title) titles
          /\ (List.length titles <= List.length items)%nat
          /\ (forall title,
                In title titles
                <-> title <> []
                    /\ exists item, In item items /\ strip (py_str item) = title))
  /\ get_existing_candidates answer = get_existing_titles answer.
Proof.
  split; [intros ->; reflexivity|]. split; [|split; [|reflexivity]].
  - intros payload -> Hl. destruct payload; try reflexivity. discriminate Hl.
  - intros items ->. eexists. split; [reflexivity|].
    set (stripped := map (fun item => strip (py_str item)) items).
    assert (In_iff : forall title,
               In title (filter (fun item => negb (is_empty item)) stripped)
               <-> title <> []
                   /\ exists item, In item items /\ strip (py_str item) = title).
    { intro title. rewrite filter_In. unfold stripped. rewrite in_map_iff.
      split.
      - intros [[item [E Hin]] Ne]. split; [|exists item; auto].
        intros ->. discriminate Ne.
      - intros [Ne [item [Hin E]]]. split; [exists item; auto|].
        destruct title; [congruence | reflexivity]. }
    split; [|split; [|exact In_iff]].
    + apply Forall_forall. intros title Hin. apply In_iff in Hin
        as [Ne [item [_ E]]].
      split; [exact Ne|]. rewrite <- E. apply strip_idempotent.
    + eapply Nat.le_trans; [apply filter_length_le|].
      unfold stripped. rewrite length_map. apply Nat.le_refl.
Qed.

(** ** Escaping: [html.escape] *)

Lemma escape_char_cases (c : ascii) :
  (c = "&"%char /\ escape_char c = lit "&amp;")
  \/ (c = "<"%char /\ escape_char c = lit "&lt;")
  \/ (c = ">"%char /\ escape_char c = lit "&gt;")
  \/ (c = dq /\ escape_char c = lit "&quot;")
  \/ (c = "'"%char /\ escape_char c = lit "&#x27;")
  \/ (escape_char c = [c] /\ c <> "&"%char /\ markup_free c = true).
Proof.
  unfold escape_char, markup_free.
  destruct (chr_eqb c "&") eqn:E1; [apply chr_eqb_eq in E1; auto|].
  destruct (chr_eqb c "<") eqn:E2; [apply chr_eqb_eq in E2; auto 6|].
  destruct (chr_eqb c ">") eqn:E3; [apply chr_eqb_eq in E3; auto 7|].
  destruct (chr_eqb c dq) eqn:E4; [apply chr_eqb_eq in E4; auto 8|].
  destruct (chr_eqb c "'") eqn:E5; [apply chr_eqb_eq in E5; auto 9|].
  do 5 right. split; [reflexivity|]. split; [|reflexivity].
  intros ->. discriminate E1.
Qed.

Lemma html_escape_app (a b : str) :
  html_escape (a ++ b) = html_escape a ++ html_escape b.
Proof. unfold html_escape. apply flat_map_app. Qed.

Lemma html_escape_markup_free (s : str) :
  forallb markup_free (html_escape s) = true.
Proof.
  induction s as [|c s IH]; [reflexivity|].
  change (html_escape (c :: s)) with (escape_char c ++ html_escape s).
  rewrite forallb_app, IH, andb_true_r.
  destruct (escape_char_cases c)
    as [[_ E] | [[_ E] | [[_ E] | [[_ E] | [[_ E] | [E [_ M]]]]]]];
    rewrite E; try reflexivity.
  simpl. rewrite M. reflexivity.
Qed.

Lemma html_escape_injective (a b : str) :
  html_escape a = html_escape b -> a = b.
Proof.
  revert b. induction a as [|x a IH]; intros [|y b] H.
  - reflexivity.
  - exfalso. change (html_escape (y :: b)) with (escape_char y ++ html_escape b) in H.
    destruct (escape_char_cases y)
      as [[_ E] | [[_ E] | [[_ E] | [[_ E] | [[_ E] | [E _]]]]]];
      rewrite E in H; discriminate H.
  - exfalso. change (html_escape (x :: a)) with (escape_char x ++ html_escape a) in H.
    destruct (escape_char_cases x)
      as [[_ E] | [[_ E] | [[_ E] | [[_ E] | [[_ E] | [E _]]]]]];
      rewrite E in H; discriminate H.
  - change (html_escape (x :: a)) with (escape_char x ++ html_escape a) in H.
    change (html_escape (y :: b)) with (escape_char y ++ html_escape b) in H.
    destruct (escape_char_cases x)
      as [[Cx Ex] | [[Cx Ex] | [[Cx Ex] | [[Cx Ex] | [[Cx Ex] | [Ex [Nx _]]]]]]];
    destruct (escape_char_cases y)
      as [[Cy Ey] | [[Cy Ey] | [[Cy Ey] | [[Cy Ey] | [[Cy Ey] | [Ey [Ny _]]]]]]];
      rewrite Ex, Ey in H; try discriminate H;
      try (subst x y; f_equal; apply IH; simpl in H; congruence);
      try (simpl in H; injection H as H1 H2; congruence).
    simpl in H. injection H as -> H. f_equal. exact (IH b H).
Qed.

(** X20.  A text escaped by [html.escape] holds no angle bracket and no
    quote; escaping goes through concatenation, loses nothing (two texts
    with the same escaped form are the same), leaves a text without the
    five special characters as it is and never shortens a text. *)
Theorem html_escape_safe (s : str) :
  forallb markup_free (html_escape s) = true
  /\ (forall t, html_escape (s ++ t) = html_escape s ++ html_escape t)
  /\ (forall t, html_escape s = html_escape t -> s = t)
  /\ (forallb (fun c => markup_free c && negb (chr_eqb c "&"%char)) s = true ->
      html_escape s = s)
  /\ (len s <= len (html_escape s))%Z.
Proof.
  split; [apply html_escape_markup_free|].
  split; [apply html_escape_app|].
  split; [apply html_escape_injective|]. split.
  - induction s as [|c s IH]; [reflexivity|].
    cbn [forallb]. intro H. apply andb_prop in H as [Hc Hs].
    change (html_escape (c :: s)) with (escape_char c ++ html_escape s).
    rewrite (IH Hs). apply andb_prop in Hc as [M A].
    destruct (escape_char_cases c)
      as [[C _] | [[C _] | [[C _] | [[C _] | [[C _] | [E _]]]]]];
      try (subst c; discriminate M); try (subst c; discriminate A).
    rewrite E. reflexivity.
  - induction s as [|c s IH]; [reflexivity|].
    change (html_escape (c :: s)) with (escape_char c ++ html_escape s).
    rewrite len_app.
    assert (1 <= len (escape_char c))%Z.
    { destruct (escape_char_cases c)
        as [[_ E] | [[_ E] | [[_ E] | [[_ E] | [[_ E] | [E _]]]]]];
        rewrite E; unfold len; simpl; lia. }
    unfold len in *. simpl List.length. lia.
Qed.

(** ** Substrings *)

Lemma startswith_nil (s : str) : startswith s [] = true.
Proof. destruct s; reflexivity. Qed.

Lemma startswith_app (p r : str) : startswith (p ++ r) p = true.
Proof.
  induction p as [|c p IH]; [apply startswith_nil|]. simpl.
  rewrite chr_eqb_refl. exact IH.
Qed.

Lemma startswith_app_l (s t p : str) :
  startswith s p = true -> startswith (s ++ t) p = true.
Proof.
  revert s. induction p as [|c p IH]; intros s H; [apply startswith_nil|].
  destruct s as [|d s]; [discriminate H|]. simpl in *.
  apply andb_prop in H as [E H]. rewrite E. exact (IH s H).
Qed.

(** [startswith (a ++ b ++ ... ++ rest) (a ++ b ++ ...)] *)
Ltac starts_with_prefix :=
  rewrite ?app_assoc;
  repeat first [apply startswith_app | apply startswith_app_l].

Lemma contains_starts (s p : str) : startswith s p = true -> contains s p = true.
Proof. intro H. destruct s; simpl in *; rewrite H; reflexivity. Qed.


Lemma contains_app_r (s t p : str) :
  contains t p = true -> contains (s ++ t) p = true.
Proof.
  intro H. induction s as [|c s IH]; [exact H|].
  change ((c :: s) ++ t) with (c :: (s ++ t)). cbn [contains].
  rewrite IH. apply orb_true_r.
Qed.

(** ** The list of sources of a post *)

Section Posting.

Variable netloc : str -> option str.


Lemma source_items_objects (sources : list json) (source : json) :
  In source sources -> is_dict source = false ->
  source_items netloc sources = None.
Proof.
  induction sources as [|s rest IH]; intros Hin Nd; [destruct Hin|].
  destruct Hin as [-> | Hin].
  - destruct source; try reflexivity. discriminate Nd.
  - cbn [source_items]. rewrite (IH Hin Nd).
    destruct s; try reflexivity.
    destruct (negb _); [reflexivity|].
    match goal with
    | |- match ?d with Some _ => _ | None => None end = _ =>
        destruct d; reflexivity
    end.
Qed.




(** X22.  [build_candidate_media_section] writes nothing exactly when the
    image URL does not start with [http]; otherwise a [figure] whose image
    has the escaped URL as its source and the escaped name as its [alt]
    text, while the caption holds the name as it is, not escaped. *)
Theorem media_section_figure (candidate_profile : dict) :
  let image_url := field_ws candidate_profile "profile_image_url" in
  let name := field_ws candidate_profile "candidate_name" in
  let section := build_candidate_media_section candidate_profile in
  (section = [] <-> startswith image_url (lit "http") = false)
  /\ (startswith image_url (lit "http") = true ->
      startswith section (lit "<figure>") = true
      /\ contains section (lit "<figure") = true
      /\ contains section
           (lit "<img src=" ++ [dq] ++ html_escape image_url ++ [dq]) = true
      /\ (name <> [] ->
          contains section
            (lit " alt=" ++ [dq] ++ html_escape name ++ [dq]) = true
          /\ contains section (lit "<figcaption>" ++ name) = true)).
Proof.
  intros image_url name section.
  unfold section, build_candidate_media_section.
  fold image_url. fold name.
  destruct (startswith image_url (lit "http")) eqn:Http; cbn [negb].
  2: { split; [split; reflexivity | discriminate]. }
  split; [split; discriminate|]. intros _.
  split; [reflexivity|]. split; [reflexivity|]. split.
  { do 2 apply contains_app_r.
    match goal with
    | |- contains (_ ++ ?Y) ?n = true =>
        change (contains (lit "  " ++ (lit "<img src=" ++ Y)) n = true)
    end.
    apply contains_app_r, contains_starts. starts_with_prefix. }
  intro Nn. split.
  - rewrite (or_str_left name (lit "Candidate") Nn).
    do 6 apply contains_app_r. apply contains_starts. starts_with_prefix.
  - do 16 apply contains_app_r.
    match goal with
    | |- contains (_ ++ ?Y) ?n = true =>
        change (contains (lit "  " ++ (lit "<figcaption>" ++ Y)) n = true)
    end.
    apply contains_app_r, contains_starts.
    cbn [filter]. rewrite (is_empty_false name Nn). cbn [negb].
    destruct (negb (is_empty (field_ws candidate_profile "profile_image_credit")));
      cbn [is_empty negb join];
      destruct (startswith
                  (field_ws candidate_profile "profile_image_source_url")
                  (lit "http"));
      starts_with_prefix.
Qed.

End Posting.

(** ** The post [insert_post] sends *)









Section Inserting.

Variable netloc : str -> option str.


Lemma source_urls_of_objects (sources : list json) :
  source_urls_of (filter is_dict sources) = source_urls_of sources.
Proof.
  induction sources as [|source rest IH]; [reflexivity|].
  destruct source; cbn [filter is_dict]; try exact IH.
  cbn [source_urls_of flat_map]. fold (source_urls_of rest).
  fold (source_urls_of (filter is_dict rest)). rewrite IH. reflexivity.
Qed.

Lemma source_domains_objects (sources : list json) :
  source_domains netloc (filter is_dict sources) = source_domains netloc sources.
Proof.
  induction sources as [|source rest IH]; [reflexivity|].
  destruct source; cbn [filter is_dict];
    cbn [source_domains]; rewrite <- IH;
    destruct (source_domains netloc (filter is_dict rest)); reflexivity.
Qed.

(** X24.  A source that is not an object makes [insert_post] raise, though
    [validate_payload] does not see it: the URLs and domains it counts are
    those of the sources that are objects. *)
Theorem non_object_source_stops_insert
    (payload : dict) (post_status : str) (sources : list json) (source : json) :
  get_or payload (lit "sources") (JList []) = JList sources ->
  In source sources -> is_dict source = false ->
  insert_post netloc payload post_status = None
  /\ source_urls_of (filter is_dict sources) = source_urls_of sources
  /\ unique_domains_of netloc (filter is_dict sources)
     = unique_domains_of netloc sources.
Proof.
  intros Es Hin Nd. split; [|split].
  - unfold insert_post. rewrite Es.
    unfold build_sources_section. cbn [elements].
    rewrite (source_items_objects netloc sources source Hin Nd).
    destruct (dict_get payload (lit "content_html")); reflexivity.
  - apply source_urls_of_objects.
  - unfold unique_domains_of. rewrite source_domains_objects. reflexivity.
Qed.

End Inserting.

Lemma non_object_source_stops_insert_witness :
  validate_payload no_netloc
    (scenario_draft scenario_title (sources_A ++ [JStr (lit "see also")]))
    [] [] 12 85 = Some []
  /\ insert_post no_netloc
       (scenario_draft scenario_title (sources_A ++ [JStr (lit "see also")]))
       (lit "publish") = None.
Proof.
  split; [vm_compute; reflexivity|].
  apply (non_object_source_stops_insert no_netloc
           (scenario_draft scenario_title (sources_A ++ [JStr (lit "see also")]))
           (lit "publish") (sources_A ++ [JStr (lit "see also")])
           (JStr (lit "see also"))).
  - reflexivity.
  - apply in_or_app. right. left. reflexivity.
  - reflexivity.
Defined.


(** ** The schema handed to the service: [sanitize_schema] *)

Section JsonInduction.

Variable P : json -> Prop.
Hypothesis P_null : P JNull.
Hypothesis P_bool : forall b, P (JBool b).
Hypothesis P_int : forall z, P (JInt z).
Hypothesis P_str : forall s, P (JStr s).
Hypothesis P_list : forall items, Forall P items -> P (JList items).
Hypothesis P_obj :
  forall fields, Forall (fun kv => P (snd kv)) fields -> P (JObj fields).

(** Induction on a JSON value, with the property at hand for every item of
    a list and every value of an object. *)
Lemma json_induction : forall j, P j.
Proof.
  fix IH 1. intros [|b|z|s|items|fields].
  - exact P_null.
  - apply P_bool.
  - apply P_int.
  - apply P_str.
  - apply P_list.
    exact ((fix all (l : list json) : Forall P l :=
              match l with
              | [] => Forall_nil P
              | x :: l' => Forall_cons x (IH x) (all l')
              end) items).
  - apply P_obj.
    exact ((fix all (l : list (str * json))
              : Forall (fun kv => P (snd kv)) l :=
              match l with
              | [] => Forall_nil _
              | kv :: l' => Forall_cons kv (IH (snd kv)) (all l')
              end) fields).
Qed.

End JsonInduction.

Section SchemaFacts.

Import Gemini.

Lemma sanitize_schema_object (fields : list (str * json)) :
  sanitize_schema (JObj fields) = option_map JObj (sanitize_fields fields).
Proof.
  reflexivity.
Qed.

Lemma sanitize_properties_keys (properties cleaned : list (str * json)) :
  sanitize_properties properties = Some cleaned ->
  map fst cleaned = map fst properties.
Proof.
  revert cleaned. induction properties as [|[k v] more IH]; intros cleaned H.
  - injection H as <-. reflexivity.
  - cbn [sanitize_properties] in H.
    destruct (sanitize_schema v) as [v'|]; [|discriminate H].
    destruct (sanitize_properties more) as [more'|]; [|discriminate H].
    injection H as <-. cbn [map fst]. rewrite (IH more' eq_refl). reflexivity.
Qed.

Lemma sanitize_fields_keys (fields cleaned : list (str * json)) (key : str) :
  sanitize_fields fields = Some cleaned ->
  mem key unsupported_keys = true -> dict_get cleaned key = None.
Proof.
  intros H U. revert cleaned H.
  induction fields as [|[k v] rest IH]; intros cleaned H.
  - injection H as <-. reflexivity.
  - cbn [sanitize_fields] in H.
    destruct (mem k unsupported_keys) eqn:M; [exact (IH cleaned H)|].
    match type of H with
    | match ?value with Some _ => _ | None => _ end = _ =>
        destruct value as [v'|]; [|discriminate H]
    end.
    destruct (sanitize_fields rest) as [rest'|]; [|discriminate H].
    injection H as <-. cbn [dict_get].
    destruct (str_eqb k key) eqn:E; [|exact (IH rest' eq_refl)].
    apply str_eqb_eq in E. subst k. congruence.
Qed.

(** What is sanitized once stays as it is when sanitized again; for an
    object also as the value of [properties]. *)
Lemma sanitize_schema_settled (schema : json) :
  (forall cleaned,
     sanitize_schema schema = Some cleaned ->
     sanitize_schema cleaned = Some cleaned)
  /\ (forall properties cleaned,
        schema = JObj properties ->
        sanitize_properties properties = Some cleaned ->
        sanitize_properties cleaned = Some cleaned).
Proof.
  induction schema as [|b|z|s|items _|fields IH] using json_induction;
    try (split; [intros cleaned [= <-]; reflexivity | discriminate]).
  split.
  - intros cleaned H. rewrite sanitize_schema_object in H.
    destruct (sanitize_fields fields) as [fields'|] eqn:F; [|discriminate H].
    injection H as <-. rewrite sanitize_schema_object.
    assert (G : sanitize_fields fields' = Some fields'); [|rewrite G; reflexivity].
    revert fields' F. induction fields as [|[k v] rest IHr]; intros fields' F.
    + injection F as <-. reflexivity.
    + inversion IH as [|? ? [Hv1 Hv2] Hrest]; subst.
      cbn [snd] in Hv1, Hv2. specialize (IHr Hrest).
      cbn [sanitize_fields] in F.
      destruct (mem k unsupported_keys) eqn:M; [exact (IHr fields' F)|].
      destruct (sanitize_fields rest) as [rest'|] eqn:R.
      2: { match type of F with
           | match ?value with Some _ => _ | None => _ end = _ =>
               destruct value; discriminate F
           end. }
      specialize (IHr rest' eq_refl).
      destruct (str_eqb k (lit "properties")) eqn:Kp.
      * destruct v as [| | | | |properties]; try discriminate F.
        destruct (sanitize_properties properties) as [properties'|] eqn:Sp;
          [|discriminate F].
        cbn [option_map] in F. injection F as <-.
        cbn [sanitize_fields]. rewrite M, Kp, IHr.
        rewrite (Hv2 properties properties' eq_refl Sp). reflexivity.
      * destruct (str_eqb k (lit "items")) eqn:Ki.
        -- destruct (sanitize_schema v) as [v'|] eqn:Sv; [|discriminate F].
           injection F as <-.
           cbn [sanitize_fields]. rewrite M, Kp, Ki, IHr, (Hv1 v' eq_refl).
           reflexivity.
        -- injection F as <-.
           cbn [sanitize_fields]. rewrite M, Kp, Ki, IHr. reflexivity.
  - intros properties cleaned [= <-] H. revert cleaned H.
    induction fields as [|[k v] rest IHr]; intros cleaned H.
    + injection H as <-. reflexivity.
    + inversion IH as [|? ? [Hv1 _] Hrest]; subst. cbn [snd] in Hv1.
      cbn [sanitize_properties] in H.
      destruct (sanitize_schema v) as [v'|] eqn:Sv; [|discriminate H].
      destruct (sanitize_properties rest) as [rest'|] eqn:R; [|discriminate H].
      injection H as <-. cbn [sanitize_properties].
      rewrite (Hv1 v' eq_refl), (IHr Hrest rest' eq_refl). reflexivity.
Qed.

(** X25.  [sanitize_schema] returns a value that is not an object as it is
    and raises on a [properties] value that is not an object.  What it
    returns has none of the four unsupported keys at its top, keeps the
    names of the properties (also a property named [title]), and is left
    as it is when sanitized again. *)
Theorem sanitize_schema_clean (schema : json) :
  (is_dict schema = false -> sanitize_schema schema = Some schema)
  /\ (forall fields value,
        schema = JObj fields ->
        dict_get fields (lit "properties") = Some value ->
        is_dict value = false ->
        sanitize_schema schema = None)
  /\ (forall cleaned,
        sanitize_schema schema = Some cleaned ->
        (* nothing is left to remove *)
        sanitize_schema cleaned = Some cleaned
        /\ is_dict cleaned = is_dict schema
        /\ (forall fields key,
              cleaned = JObj fields -> mem key unsupported_keys = true ->
              dict_get fields key = None)
        (* the properties keep their names, also the name [title] *)
        /\ (forall fields properties,
              schema = JObj fields ->
              dict_get fields (lit "properties") = Some (JObj properties) ->
              exists fields' properties',
                cleaned = JObj fields'
                /\ dict_get fields' (lit "properties") = Some (JObj properties')
                /\ map fst properties' = map fst properties)).
Proof.
  split; [|split].
  - intro Nd. destruct schema; try reflexivity. discriminate Nd.
  - intros fields value -> G Nd. rewrite sanitize_schema_object.
    assert (F : sanitize_fields fields = None); [|rewrite F; reflexivity].
    induction fields as [|[k v] rest IH]; [discriminate G|].
    cbn [dict_get] in G. cbn [sanitize_fields].
    destruct (str_eqb k (lit "properties")) eqn:Kp.
    + apply str_eqb_eq in Kp. subst k. injection G as ->.
      change (mem (lit "properties") unsupported_keys) with false. cbv iota.
      destruct value; try reflexivity. discriminate Nd.
    + rewrite (IH G). destruct (mem k unsupported_keys); [reflexivity|].
      destruct (str_eqb k (lit "items")); [destruct (sanitize_schema v)|];
        reflexivity.
  - intros cleaned H.
    split; [exact (proj1 (sanitize_schema_settled schema) cleaned H)|].
    destruct schema as [| | | | |fields];
      try (injection H as <-; split; [reflexivity|];
           split; [intros ? ? X; discriminate X | intros ? ? X; discriminate X]).
    rewrite sanitize_schema_object in H.
    destruct (sanitize_fields fields) as [fields'|] eqn:F; [|discriminate H].
    injection H as <-. split; [reflexivity|]. split.
    + intros fields0 key [= <-] U. exact (sanitize_fields_keys _ _ _ F U).
    + intros fields0 properties [= <-] G.
      revert fields' F. induction fields as [|[k v] rest IH]; intros fields' F;
        [discriminate G|].
      cbn [dict_get] in G. cbn [sanitize_fields] in F.
      destruct (str_eqb k (lit "properties")) eqn:Kp.
      * pose proof Kp as Kp'. apply str_eqb_eq in Kp'. subst k.
        injection G as ->.
        change (mem (lit "properties") unsupported_keys) with false in F.
        cbv iota in F.
        destruct (sanitize_properties properties) as [properties'|] eqn:Sp;
          [|discriminate F].
        cbn [option_map] in F.
        destruct (sanitize_fields rest) as [rest'|]; [|discriminate F].
        injection F as <-. exists ((lit "properties", JObj properties') :: rest'),
          properties'.
        split; [reflexivity|]. split; [reflexivity|].
        exact (sanitize_properties_keys _ _ Sp).
      * destruct (mem k unsupported_keys).
        -- exact (IH G fields' F).
        -- match type of F with
           | match ?value with Some _ => _ | None => _ end = _ =>
               destruct value as [v'|]; [|discriminate F]
           end.
           destruct (sanitize_fields rest) as [rest'|]; [|discriminate F].
           injection F as <-.
           destruct (IH G rest' eq_refl) as (f' & p' & [= <-] & Gp & Kp').
           exists ((k, v') :: rest'), p'. split; [reflexivity|].
           split; [cbn [dict_get]; rewrite Kp; exact Gp | exact Kp'].
Qed.

End SchemaFacts.
